(** * Blink backend: SSRF validator and HTTP execution engines

    A shallow embedding of the Go sources
      - internal/validator/ssrf.go        (ValidateExecutionURL, isLocalhost, isPrivateIP)
      - internal/handlers  (execution)    (ExecuteRequest, executeHTTPRequest)
      - agent/executor.go, agent types    (executeHandler, executeHTTPRequest)
      - the item CRUD handler and migration 00002 (the method checks of the store)
    together with models of the parts of the Go standard library these
    functions call (strings, net, net/url, net/http's redirect loop).

    Go strings are byte strings and are modelled by [string]; a [net.IP] is a
    byte slice and is modelled by [list byte]; a Go [error] value is modelled
    by [option error] with [None] for nil. *)

From Stdlib Require Import NArith ZArith String Ascii Strings.Byte List Bool Lia.
From Stdlib Require DecimalString HexadecimalString.
From stdpp Require Import gmap strings list fin_maps.

Local Open Scope string_scope.

(** ** Package strings (byte-level part) *)
Module Strs.

Definition is_upper (c : ascii) : bool :=
  let n := N_of_ascii c in ((65 <=? n) && (n <=? 90))%N.

Definition is_lower (c : ascii) : bool :=
  let n := N_of_ascii c in ((97 <=? n) && (n <=? 122))%N.

Definition is_digit (c : ascii) : bool :=
  let n := N_of_ascii c in ((48 <=? n) && (n <=? 57))%N.

Definition is_alpha (c : ascii) : bool := is_upper c || is_lower c.

Definition lower_ascii (c : ascii) : ascii :=
  if is_upper c then ascii_of_N (N_of_ascii c + 32) else c.

Definition upper_ascii (c : ascii) : ascii :=
  if is_lower c then ascii_of_N (N_of_ascii c - 32) else c.

Definition is_byte (c : ascii) (n : N) : bool := (N_of_ascii c =? n)%N.

(** [strings.ToLower] and [strings.ToUpper]. Go maps the bytes of an
    ASCII text, and the runes of any other text by the Unicode tables.
    Four runes outside ASCII have an ASCII image: in upper case U+017F
    (long s, bytes C5 BF) is S and U+0131 (dotless i, C4 B1) is I; in lower
    case U+212A (Kelvin sign, E2 84 AA) is k and U+0130 (capital I with
    dot, C4 B0) is i. Their lead bytes are no continuation bytes, so these
    byte sequences are decoded as these runes wherever they stand. They
    are mapped here. Every other byte outside ASCII is kept as it is, where
    Go writes the image of the rune, again outside ASCII (U+FFFD for a
    byte that is not UTF-8): the result is Go's up to such runes, and
    equal to an ASCII text exactly when Go's is. The sources compare the
    results with ASCII texts only. *)
Fixpoint ToLower (s : string) : string :=
  match s with
  | EmptyString => EmptyString
  | String c r =>
      match r with
      | String d r' =>
          if is_byte c 196 && is_byte d 176 then String "i" (ToLower r')
          else
            match r' with
            | String e r'' =>
                if is_byte c 226 && is_byte d 132 && is_byte e 170
                then String "k" (ToLower r'')
                else String (lower_ascii c) (ToLower r)
            | EmptyString => String (lower_ascii c) (ToLower r)
            end
      | EmptyString => String (lower_ascii c) EmptyString
      end
  end.

Fixpoint ToUpper (s : string) : string :=
  match s with
  | EmptyString => EmptyString
  | String c r =>
      match r with
      | String d r' =>
          if is_byte c 197 && is_byte d 191 then String "S" (ToUpper r')
          else if is_byte c 196 && is_byte d 177 then String "I" (ToUpper r')
          else String (upper_ascii c) (ToUpper r)
      | EmptyString => String (upper_ascii c) EmptyString
      end
  end.

Definition HasPrefix (s p : string) : bool := String.prefix p s.

Fixpoint forall_bytes (p : ascii -> bool) (s : string) : bool :=
  match s with
  | EmptyString => true
  | String c r => p c && forall_bytes p r
  end.

Fixpoint contains_byte (c : ascii) (s : string) : bool :=
  match s with
  | EmptyString => false
  | String d r => Ascii.eqb c d || contains_byte c r
  end.

Fixpoint count_byte (c : ascii) (s : string) : nat :=
  match s with
  | EmptyString => 0
  | String d r => (if Ascii.eqb c d then 1 else 0) + count_byte c r
  end.

(** [strings.Cut(s, sep)] for a one-byte separator: the text before the
    first separator, the text after it, and whether it was found. *)
Fixpoint cut_byte (c : ascii) (s : string) : string * string * bool :=
  match s with
  | EmptyString => (EmptyString, EmptyString, false)
  | String d r =>
      if Ascii.eqb c d then (EmptyString, r, true)
      else match cut_byte c r with
           | (b, a, true) => (String d b, a, true)
           | (_, _, false) => (s, EmptyString, false)
           end
  end.

(** [strings.LastIndex(s, sep)] for a one-byte separator. *)
Fixpoint last_index_byte (c : ascii) (s : string) : option nat :=
  match s with
  | EmptyString => None
  | String d r =>
      match last_index_byte c r with
      | Some i => Some (S i)
      | None => if Ascii.eqb c d then Some 0%nat else None
      end
  end.

Definition take (n : nat) (s : string) : string := String.substring 0 n s.
Definition drop (n : nat) (s : string) : string :=
  String.substring n (String.length s - n) s.

Fixpoint last_byte (s : string) : option ascii :=
  match s with
  | EmptyString => None
  | String c EmptyString => Some c
  | String _ r => last_byte r
  end.

Definition HasSuffix_byte (s : string) (c : ascii) : bool :=
  match last_byte s with
  | Some d => Ascii.eqb c d
  | None => false
  end.

End Strs.

(** ** Go error values *)

(** [errorString] is an error made by [errors.New] or by [fmt.Errorf]
    without [%w]; [wrapError p e] is [fmt.Errorf(p + "%w", e)]: its text is
    the prefix followed by the text of the wrapped error, which stays
    reachable; [urlError] is net/url's [*url.Error]. *)
Inductive error : Type :=
| errorString (msg : string)
| wrapError (prefix : string) (err : error)
| urlError (op url : string) (err : error).

(** The result of a Go function returning [(T, error)]. *)
Inductive result (A : Type) : Type :=
| Ok (a : A)
| Err (e : error).
Arguments Ok {A} a.
Arguments Err {A} e.

Module Errors.

Definition dquote : string := String (ascii_of_N 34) EmptyString.

(** The [Error()] method. A [*url.Error] prints its operation, the URL
    between double quotes and the inner error. *)
Fixpoint Error (e : error) : string :=
  match e with
  | errorString m => m
  | wrapError p e' => p +:+ Error e'
  | urlError op url e' =>
      op +:+ " " +:+ dquote +:+ url +:+ dquote +:+ ": " +:+ Error e'
  end.

(** [errors.Unwrap], one step. *)
Definition Unwrap (e : error) : option error :=
  match e with
  | errorString _ => None
  | wrapError _ e' => Some e'
  | urlError _ _ e' => Some e'
  end.

(** The chain of errors reached by repeated unwrapping, outermost first. *)
Fixpoint chain (e : error) : list error :=
  e :: match e with
       | errorString _ => []
       | wrapError _ e' => chain e'
       | urlError _ _ e' => chain e'
       end.

End Errors.

(** ** Package net: IP addresses *)
Module Net.

(** [net.IP]: a byte slice, of length 4 or 16 when it is an address. *)
Definition IP : Type := list byte.
Definition IPMask : Type := list byte.

Definition IPv4len : nat := 4.
Definition IPv6len : nat := 16.

Definition byte_of_N (n : N) : byte :=
  match Byte.of_N n with
  | Some b => b
  | None => x00
  end.

(** The value of [ip[i]] (0 outside the slice, where Go would panic; the
    sources index only after a length test). *)
Definition at_ (ip : list byte) (i : nat) : N := Byte.to_N (nth i ip x00).

(** [bytealg.Equal] *)
Fixpoint bytes_eqb (a b : list byte) : bool :=
  match a, b with
  | [], [] => true
  | x :: a', y :: b' => Byte.eqb x y && bytes_eqb a' b'
  | _, _ => false
  end.

Definition v4InV6Prefix : list byte :=
  [x00; x00; x00; x00; x00; x00; x00; x00; x00; x00; xff; xff].

(** [net.IPv4(a, b, c, d)]: the 16-byte form of an IPv4 address. *)
Definition IPv4 (a b c d : N) : IP :=
  (v4InV6Prefix ++ [byte_of_N a; byte_of_N b; byte_of_N c; byte_of_N d])%list.

Definition IPv6loopback : IP :=
  [x00; x00; x00; x00; x00; x00; x00; x00; x00; x00; x00; x00; x00; x00; x00; x01].

Definition isZeros (p : list byte) : bool :=
  forallb (fun b => Byte.eqb b x00) p.

Definition allFF (p : list byte) : bool :=
  forallb (fun b => Byte.eqb b xff) p.

(** [ip.To4()]: [None] stands for the nil slice. *)
Definition To4 (ip : IP) : option IP :=
  if (length ip =? IPv4len)%nat then Some ip
  else if (length ip =? IPv6len)%nat && isZeros (take 10 ip)
            && (at_ ip 10 =? 255)%N && (at_ ip 11 =? 255)%N
       then Some (drop 12 ip)
       else None.

(** [ip.Equal(x)] *)
Definition Equal (ip x : IP) : bool :=
  if (length ip =? length x)%nat then bytes_eqb ip x
  else if (length ip =? IPv4len)%nat && (length x =? IPv6len)%nat
       then bytes_eqb (take 12 x) v4InV6Prefix && bytes_eqb ip (drop 12 x)
  else if (length ip =? IPv6len)%nat && (length x =? IPv4len)%nat
       then bytes_eqb (take 12 ip) v4InV6Prefix && bytes_eqb (drop 12 ip) x
  else false.

Definition IsLoopback (ip : IP) : bool :=
  match To4 ip with
  | Some ip4 => (at_ ip4 0 =? 127)%N
  | None => Equal ip IPv6loopback
  end.

Definition IsLinkLocalUnicast (ip : IP) : bool :=
  match To4 ip with
  | Some ip4 => (at_ ip4 0 =? 169)%N && (at_ ip4 1 =? 254)%N
  | None =>
      (length ip =? IPv6len)%nat && (at_ ip 0 =? 254)%N
      && (N.land (at_ ip 1) 192 =? 128)%N
  end.

Definition IsLinkLocalMulticast (ip : IP) : bool :=
  match To4 ip with
  | Some ip4 => (at_ ip4 0 =? 224)%N && (at_ ip4 1 =? 0)%N && (at_ ip4 2 =? 0)%N
  | None =>
      (length ip =? IPv6len)%nat && (at_ ip 0 =? 255)%N
      && (N.land (at_ ip 1) 15 =? 2)%N
  end.

(** [net.IPNet] *)
Record IPNet : Type := mkIPNet { netIP : IP; netMask : IPMask }.

(** [net.CIDRMask(ones, bits)]; [None] is the nil mask. The loop writes
    [0xff] while at least 8 ones remain, then [^(0xff >> n)], then zeros. *)
Fixpoint cidr_bytes (l : nat) (n : N) : list byte :=
  match l with
  | O => []
  | S l' =>
      if (8 <=? n)%N then xff :: cidr_bytes l' (n - 8)
      else byte_of_N (255 - N.shiftr 255 n) :: cidr_bytes l' 0
  end.

Definition CIDRMask (ones : N) (bits : nat) : option IPMask :=
  if negb ((bits =? 8 * IPv4len)%nat || (bits =? 8 * IPv6len)%nat) then None
  else if (N.of_nat bits <? ones)%N then None
  else Some (cidr_bytes (bits / 8) ones).

(** [ip.Mask(mask)]; [None] is the nil result. *)
Definition Mask (ip : IP) (mask : IPMask) : option IP :=
  let mask :=
    if (length mask =? IPv6len)%nat && (length ip =? IPv4len)%nat
       && allFF (take 12 mask)
    then drop 12 mask else mask in
  let ip :=
    if (length mask =? IPv4len)%nat && (length ip =? IPv6len)%nat
       && bytes_eqb (take 12 ip) v4InV6Prefix
    then drop 12 ip else ip in
  if negb (length ip =? length mask)%nat then None
  else Some (zip_with (fun a m => byte_of_N (N.land (Byte.to_N a) (Byte.to_N m))) ip mask).

(** [networkNumberAndMask(n)]: nil slices are the empty lists. *)
Definition networkNumberAndMask (n : IPNet) : list byte * list byte :=
  let cont (ip : list byte) :=
    if (length (netMask n) =? IPv4len)%nat then
      if negb (length ip =? IPv4len)%nat then ([], []) else (ip, netMask n)
    else if (length (netMask n) =? IPv6len)%nat then
      if (length ip =? IPv4len)%nat then (ip, drop 12 (netMask n))
      else (ip, netMask n)
    else ([], []) in
  match To4 (netIP n) with
  | Some ip => cont ip
  | None =>
      if negb (length (netIP n) =? IPv6len)%nat then ([], [])
      else cont (netIP n)
  end.

(** The loop of [Contains]: every byte of the address agrees with the
    network number under the mask. *)
Fixpoint masked_eq (nn m ip : list byte) : bool :=
  match ip with
  | [] => true
  | b :: ip' =>
      (N.land (Byte.to_N (hd x00 nn)) (Byte.to_N (hd x00 m))
       =? N.land (Byte.to_N b) (Byte.to_N (hd x00 m)))%N
      && masked_eq (tl nn) (tl m) ip'
  end.

(** [n.Contains(ip)] *)
Definition Contains (n : IPNet) (ip : IP) : bool :=
  let '(nn, m) := networkNumberAndMask n in
  let ip := match To4 ip with Some x => x | None => ip end in
  if negb (length ip =? length nn)%nat then false
  else masked_eq nn m ip.

(** *** Address literals (net/netip) *)

(** [parseAddrError]: the text that was parsed, what is wrong with it
    and, for some errors, the place in the text. *)
Definition quoted (s : string) : string := Errors.dquote +:+ s +:+ Errors.dquote.

Definition parseAddrError (input msg place : string) : error :=
  errorString ("ParseAddr(" +:+ quoted input +:+ "): " +:+ msg
               +:+ (if String.eqb place "" then ""
                    else " (at " +:+ quoted place +:+ ")")).

(** [parseIPv4Fields]: the loop over the bytes of a dotted quad [s],
    which is all or the end of [input]. The state is the value and the
    number of digits of the current field, the number of fields closed so
    far and their values; [first] says that the byte is at index 0 and
    [prevdot] that the byte before it is a dot. A field with a leading
    zero, a value above 255, an empty field, a fifth field and any other
    byte are errors. *)
Fixpoint parseIPv4Fields (input s : string) (first prevdot : bool)
    (val : N) (pos digLen : nat) (fields : list N) : result (list N) :=
  match s with
  | EmptyString =>
      if (pos <? 3)%nat then Err (parseAddrError input "IPv4 address too short" "")
      else Ok (fields ++ [val])%list
  | String c r =>
      if Strs.is_digit c then
        if (digLen =? 1)%nat && (val =? 0)%N
        then Err (parseAddrError input "IPv4 field has octet with leading zero" "")
        else
          let val' := (val * 10 + (N_of_ascii c - 48))%N in
          if (255 <? val')%N
          then Err (parseAddrError input "IPv4 field has value >255" "")
          else parseIPv4Fields input r false false val' pos (S digLen) fields
      else if Ascii.eqb c "." then
        if first || prevdot || match r with EmptyString => true | _ => false end
        then Err (parseAddrError input "IPv4 field must have at least one digit" s)
        else if (pos =? 3)%nat
        then Err (parseAddrError input "IPv4 address too long" "")
        else parseIPv4Fields input r false true 0%N (S pos) 0%nat (fields ++ [val])%list
      else Err (parseAddrError input "unexpected character" s)
  end.

Definition parseIPv4 (s : string) : result (list byte) :=
  match parseIPv4Fields s s true false 0 0 0 [] with
  | Ok fields => Ok (map byte_of_N fields)
  | Err e => Err e
  end.

Definition hex_value (c : ascii) : option N :=
  let n := N_of_ascii c in
  if Strs.is_digit c then Some (n - 48)%N
  else if ((97 <=? n) && (n <=? 102))%N then Some (n - 87)%N
  else if ((65 <=? n) && (n <=? 70))%N then Some (n - 55)%N
  else None.

(** The inner loop of [parseIPv6]: the hexadecimal digits at the head of
    the text, at most four. The result is their number, their value and
    the text after them; [group] is the text at the start of the loop. *)
Fixpoint hexField (input group s : string) (off : nat) (acc : N)
  : result (nat * N * string) :=
  match s with
  | EmptyString => Ok (off, acc, s)
  | String c r =>
      match hex_value c with
      | None => Ok (off, acc, s)
      | Some d =>
          let acc' := (acc * 16 + d)%N in
          if (3 <? off)%nat
          then Err (parseAddrError input "each group must have 4 or less digits" group)
          else if (65535 <? acc')%N
          then Err (parseAddrError input "IPv6 field has value >=2^16" group)
          else hexField input group r (S off) acc'
      end
  end.

(** The outer loop of [parseIPv6], run while fewer than 16 bytes are
    written: a group of digits, then either a dotted quad that ends the
    address, or the end of the text, or a colon and more, where a second
    colon is the ellipsis. [ip] holds the bytes written so far and
    [ellipsis] the number of bytes written before the double colon. The
    result is the text left, the bytes and the ellipsis. Every turn but
    the last writes two bytes, so eight turns are enough. *)
Fixpoint parseIPv6_loop (turns : nat) (input s : string) (ip : list byte)
    (ellipsis : option nat) : result (string * list byte * option nat) :=
  match turns with
  | O => Ok (s, ip, ellipsis)
  | S turns' =>
      if negb (length ip <? 16)%nat then Ok (s, ip, ellipsis)
      else
        match hexField input s s 0 0 with
        | Err e => Err e
        | Ok (off, acc, rest) =>
            if (off =? 0)%nat
            then Err (parseAddrError input
                        "each colon-separated field must have at least one digit" s)
            else if Strs.HasPrefix rest "."
            then
              if match ellipsis with None => negb (length ip =? 12)%nat | Some _ => false end
              then Err (parseAddrError input
                          "embedded IPv4 address must replace the final 2 fields of the address"
                          s)
              else if (16 <? length ip + 4)%nat
              then Err (parseAddrError input
                          "too many hex fields to fit an embedded IPv4 at the end of the address"
                          s)
              else
                match parseIPv4Fields input s true false 0 0 0 [] with
                | Err e => Err e
                | Ok fields => Ok (EmptyString, (ip ++ map byte_of_N fields)%list, ellipsis)
                end
            else
              let ip' := (ip ++ [byte_of_N (N.shiftr acc 8); byte_of_N (N.land acc 255)])%list in
              match rest with
              | EmptyString => Ok (EmptyString, ip', ellipsis)
              | String c afterColon =>
                  if negb (Ascii.eqb c ":")
                  then Err (parseAddrError input "unexpected character, want colon" rest)
                  else
                    match afterColon with
                    | EmptyString =>
                        Err (parseAddrError input
                               "colon must be followed by more characters" rest)
                    | String c2 afterEllipsis =>
                        if Ascii.eqb c2 ":" then
                          match ellipsis with
                          | Some _ =>
                              Err (parseAddrError input "multiple :: in address" afterColon)
                          | None =>
                              match afterEllipsis with
                              | EmptyString => Ok (EmptyString, ip', Some (length ip'))
                              | _ => parseIPv6_loop turns' input afterEllipsis ip'
                                       (Some (length ip'))
                              end
                          end
                        else parseIPv6_loop turns' input afterColon ip' ellipsis
                    end
              end
        end
  end.

(** [parseIPv6]: the sixteen bytes and the zone. The zone is the text
    after the first percent sign; a double colon stands for at least one
    group of zeros. *)
Definition parseIPv6 (input : string) : result (list byte * string) :=
  let '(s, zone, found) := Strs.cut_byte "%" input in
  if found && String.eqb zone ""
  then Err (parseAddrError input "zone must be a non-empty string" "")
  else
    let '(s, ellipsis) :=
      match s with
      | String ":" (String ":" r) => (r, Some 0%nat)
      | _ => (s, None)
      end in
    match ellipsis, s with
    | Some _, EmptyString => Ok (repeat x00 16, zone)
    | _, _ =>
        match parseIPv6_loop 8 input s [] ellipsis with
        | Err e => Err e
        | Ok (rest, ip, ellipsis) =>
            if negb (String.eqb rest "")
            then Err (parseAddrError input "trailing garbage after address" rest)
            else if (length ip <? 16)%nat then
              match ellipsis with
              | None => Err (parseAddrError input "address string too short" "")
              | Some e =>
                  Ok ((take e ip ++ repeat x00 (16 - length ip) ++ drop e ip)%list, zone)
              end
            else
              match ellipsis with
              | Some _ =>
                  Err (parseAddrError input
                         "the :: must expand to at least one field of zeros" "")
              | None => Ok (ip, zone)
              end
        end
    end.

(** The first of a dot, a colon and a percent sign decides how
    [netip.ParseAddr] reads the text. *)
Fixpoint first_mark (s : string) : option ascii :=
  match s with
  | EmptyString => None
  | String c r =>
      if Ascii.eqb c "." || Ascii.eqb c ":" || Ascii.eqb c "%"
      then Some c else first_mark r
  end.

(** [netip.Addr]: the address in its 16-byte form ([As16]; an IPv4
    address is IPv4-mapped there), whether it was written as a dotted
    quad, and the zone. *)
Record Addr : Type := mkAddr {
  As16 : IP;
  Is4 : bool;
  Zone : string
}.

Definition BitLen (a : Addr) : nat := if Is4 a then 32 else 128.

(** [netip.ParseAddr] *)
Definition ParseAddr (s : string) : result Addr :=
  match first_mark s with
  | Some "."%char =>
      match parseIPv4 s with
      | Ok b4 => Ok (mkAddr (v4InV6Prefix ++ b4)%list true "")
      | Err e => Err e
      end
  | Some ":"%char =>
      match parseIPv6 s with
      | Ok (b16, zone) => Ok (mkAddr b16 false zone)
      | Err e => Err e
      end
  | Some _ => Err (parseAddrError s "missing IPv6 address" "")
  | None => Err (parseAddrError s "unable to parse IP" "")
  end.

(** [netip.ParseAddr] followed by [As16]; [None] when the text is no
    address. *)
Definition ParseAddr16 (s : string) : option IP :=
  match ParseAddr s with
  | Ok a => Some (As16 a)
  | Err _ => None
  end.

(** [dtoi] over a whole string: a non-empty run of digits below [0xFFFFFF]. *)
Fixpoint dtoi_acc (s : string) (n : N) : option N :=
  match s with
  | EmptyString => Some n
  | String c r =>
      if Strs.is_digit c then
        let n' := (n * 10 + (N_of_ascii c - 48))%N in
        if (16777215 <=? n')%N then None else dtoi_acc r n'
      else None
  end.

Definition dtoi (s : string) : option N :=
  match s with
  | EmptyString => None
  | _ => dtoi_acc s 0
  end.

(** [net.ParseCIDR(s)], the network it returns; [None] when it returns an
    error. An address with a zone is an error. *)
Definition ParseCIDR (s : string) : option IPNet :=
  match Strs.cut_byte "/" s with
  | (addr, mask, true) =>
      match ParseAddr addr, dtoi mask with
      | Ok ipAddr, Some n =>
          if negb (String.eqb (Zone ipAddr) "") then None
          else
            match CIDRMask n (BitLen ipAddr) with
            | Some m =>
                match Mask (As16 ipAddr) m with
                | Some nip => Some (mkIPNet nip m)
                | None => None
                end
            | None => None
            end
      | _, _ => None
      end
  | _ => None
  end.

(** *** Printing an address *)

Definition itoa (n : N) : string :=
  DecimalString.NilZero.string_of_uint (N.to_uint n).

Definition appendHex (n : N) : string :=
  HexadecimalString.NilZero.string_of_uint (N.to_hex_uint n).

Definition hexDigit (n : N) : string := appendHex (N.land n 15).

Definition hexString (b : list byte) : string :=
  fold_right (fun x acc =>
                hexDigit (N.shiftr (Byte.to_N x) 4) +:+ hexDigit (Byte.to_N x) +:+ acc)
             EmptyString b.

(** The eight 16-bit groups of a 16-byte address. *)
Fixpoint v6u16 (ip : list byte) : list N :=
  match ip with
  | h :: l :: r => (Byte.to_N h * 256 + Byte.to_N l)%N :: v6u16 r
  | _ => []
  end.

(** Number of consecutive zero groups at the head of the list. *)
Fixpoint zero_run (gs : list N) : nat :=
  match gs with
  | 0%N :: r => S (zero_run r)
  | _ => 0
  end.

(** The first longest run of at least two zero groups, as start and end
    index, searched from index [i] on; [best] is the run found so far. *)
Fixpoint longest_zero_run (gs : list N) (i : nat) (best : option (nat * nat))
  : option (nat * nat) :=
  match gs with
  | [] => best
  | _ :: r =>
      let l := zero_run gs in
      let cur := match best with Some (a, b) => (b - a)%nat | None => 0%nat end in
      let best' := if (2 <=? l)%nat && (cur <? l)%nat then Some (i, (i + l)%nat) else best in
      longest_zero_run r (S i) best'
  end.

(** The printing loop of [appendTo6]: [i] is the index of the group at
    the head of [gs]. *)
Fixpoint print_groups (fuel : nat) (gs : list N) (i : nat) (zr : option (nat * nat))
  : string :=
  match fuel with
  | O => EmptyString
  | S fuel' =>
      match gs with
      | [] => EmptyString
      | g :: r =>
          match zr with
          | Some (zs, ze) =>
              if (i =? zs)%nat then
                match List.skipn (ze - i) gs with
                | [] => "::"
                | g' :: r' => "::" +:+ appendHex g' +:+ print_groups fuel' r' (S ze) zr
                end
              else (if (0 <? i)%nat then ":" else "") +:+ appendHex g
                     +:+ print_groups fuel' r (S i) zr
          | None =>
              (if (0 <? i)%nat then ":" else "") +:+ appendHex g
                +:+ print_groups fuel' r (S i) zr
          end
      end
  end.

Definition string6 (ip : list byte) : string :=
  let gs := v6u16 ip in
  print_groups 9 gs 0 (longest_zero_run gs 0 None).

Definition string4 (ip4 : list byte) : string :=
  itoa (at_ ip4 0) +:+ "." +:+ itoa (at_ ip4 1) +:+ "."
    +:+ itoa (at_ ip4 2) +:+ "." +:+ itoa (at_ ip4 3).

(** [ip.String()] *)
Definition String_ (ip : IP) : string :=
  if (length ip =? 0)%nat then "<nil>"
  else if negb (length ip =? IPv4len)%nat && negb (length ip =? IPv6len)%nat
       then "?" +:+ hexString ip
  else match To4 ip with
       | Some p4 => string4 p4
       | None => string6 ip
       end.

End Net.
(** ** Package net/url *)

(** The parser of the Go 1.24 releases, which the images of the
    repository are built with (golang:1.24-alpine). *)
Module Url.

Inductive encoding : Type :=
| encodePath | encodeHost | encodeZone | encodeUserPassword | encodeFragment.

(** [*url.URL]. [User] holds the user name and the optional password. *)
Record URL : Type := mkURL {
  Scheme : string;
  Opaque : string;
  User : option (string * option string);
  Host : string;
  Path : string;
  ForceQuery : bool;
  RawQuery : string;
  Fragment : string
}.

Definition emptyURL : URL := mkURL "" "" None "" "" false "" "".

Definition quote (s : string) : string := Errors.dquote +:+ s +:+ Errors.dquote.

(** [EscapeError] and [InvalidHostError]; the offending text is printed
    between double quotes. *)
Definition EscapeError (s : string) : error :=
  errorString ("invalid URL escape " +:+ quote s).
Definition InvalidHostError (s : string) : error :=
  errorString ("invalid character " +:+ quote s +:+ " in host name").

Definition ishex (c : ascii) : bool :=
  match Net.hex_value c with Some _ => true | None => false end.
Definition unhex (c : ascii) : N :=
  match Net.hex_value c with Some v => v | None => 0%N end.

Definition byte_in (c : ascii) (l : string) : bool := Strs.contains_byte c l.

(** [shouldEscape(c, encodeHost)]: letters, digits, the sub-delimiters
    and the few extra bytes a host may hold are kept; everything else must
    be escaped. *)
Definition shouldEscape_host (c : ascii) : bool :=
  if Strs.is_alpha c || Strs.is_digit c then false
  else if byte_in c "!$&'()*+,;=:[]<>" || Ascii.eqb c (ascii_of_N 34) then false
  else if byte_in c "-_.~" then false
  else true.

(** [unescape(s, mode)] for the modes [url.Parse] uses. A percent sign
    must be followed by two hexadecimal digits; in a host it may only
    encode a byte above 0x7f or the percent sign itself; in a zone it may
    not introduce a byte a host cannot hold, the space apart; a host or a
    zone holds no ASCII byte that must be escaped. No mode here turns a
    plus sign into a space. *)
Fixpoint unescape (s : string) (mode : encoding) : result string :=
  match s with
  | EmptyString => Ok EmptyString
  | String "%" r =>
      match r with
      | String a (String b r') =>
          if negb (ishex a && ishex b)
          then Err (EscapeError (String "%" (String a (String b EmptyString))))
          else
            let esc := String "%" (String a (String b EmptyString)) in
            let v := (unhex a * 16 + unhex b)%N in
            let bad :=
              match mode with
              | encodeHost => (unhex a <? 8)%N && negb (String.eqb esc "%25")
              | encodeZone =>
                  negb (String.eqb esc "%25") && negb (v =? 32)%N
                  && shouldEscape_host (ascii_of_N v)
              | _ => false
              end in
            if bad then Err (EscapeError esc)
            else match unescape r' mode with
                 | Ok t => Ok (String (ascii_of_N v) t)
                 | Err e => Err e
                 end
      | _ => Err (EscapeError s)
      end
  | String c r =>
      let bad :=
        match mode with
        | encodeHost | encodeZone => (N_of_ascii c <? 128)%N && shouldEscape_host c
        | _ => false
        end in
      if bad then Err (InvalidHostError (String c EmptyString))
      else match unescape r mode with
           | Ok t => Ok (String c t)
           | Err e => Err e
           end
  end.

(** [stringContainsCTLByte] *)
Definition stringContainsCTLByte (s : string) : bool :=
  negb (Strs.forall_bytes
          (fun c => negb ((N_of_ascii c <? 32)%N || (N_of_ascii c =? 127)%N)) s).

(** [getScheme]: the loop over the bytes, [i0] telling that the byte is
    the first one; [acc] is the text read so far and [whole] the input. *)
Fixpoint getScheme_loop (s acc whole : string) (i0 : bool)
  : result (string * string) :=
  match s with
  | EmptyString => Ok (EmptyString, whole)
  | String c r =>
      if Strs.is_alpha c then getScheme_loop r (acc +:+ String c EmptyString) whole false
      else if Strs.is_digit c || Ascii.eqb c "+" || Ascii.eqb c "-" || Ascii.eqb c "."
      then if i0 then Ok (EmptyString, whole)
           else getScheme_loop r (acc +:+ String c EmptyString) whole false
      else if Ascii.eqb c ":"
      then if i0 then Err (errorString "missing protocol scheme")
           else Ok (acc, r)
      else Ok (EmptyString, whole)
  end.

Definition getScheme (rawURL : string) : result (string * string) :=
  getScheme_loop rawURL EmptyString rawURL true.

(** [validOptionalPort] *)
Definition validOptionalPort (port : string) : bool :=
  match port with
  | EmptyString => true
  | String c r => Ascii.eqb c ":" && Strs.forall_bytes Strs.is_digit r
  end.

(** [validUserinfo] *)
Definition validUserinfo (s : string) : bool :=
  Strs.forall_bytes
    (fun c => Strs.is_alpha c || Strs.is_digit c || byte_in c "-._:~!$&'()*+,;=%@") s.

(** Index of the first occurrence of a text in another. *)
Definition Index (s sep : string) : option nat := String.index 0 sep s.

(** [parseHost]. A host with an opening bracket is an IP literal: the
    text between the last opening and the last closing bracket, with its
    zone after [%25], must be an IPv6 address as [netip.ParseAddr] reads
    it; only a port may follow the closing bracket. *)
Definition parseHost (host : string) : result string :=
  match Strs.last_index_byte "[" host with
  | Some openBracketIdx =>
      match Strs.last_index_byte "]" host with
      | None => Err (errorString "missing ']' in host")
      | Some closeBracketIdx =>
          let colonPort := Strs.drop (S closeBracketIdx) host in
          if negb (validOptionalPort colonPort)
          then Err (errorString ("invalid port " +:+ quote colonPort +:+ " after host"))
          else
            match unescape colonPort encodeHost with
            | Err e => Err e
            | Ok unescapedColonPort =>
                let hostname :=
                  Strs.take (closeBracketIdx - S openBracketIdx)
                            (Strs.drop (S openBracketIdx) host) in
                match (match Index hostname "%25" with
                       | Some zoneIdx =>
                           match unescape (Strs.take zoneIdx hostname) encodeHost with
                           | Err e => Err e
                           | Ok hostPart =>
                               match unescape (Strs.drop zoneIdx hostname) encodeZone with
                               | Err e => Err e
                               | Ok zonePart => Ok (hostPart +:+ zonePart)
                               end
                           end
                       | None => unescape hostname encodeHost
                       end) with
                | Err e => Err e
                | Ok unescapedHostname =>
                    match Net.ParseAddr unescapedHostname with
                    | Err e => Err (wrapError "invalid host: " e)
                    | Ok addr =>
                        if Net.Is4 addr then Err (errorString "invalid IP-literal")
                        else Ok ("[" +:+ unescapedHostname +:+ "]" +:+ unescapedColonPort)
                    end
                end
            end
      end
  | None =>
      let plain := unescape host encodeHost in
      match Strs.last_index_byte ":" host with
      | Some i =>
          let colonPort := Strs.drop i host in
          if negb (validOptionalPort colonPort)
          then Err (errorString ("invalid port " +:+ quote colonPort +:+ " after host"))
          else plain
      | None => plain
      end
  end.

(** [parseAuthority] *)
Definition parseAuthority (authority : string)
  : result (option (string * option string) * string) :=
  match Strs.last_index_byte "@" authority with
  | None =>
      match parseHost authority with
      | Err e => Err e
      | Ok host => Ok (None, host)
      end
  | Some i =>
      match parseHost (Strs.drop (S i) authority) with
      | Err e => Err e
      | Ok host =>
          let userinfo := Strs.take i authority in
          if negb (validUserinfo userinfo)
          then Err (errorString "net/url: invalid userinfo")
          else if negb (Strs.contains_byte ":" userinfo) then
            match unescape userinfo encodeUserPassword with
            | Err e => Err e
            | Ok u => Ok (Some (u, None), host)
            end
          else
            let '(username, password, _) := Strs.cut_byte ":" userinfo in
            match unescape username encodeUserPassword with
            | Err e => Err e
            | Ok u =>
                match unescape password encodeUserPassword with
                | Err e => Err e
                | Ok pw => Ok (Some (u, Some pw), host)
                end
            end
      end
  end.

(** [parse(rawURL, false)] *)
Definition parse (rawURL : string) : result URL :=
  if stringContainsCTLByte rawURL
  then Err (errorString "net/url: invalid control character in URL")
  else if String.eqb rawURL "*"
  then Ok (mkURL "" "" None "" "*" false "" "")
  else
    match getScheme rawURL with
    | Err e => Err e
    | Ok (scheme0, rest0) =>
        let scheme := Strs.ToLower scheme0 in
        let '(rest, forceQuery, rawQuery) :=
          if Strs.HasSuffix_byte rest0 "?" && (Strs.count_byte "?" rest0 =? 1)%nat
          then (Strs.take (String.length rest0 - 1) rest0, true, EmptyString)
          else let '(b, a, _) := Strs.cut_byte "?" rest0 in (b, false, a) in
        let hier (_ : unit) : result URL :=
          let withAuthority :=
            (negb (String.eqb scheme "") || negb (Strs.HasPrefix rest "///"))
            && Strs.HasPrefix rest "//" in
          let auth :=
            if withAuthority then
              let a := Strs.drop 2 rest in
              match Index a "/" with
              | Some i =>
                  match parseAuthority (Strs.take i a) with
                  | Err e => Err e
                  | Ok (u, h) => Ok (u, h, Strs.drop i a)
                  end
              | None =>
                  match parseAuthority a with
                  | Err e => Err e
                  | Ok (u, h) => Ok (u, h, EmptyString)
                  end
              end
            else Ok (None, EmptyString, rest) in
          match auth with
          | Err e => Err e
          | Ok (user, host, rest') =>
              match unescape rest' encodePath with
              | Err e => Err e
              | Ok path => Ok (mkURL scheme "" user host path forceQuery rawQuery "")
              end
          end in
        if negb (Strs.HasPrefix rest "/") then
          if negb (String.eqb scheme "")
          then Ok (mkURL scheme rest None "" "" forceQuery rawQuery "")
          else
            let '(segment, _, _) := Strs.cut_byte "/" rest in
            if Strs.contains_byte ":" segment
            then Err (errorString "first path segment in URL cannot contain colon")
            else hier tt
        else hier tt
    end.

(** [url.Parse] *)
Definition Parse (rawURL : string) : result URL :=
  let '(u, frag, _) := Strs.cut_byte "#" rawURL in
  match parse u with
  | Err e => Err (urlError "parse" u e)
  | Ok url =>
      if String.eqb frag "" then Ok url
      else match unescape frag encodeFragment with
           | Err e => Err (urlError "parse" rawURL e)
           | Ok f =>
               Ok (mkURL (Scheme url) (Opaque url) (User url) (Host url) (Path url)
                         (ForceQuery url) (RawQuery url) f)
           end
  end.

(** [splitHostPort] and [u.Hostname()] *)
Definition splitHostPort (hostPort : string) : string * string :=
  let '(host, port) :=
    match Strs.last_index_byte ":" hostPort with
    | Some colon =>
        if validOptionalPort (Strs.drop colon hostPort)
        then (Strs.take colon hostPort, Strs.drop (S colon) hostPort)
        else (hostPort, EmptyString)
    | None => (hostPort, EmptyString)
    end in
  if Strs.HasPrefix host "[" && Strs.HasSuffix_byte host "]"
  then (Strs.take (String.length host - 2) (Strs.drop 1 host), port)
  else (host, port).

Definition Hostname (u : URL) : string := fst (splitHostPort (Host u)).

End Url.

(** ** The platform resolver *)

(** The name service the process runs against: for a host name, the
    addresses it resolves to or a failure. *)
Definition Resolver : Type := string -> result (list Net.IP).

(** [net.LookupIP(host)]. A literal address, with or without a zone, is
    returned as it is, in its 16-byte form, without a query; any other
    host is handed to the resolver. *)
Definition LookupIP (resolver : Resolver) (host : string) : result (list Net.IP) :=
  match Net.ParseAddr16 host with
  | Some ip => Ok [ip]
  | None => resolver host
  end.

(** ** internal/validator/ssrf.go *)
Module Validator.

Definition isLocalhost (hostname : string) : bool :=
  let hostname := Strs.ToLower hostname in
  String.eqb hostname "localhost"
  || String.eqb hostname "127.0.0.1"
  || String.eqb hostname "::1"
  || Strs.HasPrefix hostname "127."
  || String.eqb hostname "0.0.0.0"
  || String.eqb hostname "[::]".

Definition privateRanges : list string :=
  [ "10.0.0.0/8";
    "172.16.0.0/12";
    "192.168.0.0/16";
    "169.254.0.0/16";
    "fc00::/7";
    "fe80::/10";
    "::1/128";
    "169.254.0.0/16";
    "100.64.0.0/10" ].

Definition metadataIPs : list string :=
  [ "169.254.169.254"; "fd00:ec2::254" ].

(** The body of the loop over [privateRanges]: a range that does not
    parse is skipped. *)
Definition inRange (ip : Net.IP) (cidr : string) : bool :=
  match Net.ParseCIDR cidr with
  | None => false
  | Some network => Net.Contains network ip
  end.

Definition isPrivateIP (ip : Net.IP) : bool :=
  if Net.IsLoopback ip then true
  else if Net.IsLinkLocalUnicast ip || Net.IsLinkLocalMulticast ip then true
  else if existsb (inRange ip) privateRanges then true
  else if existsb (fun metaIP => String.eqb (Net.String_ ip) metaIP) metadataIPs then true
  else false.

Definition errPrivateIP (ip : Net.IP) : error :=
  errorString ("requests to private IP ranges are not allowed: " +:+ Net.String_ ip).

(** The loop over the resolved addresses: the first private address
    ends the validation when private addresses are not allowed. *)
Fixpoint checkIPs (ips : list Net.IP) (allowPrivateIPs : bool) : option error :=
  match ips with
  | [] => None
  | ip :: rest =>
      if isPrivateIP ip then
        if negb allowPrivateIPs then Some (errPrivateIP ip)
        else checkIPs rest allowPrivateIPs
      else checkIPs rest allowPrivateIPs
  end.

(** [ValidateExecutionURL] with the calls it makes to [net.LookupIP]: the
    first component lists the host names looked up, in order. *)
Definition ValidateExecutionURL_run (resolver : Resolver) (urlStr : string)
    (allowLocalhost allowPrivateIPs : bool) : list string * option error :=
  match Url.Parse urlStr with
  | Err err => ([], Some (wrapError "invalid URL: " err))
  | Ok parsed =>
      let scheme := Strs.ToLower (Url.Scheme parsed) in
      if negb (String.eqb scheme "http") && negb (String.eqb scheme "https")
      then ([], Some (errorString ("unsupported URL scheme: " +:+ Url.Scheme parsed)))
      else
        let hostname := Url.Hostname parsed in
        if String.eqb hostname ""
        then ([], Some (errorString "URL must contain a hostname"))
        else if isLocalhost hostname && negb allowLocalhost
        then ([], Some (errorString "requests to localhost are not allowed"))
        else
          match LookupIP resolver hostname with
          | Err err => ([hostname], Some (wrapError "failed to resolve hostname: " err))
          | Ok ips => ([hostname], checkIPs ips allowPrivateIPs)
          end
  end.

(** The error [ValidateExecutionURL] returns; [None] is nil: the URL is
    allowed. *)
Definition ValidateExecutionURL (resolver : Resolver) (urlStr : string)
    (allowLocalhost allowPrivateIPs : bool) : option error :=
  snd (ValidateExecutionURL_run resolver urlStr allowLocalhost allowPrivateIPs).

Definition lookups (resolver : Resolver) (urlStr : string)
    (allowLocalhost allowPrivateIPs : bool) : list string :=
  fst (ValidateExecutionURL_run resolver urlStr allowLocalhost allowPrivateIPs).

End Validator.

(** ** Package net/http: requests, responses and the redirect loop *)
Module Http.

(** [http.Header]: canonical header name to the list of its values. *)
Abbreviation Header := (gmap string (list string)).

Record Request : Type := mkRequest {
  Method : string;
  URL : string;            (* the text of [req.URL] *)
  ReqHeader : Header;
  Body : option string     (* [None]: no body *)
}.

Record Response : Type := mkResponse {
  StatusCode : Z;
  Status : string;
  RespHeader : Header;
  RespBody : string        (* the bytes the body stream delivers *)
}.

(** [httpguts.IsTokenRune] on a byte *)
Definition isToken (c : ascii) : bool :=
  Strs.is_alpha c || Strs.is_digit c || Url.byte_in c "!#$%&'*+-.^_`|~".

(** [validMethod] *)
Definition validMethod (method : string) : bool :=
  negb (String.eqb method "") && Strs.forall_bytes isToken method.

(** [textproto.CanonicalMIMEHeaderKey]: a key with a byte that is neither
    a token byte nor a space, or with a space, is left as it is; otherwise
    the first letter and every letter after a dash are upper case and the
    others lower case. *)
Fixpoint canon_loop (s : string) (upper : bool) : string :=
  match s with
  | EmptyString => EmptyString
  | String c r =>
      let c' := if upper then Strs.upper_ascii c else Strs.lower_ascii c in
      String c' (canon_loop r (Ascii.eqb c' "-"))
  end.

Definition CanonicalMIMEHeaderKey (k : string) : string :=
  if negb (Strs.forall_bytes (fun c => isToken c || Ascii.eqb c " ") k) then k
  else if Strs.contains_byte " " k then k
  else canon_loop k true.

(** [h.Get(key)] *)
Definition Get (h : Header) (key : string) : string :=
  match h !! CanonicalMIMEHeaderKey key with
  | Some (v :: _) => v
  | _ => ""
  end.

(** [h.Set(key, value)] *)
Definition Set_ (h : Header) (key value : string) : Header :=
  <[CanonicalMIMEHeaderKey key := [value]]> h.

(** [http.NewRequest(method, url, body)]: an empty method means GET, the
    method must be a token and the URL must parse. *)
Definition NewRequest (method url : string) (body : option string) : result Request :=
  let method := if String.eqb method "" then "GET" else method in
  if negb (validMethod method)
  then Err (errorString ("net/http: invalid method " +:+ Url.quote method))
  else match Url.Parse url with
       | Err e => Err e
       | Ok _ => Ok (mkRequest method url ∅ body)
       end.

(** What the process can observe of the network during one call.
    [transport] is [RoundTrip]: it is given the requests already sent
    during the call and the request to send; [resolveReference] is
    [req.URL.Parse(loc)] followed by [String()], the target of a redirect;
    [redirectHeader] gives the headers the client copies to the request
    of a redirect hop. *)
Record Network : Type := mkNetwork {
  transport : list Request -> Request -> result Response;
  resolveReference : string -> string -> result string;
  redirectHeader : list Request -> string -> Header
}.

(** [urlErrorOp]: the method with its first letter in upper case and the
    rest in lower case, [Get] for the empty method. *)
Definition urlErrorOp (method : string) : string :=
  match method with
  | EmptyString => "Get"
  | String c r => String c (Strs.ToLower r)
  end.

(** [redirectBehavior]: the method of the next hop, whether to redirect
    and whether the next hop carries the body of the first request. The
    first request of both engines has a replayable body whenever it has
    one, so the 307/308 case never gives up the redirect. *)
Definition redirectBehavior (reqMethod : string) (resp : Response)
  : string * bool * bool :=
  let code := StatusCode resp in
  if (code =? 301)%Z || (code =? 302)%Z || (code =? 303)%Z then
    (if negb (String.eqb reqMethod "GET") && negb (String.eqb reqMethod "HEAD")
     then "GET" else reqMethod, true, false)
  else if (code =? 307)%Z || (code =? 308)%Z then (reqMethod, true, true)
  else (EmptyString, false, false).

(** [Client.CheckRedirect] *)
Definition CheckRedirect : Type := Request -> list Request -> option error.

(** The loop of [Client.do]. [req] is the request to send and [reqs]
    the requests sent so far. The result lists every request handed to the
    transport, in order, and the outcome of the call; the outcome is
    [None] when the fuel ran out before the loop ended. *)
Fixpoint do_loop (fuel : nat) (net : Network) (check : CheckRedirect)
    (req : Request) (reqs : list Request)
  : list Request * option (result Response) :=
  let reqs' := (reqs ++ [req])%list in
  let op := urlErrorOp (Method (hd req reqs)) in
  match transport net reqs req with
  | Err e => (reqs', Some (Err (urlError op (URL req) e)))
  | Ok resp =>
      let '(redirectMethod, shouldRedirect, includeBody) :=
        redirectBehavior (Method req) resp in
      if negb shouldRedirect then (reqs', Some (Ok resp))
      else
        let loc := Get (RespHeader resp) "Location" in
        if String.eqb loc "" then (reqs', Some (Ok resp))
        else
          match resolveReference net (URL req) loc with
          | Err e =>
              (reqs',
               Some (Err (urlError op (URL req)
                            (errorString ("failed to parse Location header "
                                          +:+ Url.quote loc +:+ ": " +:+ Errors.Error e)))))
          | Ok u =>
              let ireq := hd req reqs in
              let next :=
                mkRequest redirectMethod u (redirectHeader net reqs' u)
                          (if includeBody then Body ireq else None) in
              match check next reqs' with
              | Some err => (reqs', Some (Err (urlError op loc err)))
              | None =>
                  match fuel with
                  | O => (reqs', None)
                  | S fuel' => do_loop fuel' net check next reqs'
                  end
              end
          end
  end.

(** [client.Do(req)] *)
Definition Do (fuel : nat) (net : Network) (check : CheckRedirect) (req : Request)
  : list Request * option (result Response) :=
  do_loop fuel net check req [].

(** [io.ReadAll(io.LimitReader(body, n))]: the first [n] bytes. *)
Definition readLimited (body : string) (n : Z) : string :=
  if (Z.of_nat (String.length body) <=? n)%Z then body
  else Strs.take (Z.to_nat n) body.

(** [%d] of an integer *)
Definition itoa (z : Z) : string :=
  if (z <? 0)%Z then "-" +:+ Net.itoa (Z.to_N (- z)) else Net.itoa (Z.to_N z).

End Http.

(** ** internal/config: the fields the execution path reads *)
Record Config : Type := mkConfig {
  MaxResponseSize : Z;
  MaxRedirects : Z;
  AllowLocalhost : bool;
  AllowPrivateIPs : bool
}.

(** What a call can observe of its surroundings: the name service, the
    network, and [json.Unmarshal] of a stored header column into a list of
    key and value pairs ([None] when it fails). *)
Record World : Type := mkWorld {
  resolver : Resolver;
  network : Http.Network;
  unmarshalHeaders : string -> option (list (string * string))
}.

(** ** internal/models and the store *)
Module Models.

(** [sql.NullString] is modelled by [option string]. *)
Record CollectionItem : Type := mkItem {
  ID : Z;
  Name : string;
  ItemType : string;
  Method : option string;
  URL : option string;
  Headers : option string;
  Body : option string
}.

Record ExecutionResponse : Type := mkExecutionResponse {
  Status : Z;
  RespHeaders : gmap string string;
  RespBody : string;
  DurationMs : Z
}.

End Models.

Module Store.

(** The [allowedMethods] map of CreateItem and UpdateItem; a key that is
    absent reads as false. *)
Definition allowedMethods : gmap string bool :=
  <["GET" := true]> (<["POST" := true]> (<["PUT" := true]>
    (<["PATCH" := true]> (<["DELETE" := true]> ∅)))).

Definition allowed (m : string) : bool :=
  match allowedMethods !! m with
  | Some b => b
  | None => false
  end.

(** The method checks of CreateItem: [Some] is the error kind of the 400
    reply, [None] lets the insert go on. *)
Definition CreateItem_checkMethod (itemType method : string) : option string :=
  if String.eqb itemType "request" then
    if String.eqb method "" then Some "missing_method"
    else if negb (allowed method) then Some "invalid_method"
    else None
  else None.

(** The method check of UpdateItem, on the optional new method. *)
Definition UpdateItem_checkMethod (method : option string) : option string :=
  match method with
  | Some m => if negb (allowed m) then Some "invalid_method" else None
  | None => None
  end.

(** The method check of validateRequest, used when a collection is
    imported: the comparison is made on the upper-case form, the method is
    stored as it was written. *)
Definition validateRequest_checkMethod (method : string) : bool :=
  allowed (Strs.ToUpper method).

(** The CHECK constraint of the [method] column (migration 00002): a row
    is accepted when the method is NULL or one of the five verbs. *)
Definition method_check (method : option string) : bool :=
  match method with
  | None => true
  | Some m =>
      String.eqb m "GET" || String.eqb m "POST" || String.eqb m "PUT"
      || String.eqb m "PATCH" || String.eqb m "DELETE"
  end.

End Store.

(** ** The public service: POST /items/:id/execute *)
Module Handlers.

(** The decoded JSON body of the call, as far as the handler looks into
    it: a value is a string, an object of leaves, or something else. *)
Inductive JLeaf : Type := LeafString (s : string) | LeafOther.
Inductive JValue : Type :=
| JString (s : string)
| JObject (fields : gmap string JLeaf)
| JOther.

(** [ExecutionRequest]: the optional overrides. *)
Record ExecutionRequest : Type := mkExecutionRequest {
  ovURL : option string;
  ovHeaders : option (gmap string string);
  ovBody : option string
}.

(** The extraction of the overrides from the decoded body. *)
Definition extractOverrides (rawBody : gmap string JValue) : ExecutionRequest :=
  mkExecutionRequest
    (match rawBody !! "url" with Some (JString s) => Some s | _ => None end)
    (match rawBody !! "headers" with
     | Some (JObject headersVal) =>
         let headers : gmap string string :=
           omap (fun v => match v with LeafString s => Some s | LeafOther => None end)
                headersVal in
         if (0 <? size headers)%nat then Some headers else None
     | _ => None
     end)
    (match rawBody !! "body" with Some (JString s) => Some s | _ => None end).

(** The redirect policy of the public engine. *)
Definition checkRedirect (w : World) (cfg : Config) : Http.CheckRedirect :=
  fun req via =>
    if (MaxRedirects cfg <=? Z.of_nat (length via))%Z
    then Some (errorString ("stopped after " +:+ Http.itoa (MaxRedirects cfg) +:+ " redirects"))
    else
      match Validator.ValidateExecutionURL (resolver w) (Http.URL req)
              (AllowLocalhost cfg) (AllowPrivateIPs cfg) with
      | Some err => Some (wrapError "redirect blocked: " err)
      | None => None
      end.

Definition supportsBody (method : string) : bool :=
  let methodUpper := Strs.ToUpper method in
  String.eqb methodUpper "POST" || String.eqb methodUpper "PUT"
  || String.eqb methodUpper "PATCH" || String.eqb methodUpper "DELETE".

(** The body reader handed to [http.NewRequest]; [None] is the nil reader. *)
Definition bodyReader (method bodyStr : string) : option string :=
  if negb (String.eqb bodyStr "") && supportsBody method then Some bodyStr else None.

(** The loop that sets the request headers. Go ranges over the map in an
    unspecified order, which matters only when two keys have the same
    canonical form; the order here is that of [map_fold]. *)
Definition setHeaders (headers : gmap string string) (req : Http.Request) : Http.Request :=
  Http.mkRequest (Http.Method req) (Http.URL req)
    (map_fold (fun key value h => Http.Set_ h key value) (Http.ReqHeader req) headers)
    (Http.Body req).

(** The loop that extracts the response headers: the first value of every
    header that has one. *)
Definition responseHeaders (h : Http.Header) : gmap string string :=
  map_fold (fun key values acc =>
              match values with
              | v :: _ => <[key := v]> acc
              | [] => acc
              end) ∅ h.

(** Enough fuel for the redirect loop under the policy of [cfg]: the
    policy stops the loop once [MaxRedirects] requests were sent. *)
Definition fuelFor (maxRedirects : Z) : nat := S (Z.to_nat maxRedirects).

(** [executeHTTPRequest]: the requests handed to the transport and the
    result. *)
Definition executeHTTPRequest (w : World) (cfg : Config)
    (method urlStr : string) (headers : gmap string string) (bodyStr : string)
  : list Http.Request * option (result Models.ExecutionResponse) :=
  match Http.NewRequest method urlStr (bodyReader method bodyStr) with
  | Err err => ([], Some (Err (wrapError "failed to create request: " err)))
  | Ok req0 =>
      let req := setHeaders headers req0 in
      match Http.Do (fuelFor (MaxRedirects cfg)) (network w) (checkRedirect w cfg) req with
      | (sent, None) => (sent, None)
      | (sent, Some (Err err)) => (sent, Some (Err (wrapError "request failed: " err)))
      | (sent, Some (Ok resp)) =>
          (sent,
           Some (Ok (Models.mkExecutionResponse
                       (Http.StatusCode resp)
                       (responseHeaders (Http.RespHeader resp))
                       (Http.readLimited (Http.RespBody resp) (MaxResponseSize cfg))
                       0)))
      end
  end.

(** The outcome of parsing the id and of the query for the item. *)
Inductive Lookup : Type :=
| BadID
| NoRows
| DBError
| Row (item : Models.CollectionItem).

(** [c.JSON(status, ...)]: an error payload or the execution response. *)
Inductive Reply : Type :=
| ReplyError (status : Z) (kind message : string)
| ReplyOK (status : Z) (resp : Models.ExecutionResponse).

(** The arguments of a call to the engine. *)
Record EngineCall : Type := mkEngineCall {
  callMethod : string;
  callURL : string;
  callHeaders : gmap string string;
  callBody : string
}.

(** The part of [ExecuteRequest] before the engine runs: a reply, or the
    call to make. [payload] is [None] when the call has no body, else the
    outcome of decoding it. *)
Definition prepare (w : World) (cfg : Config) (lookup : Lookup)
    (payload : option (result (gmap string JValue))) : Reply + EngineCall :=
  match lookup with
  | BadID => inl (ReplyError 400 "invalid_id" "Item ID must be a valid integer")
  | NoRows => inl (ReplyError 404 "not_found" "Item not found")
  | DBError => inl (ReplyError 500 "database_error" "Failed to fetch item")
  | Row item =>
      if negb (String.eqb (Models.ItemType item) "request")
      then inl (ReplyError 400 "invalid_item_type"
                  "Only items of type 'request' can be executed")
      else
        let decoded :=
          match payload with
          | None => Ok (mkExecutionRequest None None None)
          | Some (Err e) => Err e
          | Some (Ok rawBody) => Ok (extractOverrides rawBody)
          end in
        match decoded with
        | Err e =>
            inl (ReplyError 400 "invalid_request"
                   ("Invalid request body: " +:+ Errors.Error e))
        | Ok execReq =>
            match Models.Method item with
            | None => inl (ReplyError 400 "invalid_request" "Request is missing method")
            | Some method =>
                let urlStr :=
                  match ovURL execReq with
                  | Some u => u
                  | None => match Models.URL item with Some u => u | None => "" end
                  end in
                if String.eqb urlStr ""
                then inl (ReplyError 400 "invalid_request"
                            "Request URL is missing. Provide URL in request body or ensure item has a URL.")
                else
                  match Validator.ValidateExecutionURL (resolver w) urlStr
                          (AllowLocalhost cfg) (AllowPrivateIPs cfg) with
                  | Some err =>
                      inl (ReplyError 403 "ssrf_protection"
                             ("URL blocked by SSRF protection: " +:+ Errors.Error err))
                  | None =>
                      let headers : gmap string string :=
                        match ovHeaders execReq with
                        | Some h => h
                        | None =>
                            match Models.Headers item with
                            | Some hs =>
                                if String.eqb hs "" then ∅
                                else match unmarshalHeaders w hs with
                                     | Some l =>
                                         fold_left (fun acc kv => <[fst kv := snd kv]> acc) l ∅
                                     | None => ∅
                                     end
                            | None => ∅
                            end
                        end in
                      let body :=
                        match ovBody execReq with
                        | Some b => b
                        | None => match Models.Body item with Some b => b | None => "" end
                        end in
                      inr (mkEngineCall method urlStr headers body)
                  end
            end
        end
  end.

(** [ExecuteRequest]: the requests handed to the transport during the
    call and the reply. [durationMs] is the measured duration. *)
Definition ExecuteRequest (w : World) (cfg : Config) (lookup : Lookup)
    (payload : option (result (gmap string JValue))) (durationMs : Z)
  : list Http.Request * option Reply :=
  match prepare w cfg lookup payload with
  | inl reply => ([], Some reply)
  | inr call =>
      match executeHTTPRequest w cfg (callMethod call) (callURL call)
              (callHeaders call) (callBody call) with
      | (sent, None) => (sent, None)
      | (sent, Some (Err err)) =>
          (sent, Some (ReplyError 502 "execution_error"
                         ("Failed to execute request: " +:+ Errors.Error err)))
      | (sent, Some (Ok response)) =>
          (sent, Some (ReplyOK 200
                         (Models.mkExecutionResponse
                            (Models.Status response) (Models.RespHeaders response)
                            (Models.RespBody response) durationMs)))
      end
  end.

End Handlers.

(** ** The local agent: POST /execute *)
Module Agent.

Definition MaxResponseSize : Z := 50 * 1024 * 1024.
Definition MaxRedirects : Z := 5.

(** [ExecuteRequest]: the payload of the call. *)
Record ExecuteRequest : Type := mkExecuteRequest {
  Method : string;
  URL : string;
  Headers : gmap string string;
  Body : string
}.

(** [TimingInfo]; the times are clock readings in nanoseconds. *)
Record TimingInfo : Type := mkTimingInfo {
  StartTime : Z;
  EndTime : Z;
  Duration : Z
}.

Record ExecuteResponse : Type := mkExecuteResponse {
  Status : Z;
  StatusText : string;
  RespHeaders : gmap string (list string);
  RespBody : string;
  Timing : TimingInfo;
  Error : string
}.

(** The redirect policy of the agent: the hop limit only. *)
Definition checkRedirect : Http.CheckRedirect :=
  fun req via =>
    if (MaxRedirects <=? Z.of_nat (length via))%Z
    then Some (errorString ("stopped after " +:+ Http.itoa MaxRedirects +:+ " redirects"))
    else None.

Definition supportsBody (method : string) : bool :=
  let methodUpper := Strs.ToUpper method in
  String.eqb methodUpper "POST" || String.eqb methodUpper "PUT"
  || String.eqb methodUpper "PATCH" || String.eqb methodUpper "DELETE".

Definition bodyReader (execReq : ExecuteRequest) : option string :=
  if negb (String.eqb (Body execReq) "") && supportsBody (Method execReq)
  then Some (Body execReq) else None.

(** The loop that extracts the response headers: every header with all
    its values. *)
Definition responseHeaders (h : Http.Header) : gmap string (list string) :=
  map_fold (fun key values acc => <[key := values]> acc) ∅ h.

(** [executeHTTPRequest]: the requests handed to the transport and the
    result. [startTime] and [endTime] are the two readings of the clock. *)
Definition executeHTTPRequest (net : Http.Network) (execReq : ExecuteRequest)
    (startTime endTime : Z)
  : list Http.Request * option (result ExecuteResponse) :=
  match Http.NewRequest (Method execReq) (URL execReq) (bodyReader execReq) with
  | Err err => ([], Some (Err (wrapError "failed to create request: " err)))
  | Ok req0 =>
      let req := Handlers.setHeaders (Headers execReq) req0 in
      match Http.Do (Handlers.fuelFor MaxRedirects) net checkRedirect req with
      | (sent, None) => (sent, None)
      | (sent, Some (Err err)) => (sent, Some (Err (wrapError "request failed: " err)))
      | (sent, Some (Ok resp)) =>
          (sent,
           Some (Ok (mkExecuteResponse
                       (Http.StatusCode resp)
                       (Http.Status resp)
                       (responseHeaders (Http.RespHeader resp))
                       (Http.readLimited (Http.RespBody resp) MaxResponseSize)
                       (mkTimingInfo startTime endTime
                          (Z.quot (endTime - startTime) 1000000))
                       "")))
      end
  end.

(** What the handler writes: the 400 reply of a rejected payload, or a
    200 reply with an [ExecuteResponse]. *)
Inductive Reply : Type :=
| ReplyBadRequest (message : string)
| ReplyOK (resp : ExecuteResponse).

Definition emptyResponse (err : string) : ExecuteResponse :=
  mkExecuteResponse 0 "" ∅ "" (mkTimingInfo 0 0 0) err.

(** The error of the validation that follows the decoding: one line for
    each required field that is empty, in the order of the struct, as the
    validator of gin prints them. *)
Definition fieldError (field : string) : string :=
  "Key: 'ExecuteRequest." +:+ field +:+ "' Error:Field validation for '" +:+ field
    +:+ "' failed on the 'required' tag".

Definition validationError (req : ExecuteRequest) : string :=
  match String.eqb (Method req) "", String.eqb (URL req) "" with
  | true, true =>
      fieldError "Method" +:+ String (ascii_of_N 10) EmptyString +:+ fieldError "URL"
  | true, false => fieldError "Method"
  | false, true => fieldError "URL"
  | false, false => EmptyString
  end.

(** [executeHandler]. [decoded] is the outcome of decoding the JSON
    payload; the binding then requires a method and a URL that are not
    empty. *)
Definition executeHandler (net : Http.Network) (decoded : result ExecuteRequest)
    (startTime endTime : Z) : list Http.Request * option Reply :=
  match decoded with
  | Err e => ([], Some (ReplyBadRequest ("Invalid request: " +:+ Errors.Error e)))
  | Ok req =>
      if String.eqb (Method req) "" || String.eqb (URL req) ""
      then ([], Some (ReplyBadRequest ("Invalid request: " +:+ validationError req)))
      else
        match executeHTTPRequest net req startTime endTime with
        | (sent, None) => (sent, None)
        | (sent, Some (Err err)) => (sent, Some (ReplyOK (emptyResponse (Errors.Error err))))
        | (sent, Some (Ok response)) => (sent, Some (ReplyOK response))
        end
  end.

End Agent.

(** ** internal/models: the Postman collection *)
Module Postman.

Record PostmanHeader : Type := mkPostmanHeader { Key : string; Value : string }.

Record PostmanBody : Type := mkPostmanBody { Mode : string; Raw : string }.

(** The [URL] field of a request is an [interface{}]: after decoding it is
    nil, a string, an object, or something else. *)
Inductive URLData : Type :=
| URLNil
| URLString (s : string)
| URLObject (fields : gmap string Handlers.JValue)
| URLOther.

Record PostmanRequest : Type := mkPostmanRequest {
  Method : string;
  Header : list PostmanHeader;
  Body : option PostmanBody;
  URL : URLData
}.

(** [PostmanItem]: a name, the items of a folder and the request of a
    request item. *)
#[warnings="-register-all"]
Inductive PostmanItem : Type :=
| mkPostmanItem (name : string) (item : list PostmanItem) (request : option PostmanRequest).

Definition Name (i : PostmanItem) : string :=
  match i with mkPostmanItem n _ _ => n end.
Definition Item (i : PostmanItem) : list PostmanItem :=
  match i with mkPostmanItem _ l _ => l end.
Definition Request (i : PostmanItem) : option PostmanRequest :=
  match i with mkPostmanItem _ _ r => r end.

Record PostmanInfo : Type := mkPostmanInfo {
  InfoName : string;
  Description : string;
  Schema : string
}.

Record PostmanCollection : Type := mkPostmanCollection {
  Info : PostmanInfo;
  Items : list PostmanItem
}.

End Postman.

(** ** internal/validator: the validation of an uploaded collection *)
Module PostmanValidator.
Import Postman.

Definition validSchemas : list string :=
  [ "https://schema.getpostman.com/json/collection/v2.0.0/collection.json";
    "https://schema.getpostman.com/json/collection/v2.1.0/collection.json";
    "https://schema.getpostman.com/json/collection/v2.0";
    "https://schema.getpostman.com/json/collection/v2.1" ].

Definition isValidSchema (schema : string) : bool :=
  existsb (fun valid => String.eqb schema valid) validSchemas.

(** [extractURL] of the validator: the text of the URL or an error. *)
Definition extractURL (urlData : URLData) : result string :=
  match urlData with
  | URLString v => Ok v
  | URLObject v =>
      match v !! "raw" with
      | Some (Handlers.JString raw) => Ok raw
      | _ => Err (errorString "URL object missing 'raw' field")
      end
  | _ => Err (errorString "invalid URL type")
  end.

(** [strings.Contains]. *)
Fixpoint Contains (s substr : string) : bool :=
  String.prefix substr s
  || match s with
     | EmptyString => false
     | String _ r => Contains r substr
     end.

Definition validateURL (urlStr : string) : option error :=
  if String.eqb urlStr "" then Some (errorString "URL cannot be empty")
  else if Contains urlStr "{{" && Contains urlStr "}}" then None
  else
    match Url.Parse urlStr with
    | Err err => Some (wrapError "invalid URL format: " err)
    | Ok parsed =>
        let scheme := Strs.ToLower (Url.Scheme parsed) in
        if negb (String.eqb scheme "http") && negb (String.eqb scheme "https")
        then Some (errorString ("unsupported URL scheme: " +:+ Url.Scheme parsed
                                +:+ " (only http and https are allowed)"))
        else None
    end.

Definition validateRequest (req : PostmanRequest) (maxHeaderCount : Z) : option error :=
  if negb (Store.validateRequest_checkMethod (Method req))
  then Some (errorString ("unsupported HTTP method: " +:+ Method req
                          +:+ " (allowed: GET, POST, PUT, PATCH, DELETE)"))
  else
    let urlStr := match extractURL (URL req) with Ok u => u | Err _ => "" end in
    match (if negb (String.eqb urlStr "") then validateURL urlStr else None) with
    | Some err => Some err
    | None =>
        if (maxHeaderCount <? Z.of_nat (length (Header req)))%Z
        then Some (errorString ("request has " +:+ Http.itoa (Z.of_nat (length (Header req)))
                                +:+ " headers, exceeding limit of "
                                +:+ Http.itoa maxHeaderCount))
        else None
    end.

(** A loop that returns the first error. *)
Fixpoint firstError {A : Type} (f : A -> option error) (l : list A) : option error :=
  match l with
  | [] => None
  | x :: rest =>
      match f x with
      | Some err => Some err
      | None => firstError f rest
      end
  end.

(** The body of the loop of [validateItems]: a folder is validated through
    its items, a request item through its request, anything else passes. *)
Fixpoint validateItem (maxHeaderCount : Z) (item : PostmanItem) : option error :=
  match item with
  | mkPostmanItem name children request =>
      match children with
      | _ :: _ => firstError (validateItem maxHeaderCount) children
      | [] =>
          match request with
          | Some req =>
              match validateRequest req maxHeaderCount with
              | Some err => Some (wrapError ("invalid request '" +:+ name +:+ "': ") err)
              | None => None
              end
          | None => None
          end
      end
  end.

Definition validateItems (items : list PostmanItem) (maxHeaderCount : Z) : option error :=
  firstError (validateItem maxHeaderCount) items.

(** [ValidatePostmanCollection]. [unmarshal] is [json.Unmarshal] into a
    [PostmanCollection]. *)
Definition ValidatePostmanCollection (unmarshal : string -> result PostmanCollection)
    (data : string) (maxRequestSize maxHeaderCount : Z) : result PostmanCollection :=
  if (maxRequestSize <? Z.of_nat (String.length data))%Z
  then Err (errorString ("collection JSON exceeds maximum size of "
                         +:+ Http.itoa maxRequestSize +:+ " bytes"))
  else
    match unmarshal data with
    | Err err => Err (wrapError "invalid JSON format: " err)
    | Ok collection =>
        if negb (isValidSchema (Schema (Info collection)))
        then Err (errorString ("unsupported Postman schema version: "
                               +:+ Schema (Info collection)
                               +:+ " (only v2.0 and v2.1 are supported)"))
        else if (length (Items collection) =? 0)%nat
        then Err (errorString "collection must contain at least one item")
        else
          match validateItems (Items collection) maxHeaderCount with
          | Some err => Err err
          | None => Ok collection
          end
    end.

End PostmanValidator.

(** ** The words of the specification *)

(** The addresses and the ranges the specification names, stated on the
    numeric value of an address rather than on its bytes. *)
Module Spec.

(** An IPv4 address as a 32-bit number or an IPv6 address as a 128-bit
    number. *)
Inductive Addr : Type :=
| V4 (n : N)
| V6 (n : N).

(** Big-endian value of a byte sequence. *)
Definition be_value (bs : list byte) : N :=
  fold_left (fun acc b => acc * 256 + Byte.to_N b)%N bs 0%N.

(** The address a [net.IP] stands for: four bytes, or sixteen bytes that
    begin with the prefix of an IPv4-mapped address, are an IPv4 address;
    any other sixteen bytes are an IPv6 address. *)
Definition addr_of_IP (ip : Net.IP) : option Addr :=
  if (length ip =? 4)%nat then Some (V4 (be_value ip))
  else if (length ip =? 16)%nat then
    if Net.bytes_eqb (take 12 ip) Net.v4InV6Prefix
    then Some (V4 (be_value (drop 12 ip)))
    else Some (V6 (be_value ip))
  else None.

(** The number of the dotted quad [a.b.c.d]. *)
Definition quad (a b c d : N) : N := (((a * 256 + b) * 256 + c) * 256 + d)%N.

(** The number of an IPv6 address given by its eight groups. *)
Definition groups (gs : list N) : N :=
  fold_left (fun acc g => acc * 65536 + g)%N gs 0%N.

(** [n] lies in the block of [bits]-bit addresses that starts at [base]
    and fixes the first [len] bits. *)
Definition in_cidr (bits base len n : N) : Prop :=
  (base <= n /\ n < base + 2 ^ (bits - len))%N.

(** 127.0.0.0/8, 10.0.0.0/8, 172.16.0.0/12, 192.168.0.0/16,
    169.254.0.0/16, ::1, fc00::/7 and fe80::/10. *)
Definition listed (a : Addr) : Prop :=
  match a with
  | V4 n =>
      in_cidr 32 (quad 127 0 0 0) 8 n
      \/ in_cidr 32 (quad 10 0 0 0) 8 n
      \/ in_cidr 32 (quad 172 16 0 0) 12 n
      \/ in_cidr 32 (quad 192 168 0 0) 16 n
      \/ in_cidr 32 (quad 169 254 0 0) 16 n
  | V6 n =>
      n = 1%N
      \/ in_cidr 128 (groups [0xfc00; 0; 0; 0; 0; 0; 0; 0]%N) 7 n
      \/ in_cidr 128 (groups [0xfe80; 0; 0; 0; 0; 0; 0; 0]%N) 10 n
  end.

(** The address of a [net.IP] lies in one of the ranges. *)
Definition in_listed_ranges (ip : Net.IP) : Prop :=
  exists a, addr_of_IP ip = Some a /\ listed a.

(** The names the specification lists as localhost aliases. *)
Definition localhost_alias (hostname : string) : Prop :=
  hostname = "localhost"
  \/ hostname = "127.0.0.1"
  \/ hostname = "::1"
  \/ (exists rest, hostname = "127." +:+ rest)
  \/ hostname = "0.0.0.0"
  \/ hostname = "[::]".

(** The scheme of the URL is http or https, without regard to case. *)
Definition scheme_accepted (parsed : Url.URL) : Prop :=
  Strs.ToLower (Url.Scheme parsed) = "http" \/ Strs.ToLower (Url.Scheme parsed) = "https".

(** The number of redirect hops followed in a call, given the requests
    handed to the transport: every request after the first. *)
Definition redirects_followed (sent : list Http.Request) : nat :=
  pred (length sent).

(** The values an execute response gives for a header name when it holds
    one string per name. *)
Definition single_values (h : gmap string string) (name : string) : list string :=
  match h !! name with
  | Some v => [v]
  | None => []
  end.

(** All the values of a header of an HTTP response, in order. *)
Definition all_values (h : Http.Header) (name : string) : list string :=
  match h !! name with
  | Some vs => vs
  | None => []
  end.

(** The validator allows the URL under the flags of the configuration. *)
Definition allowed_url (w : World) (cfg : Config) (url : string) : Prop :=
  Validator.ValidateExecutionURL (resolver w) url (AllowLocalhost cfg) (AllowPrivateIPs cfg)
  = None.

(** A target that keeps redirecting: each of the first [n] requests of
    a call is answered with a redirect whose target resolves and is [good]. *)
Definition always_redirects (net : Http.Network) (n : nat) (good : string -> Prop) : Prop :=
  forall reqs req,
    (length reqs < n)%nat ->
    exists resp m ib u,
      Http.transport net reqs req = Ok resp
      /\ Http.redirectBehavior (Http.Method req) resp = (m, true, ib)
      /\ Http.Get (Http.RespHeader resp) "Location" <> ""
      /\ Http.resolveReference net (Http.URL req)
           (Http.Get (Http.RespHeader resp) "Location") = Ok u
      /\ good u.

(** The five verbs of the specification. *)
Definition five_verbs (m : string) : Prop :=
  m = "GET" \/ m = "POST" \/ m = "PUT" \/ m = "PATCH" \/ m = "DELETE".

End Spec.

(** ** A small world to run the definitions in *)
Module Examples.

(** A name service that knows three names. *)
Definition example_resolver : Resolver :=
  fun host =>
    if String.eqb host "localhost" then Ok [Net.IPv4 127 0 0 1]
    else if String.eqb host "intranet.example" then Ok [Net.IPv4 10 0 0 5]
    else if String.eqb host "example.com" then Ok [Net.IPv4 93 184 216 34]
    else Err (errorString "no such host").

(** A target that issues six redirects in a row: the first six requests
    of a call are answered with a 302 to the next of [/r1] to [/r6], and
    the seventh with a page. *)
Definition locations : list string :=
  [ "http://example.com/r1"; "http://example.com/r2"; "http://example.com/r3";
    "http://example.com/r4"; "http://example.com/r5"; "http://example.com/r6" ].

Definition page : Http.Response :=
  Http.mkResponse 200 "200 OK"
    (<["Set-Cookie" := ["a=1"; "b=2"]]> (<["Content-Type" := ["text/plain"]]> ∅))
    "done".

Definition redirect_to (loc : string) : Http.Response :=
  Http.mkResponse 302 "302 Found" (<["Location" := [loc]]> ∅) "".

Definition six_redirects : Http.Network :=
  Http.mkNetwork
    (fun reqs _ =>
       match nth_error locations (length reqs) with
       | Some loc => Ok (redirect_to loc)
       | None => Ok page
       end)
    (fun _ loc => Ok loc)
    (fun _ _ => ∅).

(** A server that answers every request with the same page. *)
Definition one_page : Http.Network :=
  Http.mkNetwork (fun _ _ => Ok page) (fun _ loc => Ok loc) (fun _ _ => ∅).

(** A server whose second redirect points into a private network. *)
Definition to_private : Http.Network :=
  Http.mkNetwork
    (fun _ req =>
       if String.eqb (Http.URL req) "http://example.com/r0"
       then Ok (redirect_to "http://example.com/r1")
       else if String.eqb (Http.URL req) "http://example.com/r1"
       then Ok (redirect_to "http://10.0.0.5/")
       else Ok page)
    (fun _ loc => Ok loc)
    (fun _ _ => ∅).

Definition example_world (net : Http.Network) : World :=
  mkWorld example_resolver net (fun _ => None).

(** The strict policy, with the default limits. *)
Definition strict : Config := mkConfig 52428800 5 false false.

(** A stored request item. *)
Definition item_of (method url : string) : Models.CollectionItem :=
  Models.mkItem 1 "item" "request" (Some method) (Some url) None None.

End Examples.

(** ** Package strconv: decimal integers *)
Module Strconv.

Inductive NumErr : Type := ErrSyntax | ErrRange.

(** The text of a [NumError]; [quote] is [strconv.Quote]. *)
Definition numError (quote : string -> string) (fn num : string) (e : NumErr) : error :=
  errorString ("strconv." +:+ fn +:+ ": parsing " +:+ quote num +:+ ": "
               +:+ match e with
                   | ErrSyntax => "invalid syntax"
                   | ErrRange => "value out of range"
                   end).

Definition maxUint64 : N := 18446744073709551615.

(** The loop of [ParseUint] in base 10 for 64 bits: a byte that is not a digit
    is a syntax error, and an overflow is reported where it happens. *)
Fixpoint parseUint_loop (s : string) (n : N) : NumErr + N :=
  match s with
  | EmptyString => inr n
  | String c rest =>
      let c := N_of_ascii c in
      if ((48 <=? c) && (c <=? 57))%N then
        let d := (c - 48)%N in
        if (maxUint64 / 10 + 1 <=? n)%N then inl ErrRange
        else
          let n1 := (n * 10 + d)%N in
          if (maxUint64 <? n1)%N then inl ErrRange
          else parseUint_loop rest n1
      else inl ErrSyntax
  end.

Definition ParseUint (s : string) : NumErr + N :=
  if String.eqb s "" then inl ErrSyntax else parseUint_loop s 0.

(** [ParseInt(s, 10, 64)], with the function name that its error carries. *)
Definition parseInt (s : string) : NumErr + Z :=
  match s with
  | EmptyString => inl ErrSyntax
  | String c rest =>
      let neg := Ascii.eqb c "-" in
      let s1 := if Ascii.eqb c "+" || neg then rest else s in
      match ParseUint s1 with
      | inl ErrSyntax => inl ErrSyntax
      | inl ErrRange => inl ErrRange
      | inr un =>
          let cutoff := (2 ^ 63)%N in
          if negb neg && (cutoff <=? un)%N then inl ErrRange
          else if neg && (cutoff <? un)%N then inl ErrRange
          else inr (if neg then (- Z.of_N un)%Z else Z.of_N un)
      end
  end.

Definition ParseInt (quote : string -> string) (s : string) : result Z :=
  match parseInt s with
  | inl e => Err (numError quote "ParseInt" s e)
  | inr n => Ok n
  end.

(** The digits of the fast path of [Atoi]. *)
Fixpoint atoi_loop (s : string) (n : Z) : option Z :=
  match s with
  | EmptyString => Some n
  | String c rest =>
      let c := N_of_ascii c in
      if ((48 <=? c) && (c <=? 57))%N
      then atoi_loop rest (n * 10 + Z.of_N (c - 48))%Z
      else None
  end.

(** [Atoi], with an [int] of 64 bits: a fast path for short texts, and
    [ParseInt] for the others. *)
Definition Atoi (quote : string -> string) (s : string) : result Z :=
  let sLen := String.length s in
  if ((0 <? sLen) && (sLen <? 19))%nat then
    match s with
    | EmptyString => Err (numError quote "Atoi" s ErrSyntax)
    | String c rest =>
        let signed := Ascii.eqb c "-" || Ascii.eqb c "+" in
        let s1 := if signed then rest else s in
        if signed && (String.length s1 <? 1)%nat
        then Err (numError quote "Atoi" s ErrSyntax)
        else
          match atoi_loop s1 0 with
          | None => Err (numError quote "Atoi" s ErrSyntax)
          | Some n => Ok (if Ascii.eqb c "-" then (- n)%Z else n)
          end
    end
  else
    match parseInt s with
    | inl e => Err (numError quote "Atoi" s e)
    | inr n => Ok n
    end.

End Strconv.

(** ** internal/config: the settings read from the environment *)
Module Configuration.

(** The [Config] struct with all its fields. *)
Record Settings : Type := mkSettings {
  DBHost : string;
  DBPort : string;
  DBUser : string;
  DBPassword : string;
  DBName : string;
  DBSSLMode : string;
  Port : string;
  RequestTimeout : Z;
  MaxRequestSize : Z;
  MaxResponseSize : Z;
  MaxHeaderCount : Z;
  MaxRedirects : Z;
  RateLimitRPS : Z;
  RateLimitBurst : Z;
  AllowLocalhost : bool;
  AllowPrivateIPs : bool
}.

(** What the standard library does for [Load]: [parseDuration] is
    [time.ParseDuration], in nanoseconds, and [quote] is [strconv.Quote]. *)
Record Library : Type := mkLibrary {
  parseDuration : string -> result Z;
  quote : string -> string
}.

(** [getEnv]. The environment is [os.Getenv]: the value of a variable, empty
    when it is not set. *)
Definition getEnv (env : string -> string) (key defaultValue : string) : string :=
  if negb (String.eqb (env key) "") then env key else defaultValue.

(** [Load], on the environment as it is once the .env file was read. *)
Definition Load (lib : Library) (env : string -> string) : result Settings :=
  match parseDuration lib (getEnv env "REQUEST_TIMEOUT" "30s") with
  | Err err => Err (wrapError "invalid REQUEST_TIMEOUT: " err)
  | Ok requestTimeout =>
  match Strconv.ParseInt (quote lib) (getEnv env "MAX_REQUEST_SIZE" "10485760") with
  | Err err => Err (wrapError "invalid MAX_REQUEST_SIZE: " err)
  | Ok maxRequestSize =>
  match Strconv.ParseInt (quote lib) (getEnv env "MAX_RESPONSE_SIZE" "52428800") with
  | Err err => Err (wrapError "invalid MAX_RESPONSE_SIZE: " err)
  | Ok maxResponseSize =>
  match Strconv.Atoi (quote lib) (getEnv env "MAX_HEADER_COUNT" "50") with
  | Err err => Err (wrapError "invalid MAX_HEADER_COUNT: " err)
  | Ok maxHeaderCount =>
  match Strconv.Atoi (quote lib) (getEnv env "MAX_REDIRECTS" "5") with
  | Err err => Err (wrapError "invalid MAX_REDIRECTS: " err)
  | Ok maxRedirects =>
  match Strconv.Atoi (quote lib) (getEnv env "RATE_LIMIT_RPS" "1000") with
  | Err err => Err (wrapError "invalid RATE_LIMIT_RPS: " err)
  | Ok rateLimitRPS =>
  let burst := Strconv.Atoi (quote lib) (getEnv env "RATE_LIMIT_BURST" "2000") in
  let allowLocalhost := String.eqb (getEnv env "ALLOW_LOCALHOST" "true") "true" in
  let allowPrivateIPs := String.eqb (getEnv env "ALLOW_PRIVATE_IPS" "true") "true" in
  match burst with
  | Err err => Err (wrapError "invalid RATE_LIMIT_BURST: " err)
  | Ok rateLimitBurst =>
      Ok (mkSettings
            (getEnv env "DB_HOST" "localhost")
            (getEnv env "DB_PORT" "5432")
            (getEnv env "DB_USER" "dev")
            (getEnv env "DB_PASSWORD" "localdb")
            (getEnv env "DB_NAME" "karikatokdevdb")
            (getEnv env "DB_SSLMODE" "disable")
            (getEnv env "PORT" "8080")
            requestTimeout maxRequestSize maxResponseSize maxHeaderCount
            maxRedirects rateLimitRPS rateLimitBurst
            allowLocalhost allowPrivateIPs)
  end end end end end end end.

(** [DatabaseURL]. *)
Definition DatabaseURL (c : Settings) : string :=
  "postgres://" +:+ DBUser c +:+ ":" +:+ DBPassword c +:+ "@" +:+ DBHost c
    +:+ ":" +:+ DBPort c +:+ "/" +:+ DBName c +:+ "?sslmode=" +:+ DBSSLMode c.

(** The fields that the execution handler reads. *)
Definition execution (c : Settings) : Config :=
  mkConfig (MaxResponseSize c) (MaxRedirects c) (AllowLocalhost c) (AllowPrivateIPs c).

End Configuration.

(** ** The item handler: UpdateItem and CreateItem *)
Module Items.

(** [models.ExtractionRule]. *)
Record ExtractionRule : Type := mkExtractionRule {
  Enabled : bool;
  JSONPath : string;
  VariableName : string
}.

(** [UpdateItemRequest]: every field is a pointer, nil when the field is
    absent from the JSON. *)
Record UpdateItemRequest : Type := mkUpdateItemRequest {
  Name : option string;
  Method : option string;
  URL : option string;
  Headers : option (list Postman.PostmanHeader);
  Body : option string;
  ExtractionRules : option (list ExtractionRule)
}.

(** An argument of a query. *)
Inductive Arg : Type :=
| ArgString (s : string)
| ArgInt (n : Z).

(** The answer to [SELECT item_type FROM collection_items WHERE id = $1]. *)
Inductive TypeLookup : Type :=
| TypeNoRows
| TypeError
| TypeFound (itemType : string).

(** What the handler calls: the JSON library, [strconv.Quote] and the
    database. *)
Record Services : Type := mkServices {
  unmarshal : string -> result UpdateItemRequest;
  marshalHeaders : list Postman.PostmanHeader -> result string;
  marshalRules : list ExtractionRule -> result string;
  quote : string -> string;
  selectType : Z -> TypeLookup;
  exec : string -> list Arg -> option error
}.

Inductive Reply : Type :=
| ReplyError (status : Z) (kind message : string)
| ReplyOK (status : Z) (message : string).

(** The three variables of the query builder. *)
Record Builder : Type := mkBuilder {
  updates : list string;
  args : list Arg;
  argCount : Z
}.

(** One provided field: [updates = append(updates, column + " = $" +
    Itoa(argCount))], [args = append(args, value)], [argCount++]. *)
Definition addUpdate (column value : string) (b : Builder) : Builder :=
  mkBuilder (updates b ++ [column +:+ " = $" +:+ Http.itoa (argCount b)])%list
            (args b ++ [ArgString value])%list
            (argCount b + 1)%Z.

Definition addField (column : string) (field : option string) (b : Builder) : Builder :=
  match field with
  | Some value => addUpdate column value b
  | None => b
  end.

(** The query text: the first update, then the others after a comma, then
    the WHERE clause. *)
Definition queryText (updates : list string) (argCount : Z) : string :=
  match updates with
  | [] => ""
  | first :: others =>
      fold_left (fun query u => query +:+ ", " +:+ u) others
                ("UPDATE collection_items SET " +:+ first)
        +:+ " WHERE id = $" +:+ Http.itoa argCount
  end.

(** [UpdateItem]: the query that was executed, if any, with its arguments,
    and the reply. [idParam] is the id of the path and [body] what reading
    the request body gave. *)
Definition UpdateItem (sv : Services) (maxRequestSize : Z) (idParam : string)
    (body : result string) : option (string * list Arg) * Reply :=
  match Strconv.Atoi (quote sv) idParam with
  | Err _ => (None, ReplyError 400 "invalid_id" "Item ID must be a valid integer")
  | Ok itemID =>
  match body with
  | Err _ => (None, ReplyError 400 "read_error" "Failed to read request body")
  | Ok body =>
  match unmarshal sv (Http.readLimited body maxRequestSize) with
  | Err _ => (None, ReplyError 400 "invalid_json" "Invalid JSON format")
  | Ok updateReq =>
  match selectType sv itemID with
  | TypeNoRows => (None, ReplyError 404 "not_found" "Item not found")
  | TypeError => (None, ReplyError 500 "database_error" "Failed to fetch item")
  | TypeFound itemType =>
  if negb (String.eqb itemType "request")
  then (None, ReplyError 400 "invalid_item_type"
                "Only items of type 'request' can be updated with this endpoint")
  else
  match Store.UpdateItem_checkMethod (Method updateReq) with
  | Some kind => (None, ReplyError 400 kind
                          "Method must be one of: GET, POST, PUT, PATCH, DELETE")
  | None =>
    let b := mkBuilder [] [] 1 in
    let b := addField "name" (Name updateReq) b in
    let b := addField "method" (Method updateReq) b in
    let b := addField "url" (URL updateReq) b in
    match (match Headers updateReq with
           | Some h =>
               match marshalHeaders sv h with
               | Err _ => None
               | Ok headersJSON => Some (addUpdate "headers" headersJSON b)
               end
           | None => Some b
           end) with
    | None => (None, ReplyError 400 "invalid_headers" "Failed to serialize headers")
    | Some b =>
    let b := addField "body" (Body updateReq) b in
    match (match ExtractionRules updateReq with
           | Some r =>
               match marshalRules sv r with
               | Err _ => None
               | Ok rulesJSON => Some (addUpdate "extraction_rules" rulesJSON b)
               end
           | None => Some b
           end) with
    | None => (None, ReplyError 400 "invalid_extraction_rules"
                       "Failed to serialize extraction_rules")
    | Some b =>
    if (length (updates b) =? 0)%nat
    then (None, ReplyError 400 "no_updates" "No fields provided to update")
    else
      let updates := (updates b ++ ["updated_at = NOW()"])%list in
      let args := (args b ++ [ArgInt itemID])%list in
      let query := queryText updates (argCount b) in
      match exec sv query args with
      | Some _ => (Some (query, args), ReplyError 500 "database_error" "Failed to update item")
      | None => (Some (query, args), ReplyOK 200 "Item updated successfully")
      end
    end end
  end end end end end.

(** [CreateItemRequest]. *)
Record CreateItemRequest : Type := mkCreateItemRequest {
  NewName : string;
  NewItemType : string;
  NewParentID : option Z;
  NewMethod : string;
  NewURL : string;
  NewHeaders : list Postman.PostmanHeader;
  NewBody : string;
  NewExtractionRules : list ExtractionRule
}.

(** The INSERT of CreateItem: the columns it names. The one of a folder
    names none of the four request columns. *)
Record CreateInsert : Type := mkCreateInsert {
  InsCollectionID : Z;
  InsParentID : option Z;
  InsName : string;
  InsItemType : string;
  InsSortOrder : Z;
  InsMethod : option string;
  InsURL : option string;
  InsHeaders : option string;
  InsBody : option string;
  InsExtractionRules : string
}.

(** What CreateItem calls. [collectionExists] is the EXISTS query on the
    collection; [parentOf] selects the parent row and gives whether it
    exists with its collection id, or fails, also when there is no such
    row; [maxSortOrder] is the MAX query among the items of the parent
    (of the top level for [None]), NULL when there is none; [insert]
    gives the id of the new row. *)
Record CreateServices : Type := mkCreateServices {
  createQuote : string -> string;
  collectionExists : Z -> result bool;
  parentOf : Z -> result (bool * Z);
  maxSortOrder : Z -> option Z -> result (option Z);
  createMarshalRules : list ExtractionRule -> result string;
  createMarshalHeaders : list Postman.PostmanHeader -> result string;
  insert : CreateInsert -> result Z
}.

(** The replies of CreateItem: an error, or 201 with [newItem], given by
    its id and its columns. *)
Inductive CreateReply : Type :=
| CreateError (status : Z) (kind message : string)
| Created (id : Z) (row : CreateInsert).

(** The columns of the zero value of [models.CollectionItem]: [newItem]
    when no row was scanned into it; its extraction rules are set to the
    empty list before the reply. *)
Definition zeroItem : CreateInsert :=
  mkCreateInsert 0 None "" "" 0 None None None None "[]".

(** The CHECK constraint of the [item_type] column (migration 00002). *)
Definition item_type_check (itemType : string) : bool :=
  String.eqb itemType "folder" || String.eqb itemType "request".

(** [CreateItem]: the INSERT that was run, if any, and the reply.
    [idParam] is the id of the path and [bound] what binding the payload
    gave. The branch of a request item declares an [err] of its own when it
    serializes the headers, and the result of its INSERT is assigned to
    that one; the test after the two branches reads the [err] of the
    function, which is nil there. So the failure of the INSERT of a folder
    is answered with 500, and the failure of the INSERT of a request with
    201 and the zero item. *)
Definition CreateItem (sv : CreateServices) (idParam : string)
    (bound : result CreateItemRequest) : option CreateInsert * CreateReply :=
  match Strconv.Atoi (createQuote sv) idParam with
  | Err _ => (None, CreateError 400 "invalid_id" "Collection ID must be a valid integer")
  | Ok collectionID =>
  match collectionExists sv collectionID with
  | Err _ => (None, CreateError 500 "database_error" "Failed to check collection existence")
  | Ok false => (None, CreateError 404 "not_found" "Collection not found")
  | Ok true =>
  match bound with
  | Err _ => (None, CreateError 400 "invalid_request" "Name and item_type are required")
  | Ok createReq =>
  if negb (String.eqb (NewItemType createReq) "folder")
     && negb (String.eqb (NewItemType createReq) "request")
  then (None, CreateError 400 "invalid_item_type" "item_type must be 'folder' or 'request'")
  else
  match Store.CreateItem_checkMethod (NewItemType createReq) (NewMethod createReq) with
  | Some kind =>
      (None, CreateError 400 kind
               (if String.eqb kind "missing_method"
                then "method is required for request items"
                else "Method must be one of: GET, POST, PUT, PATCH, DELETE"))
  | None =>
  match (match NewParentID createReq with
         | Some parentID =>
             match parentOf sv parentID with
             | Err _ => Some "Parent item not found"
             | Ok (false, _) => Some "Parent item not found"
             | Ok (true, parentCollectionID) =>
                 if negb (parentCollectionID =? collectionID)%Z
                 then Some "Parent item must belong to the same collection"
                 else None
             end
         | None => None
         end) with
  | Some message => (None, CreateError 400 "invalid_parent" message)
  | None =>
  match maxSortOrder sv collectionID (NewParentID createReq) with
  | Err _ => (None, CreateError 500 "database_error" "Failed to calculate sort order")
  | Ok maxSort =>
  let sortOrder := match maxSort with Some m => (m + 1)%Z | None => 0%Z end in
  match createMarshalRules sv (NewExtractionRules createReq) with
  | Err _ => (None, CreateError 400 "invalid_extraction_rules"
                      "Failed to serialize extraction_rules")
  | Ok extractionRulesJSON =>
  match (if String.eqb (NewItemType createReq) "folder"
         then Ok (mkCreateInsert collectionID (NewParentID createReq) (NewName createReq)
                    (NewItemType createReq) sortOrder None None None None
                    extractionRulesJSON)
         else
           match createMarshalHeaders sv (NewHeaders createReq) with
           | Err e => Err e
           | Ok headersJSON =>
               Ok (mkCreateInsert collectionID (NewParentID createReq) (NewName createReq)
                     (NewItemType createReq) sortOrder (Some (NewMethod createReq))
                     (Some (NewURL createReq)) (Some headersJSON)
                     (Some (NewBody createReq)) extractionRulesJSON)
           end) with
  | Err _ => (None, CreateError 400 "invalid_headers" "Failed to serialize headers")
  | Ok stmt =>
      match insert sv stmt with
      | Err _ =>
          if String.eqb (NewItemType createReq) "folder"
          then (Some stmt, CreateError 500 "database_error" "Failed to create item")
          else (Some stmt, Created 0 zeroItem)
      | Ok id => (Some stmt, Created id stmt)
      end
  end end end end end end end end.

End Items.

(** ** The environment handler: the batch update of the variables *)
Module Environments.

(** [map[string]string]. *)
Abbreviation Variables := (gmap string string) (only parsing).

(** The answer to a query for one row. *)
Inductive RowLookup (A : Type) : Type :=
| NoRows
| QueryError
| Found (row : A).
Arguments NoRows {A}.
Arguments QueryError {A}.
Arguments Found {A} row.

Inductive Reply (A : Type) : Type :=
| ReplyError (status : Z) (kind message : string)
| ReplyOK (body : A)
| Panic.
Arguments ReplyError {A} status kind message.
Arguments ReplyOK {A} body.
Arguments Panic {A}.

(** The JSON library on variables. Decoding the stored column into a
    [map[string]string] fails, leaves the map nil (the JSON null), or
    gives a map; encoding takes the map, nil or not. *)
Record Json : Type := mkJson {
  unmarshalVars : string -> result (option Variables);
  marshalVars : option Variables -> result string
}.

(** [for key, value := range reqVariables { currentVars[key] = value }],
    the entries being met in the order [order]. Writing into a nil map
    panics: [None] is that panic. *)
Fixpoint mergeLoop (order : list (string * string)) (currentVars : option Variables)
    : option (option Variables) :=
  match order with
  | [] => Some currentVars
  | (key, value) :: rest =>
      match currentVars with
      | None => None
      | Some m => mergeLoop rest (Some (<[key := value]> m))
      end
  end.

(** [BatchUpdateEnvironmentVariables]. [bound] is what binding the payload
    gave; [order] is the order in which the range loop meets the entries of
    the request, some enumeration of them; [current] is the row the id
    selects; [exec] is the UPDATE. The result is the JSON written, if any,
    and the reply, which carries the merged variables. *)
Definition BatchUpdateEnvironmentVariables (json : Json)
    (bound : result Variables) (order : list (string * string))
    (current : RowLookup string) (exec : string -> option error)
    : option string * Reply (option Variables) :=
  match bound with
  | Err _ => (None, ReplyError 400 "validation_error" "Variables are required")
  | Ok _ =>
  match current with
  | NoRows => (None, ReplyError 404 "not_found" "Environment not found")
  | QueryError => (None, ReplyError 500 "database_error" "Failed to fetch environment")
  | Found currentVarsJSON =>
      let currentVars :=
        match unmarshalVars json currentVarsJSON with
        | Err _ => Some ∅
        | Ok decoded => decoded
        end in
      match mergeLoop order currentVars with
      | None => (None, Panic)
      | Some currentVars =>
          match marshalVars json currentVars with
          | Err _ => (None, ReplyError 500 "json_error" "Failed to encode variables")
          | Ok updatedVarsJSON =>
              match exec updatedVarsJSON with
              | Some _ => (Some updatedVarsJSON,
                           ReplyError 500 "database_error" "Failed to update variables")
              | None => (Some updatedVarsJSON, ReplyOK currentVars)
              end
          end
      end
  end end.

End Environments.

(** ** The collection handler: the upload and the import of the items *)
Module Collections.
Import Postman.

(** One INSERT INTO collection_items: the columns it names. A folder is
    inserted without the four request columns, which stay NULL. *)
Record Insert : Type := mkInsert {
  CollectionID : Z;
  ParentID : option Z;
  Name : string;
  ItemType : string;
  SortOrder : Z;
  Method : option string;
  URL : option string;
  Headers : option string;
  Body : option string
}.

(** The rows a transaction has inserted, oldest first, each with the id
    the database gave it. *)
Abbreviation Rows := (list (Z * Insert)).

(** The database, as the upload uses it: the begin of the transaction,
    the insert of the collection (name and description) with the id it
    returns, the insert of an item after the rows already inserted, with
    the id of the new row, and the commit. *)
Record Database : Type := mkDatabase {
  begin : option error;
  insertCollection : string -> string -> result Z;
  insertItem : Rows -> Insert -> result Z;
  commit : Rows -> option error
}.

(** [extractURL] of the handlers: the text of the URL, empty when there is
    none. *)
Definition extractURL (urlData : URLData) : string :=
  match urlData with
  | URLNil => ""
  | URLString v => v
  | URLObject v =>
      match v !! "raw" with
      | Some (Handlers.JString raw) => raw
      | _ => ""
      end
  | URLOther => ""
  end.

Definition nullInt (val : Z) : option Z :=
  if (val =? 0)%Z then None else Some val.

(** A range loop with its index, counted from [i], that stops at the first
    error. *)
Fixpoint forEach {A S : Type} (f : Z -> A -> S -> S * option error)
    (i : Z) (l : list A) (s : S) : S * option error :=
  match l with
  | [] => (s, None)
  | x :: rest =>
      match f i x s with
      | (s', Some err) => (s', Some err)
      | (s', None) => forEach f (i + 1)%Z rest s'
      end
  end.

(** The body of the loop of [importItems] for the item at [sortOrder].
    [marshal] is [json.Marshal] on the headers. *)
Fixpoint importItem (db : Database) (marshal : list PostmanHeader -> result string)
    (collectionID parentID sortOrder : Z) (item : PostmanItem) (rows : Rows)
    : Rows * option error :=
  match item with
  | mkPostmanItem name children request =>
      match children with
      | _ :: _ =>
          let stmt := mkInsert collectionID (nullInt parentID) name "folder" sortOrder
                        None None None None in
          match insertItem db rows stmt with
          | Err err => (rows, Some (wrapError "failed to insert folder: " err))
          | Ok folderID =>
              forEach (importItem db marshal collectionID folderID) 0 children
                      (rows ++ [(folderID, stmt)])%list
          end
      | [] =>
          match request with
          | Some req =>
              let urlStr := extractURL (Postman.URL req) in
              match marshal (Header req) with
              | Err err => (rows, Some (wrapError "failed to marshal headers: " err))
              | Ok headersJSON =>
                  let body :=
                    match Postman.Body req with
                    | Some b => if negb (String.eqb (Raw b) "") then Raw b else ""
                    | None => ""
                    end in
                  let stmt := mkInsert collectionID (nullInt parentID) name "request"
                                sortOrder (Some (Postman.Method req)) (Some urlStr)
                                (Some headersJSON) (Some body) in
                  match insertItem db rows stmt with
                  | Err err => (rows, Some (wrapError "failed to insert request: " err))
                  | Ok id => ((rows ++ [(id, stmt)])%list, None)
                  end
              end
          | None => (rows, None)
          end
      end
  end.

Definition importItems (db : Database) (marshal : list PostmanHeader -> result string)
    (collectionID parentID : Z) (items : list PostmanItem) (startOrder : Z)
    (rows : Rows) : Rows * option error :=
  forEach (importItem db marshal collectionID parentID) startOrder items rows.

Inductive Reply : Type :=
| ReplyError (status : Z) (kind message : string)
| ReplyCreated (collectionID : Z).

(** What the handler calls besides the database. *)
Record Json : Type := mkJson {
  unmarshal : string -> result PostmanCollection;
  marshal : list PostmanHeader -> result string
}.

(** [UploadCollection]: the rows committed and the reply. [body] is what
    reading the request body gives. *)
Definition UploadCollection (json : Json) (db : Database)
    (maxRequestSize maxHeaderCount : Z) (body : result string) : Rows * Reply :=
  match body with
  | Err _ => ([], ReplyError 400 "read_error" "Failed to read request body")
  | Ok body =>
  match PostmanValidator.ValidatePostmanCollection (unmarshal json)
          (Http.readLimited body maxRequestSize) maxRequestSize maxHeaderCount with
  | Err err => ([], ReplyError 400 "validation_error" (Errors.Error err))
  | Ok collection =>
  match begin db with
  | Some _ => ([], ReplyError 500 "database_error" "Failed to begin transaction")
  | None =>
  match insertCollection db (InfoName (Info collection)) (Description (Info collection)) with
  | Err _ => ([], ReplyError 500 "database_error" "Failed to create collection")
  | Ok collectionID =>
  match importItems db (marshal json) collectionID 0 (Items collection) 0 [] with
  | (_, Some err) =>
      ([], ReplyError 500 "import_error" ("Failed to import items: " +:+ Errors.Error err))
  | (rows, None) =>
      match commit db rows with
      | Some _ => ([], ReplyError 500 "database_error" "Failed to commit transaction")
      | None => (rows, ReplyCreated collectionID)
      end
  end end end end end.

End Collections.

(** ** The collection handler: the tree of the items *)
Module Tree.

(** [models.CollectionItem], as the query of the tree scans it. A
    [sql.NullInt64] or [sql.NullString] that is not valid is [None]. *)
Record CollectionItem : Type := mkCollectionItem {
  ID : Z;
  ParentID : option Z;
  Name : string;
  ItemType : string;
  SortOrder : Z;
  Method : option string;
  URL : option string;
  Headers : option string;
  Body : option string;
  ExtractionRules : list Items.ExtractionRule
}.

(** [models.ItemTreeNode]. *)
#[warnings="-register-all"]
Inductive ItemTreeNode : Type :=
| mkItemTreeNode (id : Z) (name itemType : string) (sortOrder : Z)
    (method url headers body : string) (extractionRules : list Items.ExtractionRule)
    (children : list ItemTreeNode).

Definition NodeID (n : ItemTreeNode) : Z :=
  match n with mkItemTreeNode id _ _ _ _ _ _ _ _ _ => id end.

Definition Children (n : ItemTreeNode) : list ItemTreeNode :=
  match n with mkItemTreeNode _ _ _ _ _ _ _ _ _ children => children end.

Definition withChildren (n : ItemTreeNode) (children : list ItemTreeNode) : ItemTreeNode :=
  match n with
  | mkItemTreeNode id name itemType sortOrder method url headers body rules _ =>
      mkItemTreeNode id name itemType sortOrder method url headers body rules children
  end.

Definition validString (s : option string) : string :=
  match s with
  | Some v => v
  | None => ""
  end.

(** The node of the first pass: the request fields are copied for a
    request only, and when they are valid. *)
Definition newNode (item : CollectionItem) : ItemTreeNode :=
  let isRequest := String.eqb (ItemType item) "request" in
  mkItemTreeNode (ID item) (Name item) (ItemType item) (SortOrder item)
    (if isRequest then validString (Method item) else "")
    (if isRequest then validString (URL item) else "")
    (if isRequest then validString (Headers item) else "")
    (if isRequest then validString (Body item) else "")
    (ExtractionRules item) [].

(** The three variables of the first pass. *)
Record Maps : Type := mkMaps {
  nodeMap : gmap Z ItemTreeNode;
  childrenMap : gmap Z (list Z);
  rootIDs : list Z
}.

Definition firstPass_step (m : Maps) (item : CollectionItem) : Maps :=
  let nodeMap' := <[ID item := newNode item]> (nodeMap m) in
  match ParentID item with
  | Some parentID =>
      if (parentID =? 0)%Z
      then mkMaps nodeMap' (childrenMap m) (rootIDs m ++ [ID item])%list
      else mkMaps nodeMap'
             (<[parentID := (default [] (childrenMap m !! parentID) ++ [ID item])%list]>
                (childrenMap m))
             (rootIDs m)
  | None => mkMaps nodeMap' (childrenMap m) (rootIDs m ++ [ID item])%list
  end.

Definition firstPass (items : list CollectionItem) : Maps :=
  fold_left firstPass_step items (mkMaps ∅ ∅ []).

(** A loop that appends the results of [f], and gives up when one call
    does. *)
Fixpoint collect {A B : Type} (f : A -> option B) (l : list A) : option (list B) :=
  match l with
  | [] => Some []
  | x :: rest =>
      match f x with
      | None => None
      | Some y =>
          match collect f rest with
          | None => None
          | Some ys => Some (y :: ys)
          end
      end
  end.

(** [buildNode]. The recursion is bounded by [fuel]; [None] is a call that
    gives no node: the recursion does not end within [fuel] calls, or the
    id has no node. *)
Fixpoint buildNode (fuel : nat) (m : Maps) (id : Z) : option ItemTreeNode :=
  match fuel with
  | O => None
  | S fuel' =>
      match nodeMap m !! id with
      | None => None
      | Some node =>
          match childrenMap m !! id with
          | Some childIDs =>
              match collect (buildNode fuel' m) childIDs with
              | None => None
              | Some children => Some (withChildren node children)
              end
          | None => Some (withChildren node [])
          end
      end
  end.

(** [buildTree]. *)
Definition buildTree (fuel : nat) (items : list CollectionItem)
    : option (list ItemTreeNode) :=
  let m := firstPass items in
  collect (buildNode fuel m) (rootIDs m).

End Tree.

(** ** Closed forms used to state what the code computes *)
Module Shapes.
Import Postman.

(** The 4-byte addresses written [a.b.c.d] that the validator blocks, by
    their first three bytes. *)
Definition v4_blocked (a b c : N) : Prop :=
  (a = 127 \/ a = 10 \/ (a = 172 /\ 16 <= b <= 31) \/ (a = 192 /\ b = 168)
   \/ (a = 169 /\ b = 254) \/ (a = 224 /\ b = 0 /\ c = 0)
   \/ (a = 100 /\ 64 <= b <= 127))%N.

(** The 16-byte addresses, not IPv4-mapped, that the validator blocks. *)
Definition v6_blocked (ip : Net.IP) : Prop :=
  ip = Net.IPv6loopback
  \/ (Net.at_ ip 0 = 254 /\ 128 <= Net.at_ ip 1 <= 191)%N
  \/ (Net.at_ ip 0 = 255 /\ N.land (Net.at_ ip 1) 15 = 2)%N
  \/ (252 <= Net.at_ ip 0 <= 253)%N
  \/ In (Net.String_ ip) Validator.metadataIPs.

(** The requests of an item that are not inside a folder's own [Request]
    field, with the name of their item, in document order. *)
Fixpoint leafRequests (item : PostmanItem) : list (string * PostmanRequest) :=
  match item with
  | mkPostmanItem name children request =>
      match children with
      | _ :: _ => flat_map leafRequests children
      | [] =>
          match request with
          | Some req => [(name, req)]
          | None => []
          end
      end
  end.

(** The error of one named request, as [validateItems] reports it. *)
Definition validateNamed (maxHeaderCount : Z) (leaf : string * PostmanRequest)
    : option error :=
  match PostmanValidator.validateRequest (snd leaf) maxHeaderCount with
  | Some err => Some (wrapError ("invalid request '" +:+ fst leaf +:+ "': ") err)
  | None => None
  end.

(** The updates of a query that sets [columns], in this order: each names
    its column and the next placeholder, counted from [first]. *)
Fixpoint numbered (first : Z) (columns : list string) : list string :=
  match columns with
  | [] => []
  | column :: rest => (column +:+ " = $" +:+ Http.itoa first) :: numbered (first + 1) rest
  end.

(** The fields an update request provides, as column and value, in the
    order of the struct; headers and extraction rules are JSON texts. *)
Definition provided (sv : Items.Services) (req : Items.UpdateItemRequest)
    : list (string * string) :=
  (match Items.Name req with Some v => [("name", v)] | None => [] end
   ++ match Items.Method req with Some v => [("method", v)] | None => [] end
   ++ match Items.URL req with Some v => [("url", v)] | None => [] end
   ++ match Items.Headers req with
      | Some h =>
          match Items.marshalHeaders sv h with
          | Ok v => [("headers", v)]
          | Err _ => []
          end
      | None => []
      end
   ++ match Items.Body req with Some v => [("body", v)] | None => [] end
   ++ match Items.ExtractionRules req with
      | Some r =>
          match Items.marshalRules sv r with
          | Ok v => [("extraction_rules", v)]
          | Err _ => []
          end
      | None => []
      end)%list.

(** The query builder after the fields [fields] were added. *)
Definition built (fields : list (string * string)) (b : Items.Builder) : Prop :=
  Items.updates b = numbered 1 (map fst fields)
  /\ Items.args b = map (fun f => Items.ArgString (snd f)) fields
  /\ Items.argCount b = (1 + Z.of_nat (length fields))%Z.

(** The value of a variable in a map that may be nil. *)
Definition lookupVar (vars : option (gmap string string)) (key : string) : option string :=
  match vars with
  | Some m => m !! key
  | None => None
  end.


(** An inserted row as the query of the tree scans it; the column
    extraction_rules has its default, the empty list. *)
Definition rowOf (row : Z * Collections.Insert) : Tree.CollectionItem :=
  Tree.mkCollectionItem (fst row)
    (Collections.ParentID (snd row)) (Collections.Name (snd row))
    (Collections.ItemType (snd row)) (Collections.SortOrder (snd row))
    (Collections.Method (snd row)) (Collections.URL (snd row))
    (Collections.Headers (snd row)) (Collections.Body (snd row)) [].

(** A node of the tree without its id. *)
#[warnings="-register-all"]
Inductive Outline : Type :=
| mkOutline (name itemType : string) (sortOrder : Z) (method url headers body : string)
    (children : list Outline).

Fixpoint outline (n : Tree.ItemTreeNode) : Outline :=
  match n with
  | Tree.mkItemTreeNode _ name itemType sortOrder method url headers body _ children =>
      mkOutline name itemType sortOrder method url headers body (map outline children)
  end.

Fixpoint flatMapIndexed {A B : Type} (f : Z -> A -> list B) (i : Z) (l : list A) : list B :=
  match l with
  | [] => []
  | x :: rest => (f i x ++ flatMapIndexed f (i + 1)%Z rest)%list
  end.

(** What the import keeps of an item at position [sortOrder]: a folder
    with its items, a request with its four texts, and nothing for an item
    that has neither items nor a request. *)
Fixpoint imported (marshal : list Postman.PostmanHeader -> result string)
    (sortOrder : Z) (item : Postman.PostmanItem) : list Outline :=
  match item with
  | Postman.mkPostmanItem name children request =>
      match children with
      | _ :: _ =>
          [mkOutline name "folder" sortOrder "" "" "" ""
             (flatMapIndexed (imported marshal) 0 children)]
      | [] =>
          match request with
          | Some req =>
              [mkOutline name "request" sortOrder (Postman.Method req)
                 (Collections.extractURL (Postman.URL req))
                 (match marshal (Postman.Header req) with Ok h => h | Err _ => "" end)
                 (match Postman.Body req with Some b => Postman.Raw b | None => "" end)
                 []]
          | None => []
          end
      end
  end.

(** The rows of a transaction as a forest: a row with the rows inserted
    below it. *)
#[warnings="-register-all"]
Inductive LTree : Type :=
| LNode (id : Z) (stmt : Collections.Insert) (children : list LTree).

Definition root (t : LTree) : Z * Collections.Insert :=
  match t with LNode id stmt _ => (id, stmt) end.

Fixpoint flat (t : LTree) : Collections.Rows :=
  match t with
  | LNode id stmt children => (id, stmt) :: flat_map flat children
  end.

Fixpoint height (t : LTree) : nat :=
  match t with
  | LNode _ _ children => S (fold_right (fun c h => Nat.max (height c) h) 0%nat children)
  end.

Fixpoint parented (p : option Z) (t : LTree) : Prop :=
  match t with
  | LNode id stmt children =>
      Collections.ParentID stmt = p
      /\ (fix all (l : list LTree) : Prop :=
            match l with
            | [] => True
            | c :: rest => parented (Some id) c /\ all rest
            end) children
  end.

Fixpoint nodeL (t : LTree) : Tree.ItemTreeNode :=
  match t with
  | LNode id stmt children =>
      Tree.withChildren (Tree.newNode (rowOf (id, stmt))) (map nodeL children)
  end.

(** A database that gives every new row an id that is not 0 and that no
    row of the transaction has. *)
Definition fresh_ids (db : Collections.Database) : Prop :=
  forall rows stmt id,
    Collections.insertItem db rows stmt = Ok id -> id <> 0%Z /\ id ∉ rows.*1.

(** The rows the first pass takes as roots, and as items of [p]. *)
Definition isRoot (item : Tree.CollectionItem) : bool :=
  match Tree.ParentID item with
  | Some p => (p =? 0)%Z
  | None => true
  end.

Definition childOf (p : Z) (item : Tree.CollectionItem) : bool :=
  match Tree.ParentID item with
  | Some q => (q =? p)%Z && negb (q =? 0)%Z
  | None => false
  end.

(** The rows below the row [q]. *)
Definition kidsOf (q : Z) (rows : Collections.Rows) : Collections.Rows :=
  List.filter (fun r => childOf q (rowOf r)) rows.

(** The ids of a tree of rows, and of a forest. *)
Definition ids (t : LTree) : list Z := map fst (flat t).

Definition forestIds (cs : list LTree) : list Z := map fst (flat_map flat cs).

(** Rows with distinct ids, none of them 0. *)
Definition clean (rows : Collections.Rows) : Prop :=
  NoDup (map fst rows) /\ forall r, In r rows -> fst r <> 0%Z.

(** What one step of the loop gives when it ends without error. *)
Definition step_forest (marshal : list Postman.PostmanHeader -> result string)
    (parentID i : Z) (item : Postman.PostmanItem) (rows rows' : Collections.Rows) : Prop :=
  exists F,
    rows' = (rows ++ flat_map flat F)%list
    /\ Forall (parented (Collections.nullInt parentID)) F
    /\ map (fun t => outline (nodeL t)) F = imported marshal i item
    /\ (clean rows -> clean rows').

(** A database that enforces the CHECK constraint of the method column. *)
Definition enforces_check (db : Collections.Database) : Prop :=
  forall rows stmt,
    Store.method_check (Collections.Method stmt) = false ->
    exists err, Collections.insertItem db rows stmt = Err err.

(** The text of the size error of the validator. *)
Definition sizeMessage (maxRequestSize : Z) : string :=
  "collection JSON exceeds maximum size of " +:+ Http.itoa maxRequestSize +:+ " bytes".

(** What the import stores for a request outside a folder's own request
    field: the name, the method as written and the text of the URL. *)
Definition storedLeaf (leaf : string * Postman.PostmanRequest)
    : string * option string * option string :=
  (fst leaf, Some (Postman.Method (snd leaf)),
   Some (Collections.extractURL (Postman.URL (snd leaf)))).

(** The request rows among [rows]: name, method and URL. *)
Definition requestRows (rows : Collections.Rows)
    : list (string * option string * option string) :=
  map (fun r => (Collections.Name (snd r), Collections.Method (snd r),
                 Collections.URL (snd r)))
      (List.filter (fun r => String.eqb (Collections.ItemType (snd r)) "request") rows).

End Shapes.

(** ** Further sample values *)
Module Samples.

(** A policy that keeps two bytes of a response. *)
Definition two_bytes : Config := mkConfig 2 5 false false.

(** A call to the agent. *)
Definition agent_call : Agent.ExecuteRequest :=
  Agent.mkExecuteRequest "GET" "http://example.com/" ∅ "".

(** A payload whose url override is the empty string. *)
Definition empty_url : gmap string Handlers.JValue :=
  <["url" := Handlers.JString ""]> ∅.

(** A standard library for [Load] that knows one duration. *)
Definition sample_library : Configuration.Library :=
  Configuration.mkLibrary
    (fun s => if String.eqb s "30s" then Ok 30000000000%Z
              else Err (errorString "time: invalid duration"))
    (fun s => Errors.dquote +:+ s +:+ Errors.dquote).

(** An environment that sets nothing, and one that sets the two flags. *)
Definition unset_env : string -> string := fun _ => "".

Definition flags_env : string -> string :=
  fun key =>
    if String.eqb key "ALLOW_LOCALHOST" then "false"
    else if String.eqb key "ALLOW_PRIVATE_IPS" then "TRUE"
    else "".

(** The services of an update that renames a request and moves its URL. *)
Definition rename_services : Items.Services :=
  Items.mkServices
    (fun _ => Ok (Items.mkUpdateItemRequest (Some "renamed") None
                    (Some "http://example.com/new") None None None))
    (fun _ => Ok "[]")
    (fun _ => Ok "[]")
    (fun s => Errors.dquote +:+ s +:+ Errors.dquote)
    (fun _ => Items.TypeFound "request")
    (fun _ _ => None).

(** A JSON library that knows two stored texts of variables. *)
Definition sample_json : Environments.Json :=
  Environments.mkJson
    (fun s => if String.eqb s "null" then Ok None
              else if String.eqb s "stored"
              then Ok (Some (<["a" := "1"]> (<["b" := "0"]> ∅)))
              else Err (errorString "unexpected end of JSON input"))
    (fun _ => Ok "merged").

Definition new_b : gmap string string := <["b" := "2"]> ∅.

(** A folder with two requests and an item that is neither a folder nor
    a request; the folder carries a request of its own. *)
Definition users_folder : Postman.PostmanItem :=
  Postman.mkPostmanItem "users"
    [ Postman.mkPostmanItem "list" []
        (Some (Postman.mkPostmanRequest "GET" [] None
                 (Postman.URLString "http://example.com/users")));
      Postman.mkPostmanItem "notes" [] None;
      Postman.mkPostmanItem "create" []
        (Some (Postman.mkPostmanRequest "POST"
                 [Postman.mkPostmanHeader "Content-Type" "application/json"]
                 (Some (Postman.mkPostmanBody "raw" "{}"))
                 (Postman.URLObject (<["raw" := Handlers.JString "{{base}}/users"]> ∅)))) ]
    (Some (Postman.mkPostmanRequest "TRACE" [] None Postman.URLNil)).

(** A request whose method is written in lower case. *)
Definition ping : Postman.PostmanItem :=
  Postman.mkPostmanItem "ping" []
    (Some (Postman.mkPostmanRequest "get" [] None
             (Postman.URLString "http://example.com/ping"))).

Definition demo_info : Postman.PostmanInfo :=
  Postman.mkPostmanInfo "demo" ""
    "https://schema.getpostman.com/json/collection/v2.1.0/collection.json".

Definition demo_collection : Postman.PostmanCollection :=
  Postman.mkPostmanCollection demo_info [users_folder].

Definition lowercase_collection : Postman.PostmanCollection :=
  Postman.mkPostmanCollection demo_info [users_folder; ping].

(** A JSON library that decodes two texts, and encodes headers as their
    number. *)
Definition upload_json : Collections.Json :=
  Collections.mkJson
    (fun s => if String.eqb s "demo" then Ok demo_collection
              else if String.eqb s "lowercase" then Ok lowercase_collection
              else Err (errorString "unexpected end of JSON input"))
    (fun hs => Ok (Http.itoa (Z.of_nat (length hs)))).

(** A database that numbers the rows of a transaction upwards and
    enforces the CHECK of the method column. *)
Definition nextID (rows : Collections.Rows) : Z :=
  (1 + fold_right Z.max 0 (map fst rows))%Z.

Definition counting_db : Collections.Database :=
  Collections.mkDatabase None (fun _ _ => Ok 1%Z)
    (fun rows stmt =>
       if Store.method_check (Collections.Method stmt) then Ok (nextID rows)
       else Err (errorString "violates check constraint"))
    (fun _ => None).

(** The services of a creation below item 7 of collection 3, whose
    items go up to sort order 4. *)
Definition create_services : Items.CreateServices :=
  Items.mkCreateServices
    (fun s => Errors.dquote +:+ s +:+ Errors.dquote)
    (fun _ => Ok true)
    (fun _ => Ok (true, 3%Z))
    (fun _ _ => Ok (Some 4%Z))
    (fun _ => Ok "[]")
    (fun _ => Ok "[]")
    (fun _ => Ok 12%Z).


Definition search_request : Items.CreateItemRequest :=
  Items.mkCreateItemRequest "search" "request" (Some 7%Z) "POST"
    "http://example.com/search" [] "{}" [].

End Samples.

(** * Properties *)

(** ** Bytes and addresses *)
Section Bytes.

Lemma to_N_inj (a b : byte) : Byte.to_N a = Byte.to_N b -> a = b.
Proof.
  intros H.
  assert (Some a = Some b) as E.
  { rewrite <- (Byte.of_to_N a), <- (Byte.of_to_N b). now rewrite H. }
  now inversion E.
Qed.

Lemma to_N_le (b : byte) : (Byte.to_N b <= 255)%N.
Proof. apply Byte.to_N_bounded. Qed.

Lemma byte_eqb_to_N (a b : byte) : Byte.eqb a b = (Byte.to_N a =? Byte.to_N b)%N.
Proof.
  destruct (Byte.eqb a b) eqn:E.
  - apply Byte.byte_dec_bl in E. subst. symmetry. apply N.eqb_refl.
  - symmetry. apply N.eqb_neq. intros H. apply to_N_inj in H. subst.
    rewrite (Byte.byte_dec_lb eq_refl) in E. discriminate.
Qed.

Lemma land_255 (b : byte) : N.land (Byte.to_N b) 255 = Byte.to_N b.
Proof. destruct b; reflexivity. Qed.

Lemma land_254_252 (b : byte) :
  (N.land 252 254 =? N.land (Byte.to_N b) 254)%N
  = ((252 <=? Byte.to_N b) && (Byte.to_N b <=? 253))%N.
Proof. destruct b; reflexivity. Qed.

Lemma land_240_16 (b : byte) :
  (N.land 16 240 =? N.land (Byte.to_N b) 240)%N
  = ((16 <=? Byte.to_N b) && (Byte.to_N b <=? 31))%N.
Proof. destruct b; reflexivity. Qed.

Lemma land_192_128 (b : byte) :
  (N.land (Byte.to_N b) 192 =? 128)%N
  = ((128 <=? Byte.to_N b) && (Byte.to_N b <=? 191))%N.
Proof. destruct b; reflexivity. Qed.

End Bytes.

(** ** What [isPrivateIP] blocks *)
Section PrivateIP.
Import Net Validator Spec.

Lemma To4_length (ip ip4 : IP) : To4 ip = Some ip4 -> length ip4 = 4%nat.
Proof.
  unfold To4. destruct (length ip =? IPv4len)%nat eqn:E4.
  - intros [= <-]. now apply Nat.eqb_eq in E4.
  - destruct ((length ip =? IPv6len)%nat && _ && _ && _) eqn:E; [|discriminate].
    intros [= <-]. rewrite !andb_true_iff in E. destruct E as [[[E _] _] _].
    apply Nat.eqb_eq in E. rewrite length_drop, E. reflexivity.
Qed.

Lemma To4_of_4 (ip4 : IP) : length ip4 = 4%nat -> To4 ip4 = Some ip4.
Proof. intros H. unfold To4. now rewrite H. Qed.

Lemma To4_length_src (ip ip4 : IP) :
  To4 ip = Some ip4 -> length ip = 4%nat \/ length ip = 16%nat.
Proof.
  unfold To4. destruct (length ip =? IPv4len)%nat eqn:E4.
  - left. now apply Nat.eqb_eq in E4.
  - destruct (length ip =? IPv6len)%nat eqn:E6; [|discriminate].
    right. now apply Nat.eqb_eq in E6.
Qed.

Lemma existsb_pointwise {A : Type} (f g : A -> bool) (l : list A) :
  (forall x, f x = g x) -> existsb f l = existsb g l.
Proof. intros H. induction l as [|x l IH]; simpl; [reflexivity|]. now rewrite H, IH. Qed.

(** Everything [isPrivateIP] asks of an IPv4 address goes through its
    4-byte form. *)
Lemma isPrivateIP_To4 (ip ip4 : IP) :
  To4 ip = Some ip4 -> isPrivateIP ip = isPrivateIP ip4.
Proof.
  intros H. pose proof (To4_length _ _ H) as L4.
  pose proof (To4_of_4 _ L4) as H4.
  unfold isPrivateIP, IsLoopback, IsLinkLocalUnicast, IsLinkLocalMulticast.
  rewrite H, H4.
  assert (forall cidr, inRange ip cidr = inRange ip4 cidr) as HR.
  { intros cidr. unfold inRange. destruct (ParseCIDR cidr); [|reflexivity].
    unfold Contains. now rewrite H, H4. }
  assert (String_ ip = String_ ip4) as HS.
  { unfold String_. rewrite H, H4, L4.
    destruct (To4_length_src _ _ H) as [-> | ->]; reflexivity. }
  rewrite HS. rewrite (existsb_pointwise _ _ privateRanges HR). reflexivity.
Qed.

Lemma isPrivateIP_loopback (ip : IP) : IsLoopback ip = true -> isPrivateIP ip = true.
Proof. intros H. unfold isPrivateIP. now rewrite H. Qed.

Lemma isPrivateIP_linklocal (ip : IP) :
  IsLinkLocalUnicast ip = true -> isPrivateIP ip = true.
Proof.
  intros H. unfold isPrivateIP. rewrite H.
  destruct (IsLoopback ip); reflexivity.
Qed.

Lemma isPrivateIP_inRange (ip : IP) (cidr : string) :
  In cidr privateRanges -> inRange ip cidr = true -> isPrivateIP ip = true.
Proof.
  intros Hin H. unfold isPrivateIP.
  destruct (IsLoopback ip); [reflexivity|].
  destruct (_ || _); [reflexivity|].
  assert (existsb (inRange ip) privateRanges = true) as ->; [|reflexivity].
  apply existsb_exists. eauto.
Qed.

Lemma Contains4 (n0 n1 n2 n3 m0 m1 m2 m3 a b c d : byte) :
  Contains (mkIPNet [n0;n1;n2;n3] [m0;m1;m2;m3]) [a;b;c;d]
  = ((N.land (to_N n0) (to_N m0) =? N.land (to_N a) (to_N m0))%N
     && ((N.land (to_N n1) (to_N m1) =? N.land (to_N b) (to_N m1))%N
     && ((N.land (to_N n2) (to_N m2) =? N.land (to_N c) (to_N m2))%N
     && ((N.land (to_N n3) (to_N m3) =? N.land (to_N d) (to_N m3))%N && true)))).
Proof. reflexivity. Qed.

Ltac byte_consts :=
  repeat match goal with
         | |- context [to_N ?b] =>
             is_constructor b;
             let v := eval vm_compute in (to_N b) in change (to_N b) with v
         end.

Ltac land_consts :=
  repeat match goal with
         | |- context [N.land (N.pos ?p) (N.pos ?q)] =>
             let v := eval vm_compute in (N.land (N.pos p) (N.pos q)) in
             change (N.land (N.pos p) (N.pos q)) with v
         end.

Lemma inRange_v4 (cidr : string) (n0 n1 n2 n3 m0 m1 m2 m3 a b c d : byte) :
  ParseCIDR cidr = Some (mkIPNet [n0;n1;n2;n3] [m0;m1;m2;m3]) ->
  inRange [a;b;c;d] cidr
  = ((N.land (to_N n0) (to_N m0) =? N.land (to_N a) (to_N m0))%N
     && ((N.land (to_N n1) (to_N m1) =? N.land (to_N b) (to_N m1))%N
     && ((N.land (to_N n2) (to_N m2) =? N.land (to_N c) (to_N m2))%N
     && ((N.land (to_N n3) (to_N m3) =? N.land (to_N d) (to_N m3))%N && true)))).
Proof. intros H. unfold inRange. rewrite H. apply Contains4. Qed.

Lemma private_v4 (a b c d : byte) :
  listed (V4 (be_value [a;b;c;d])) -> isPrivateIP [a;b;c;d] = true.
Proof.
  unfold listed, in_cidr, quad, be_value. simpl fold_left.
  pose proof (to_N_le a). pose proof (to_N_le b). pose proof (to_N_le c). pose proof (to_N_le d).
  change (2 ^ (32 - 8))%N with 16777216%N.
  change (2 ^ (32 - 12))%N with 1048576%N.
  change (2 ^ (32 - 16))%N with 65536%N.
  intros [H3|[H3|[H3|[H3|H3]]]].
  - apply isPrivateIP_loopback. unfold IsLoopback.
    rewrite To4_of_4 by reflexivity. apply N.eqb_eq. unfold at_; simpl nth. lia.
  - apply (isPrivateIP_inRange _ "10.0.0.0/8"); [simpl; tauto|].
    rewrite (inRange_v4 _ x0a x00 x00 x00 xff x00 x00 x00) by reflexivity.
    byte_consts. rewrite !N.land_0_r, land_255. land_consts.
    rewrite !N.eqb_refl, !andb_true_r. apply N.eqb_eq. lia.
  - apply (isPrivateIP_inRange _ "172.16.0.0/12"); [simpl; tauto|].
    rewrite (inRange_v4 _ xac x10 x00 x00 xff xf0 x00 x00) by reflexivity.
    byte_consts. rewrite !N.land_0_r, land_255, land_240_16. land_consts.
    rewrite !N.eqb_refl, !andb_true_r. rewrite !andb_true_iff. rewrite N.eqb_eq, !N.leb_le. lia.
  - apply (isPrivateIP_inRange _ "192.168.0.0/16"); [simpl; tauto|].
    rewrite (inRange_v4 _ xc0 xa8 x00 x00 xff xff x00 x00) by reflexivity.
    byte_consts. rewrite !N.land_0_r, !land_255. land_consts.
    rewrite !N.eqb_refl, !andb_true_r. rewrite !andb_true_iff. rewrite !N.eqb_eq. lia.
  - apply isPrivateIP_linklocal. unfold IsLinkLocalUnicast.
    rewrite To4_of_4 by reflexivity. unfold at_; simpl nth.
    rewrite !andb_true_iff. rewrite !N.eqb_eq. lia.
Qed.

Lemma To4_16 (b0 b1 b2 b3 b4 b5 b6 b7 b8 b9 b10 b11 b12 b13 b14 b15 : byte) :
  To4 [b0;b1;b2;b3;b4;b5;b6;b7;b8;b9;b10;b11;b12;b13;b14;b15]
  = if bytes_eqb [b0;b1;b2;b3;b4;b5;b6;b7;b8;b9;b10;b11] v4InV6Prefix
    then Some [b12;b13;b14;b15] else None.
Proof.
  unfold To4, isZeros, at_, v4InV6Prefix.
  cbn [length Nat.eqb IPv4len IPv6len take drop nth forallb bytes_eqb andb].
  change (to_N b10 =? 255)%N with (to_N b10 =? to_N xff)%N.
  change (to_N b11 =? 255)%N with (to_N b11 =? to_N xff)%N.
  rewrite <- !byte_eqb_to_N.
  repeat (match goal with |- context [Byte.eqb ?x ?y] => destruct (Byte.eqb x y) end;
          cbn [andb]; try reflexivity).
Qed.

Lemma Contains16 (net : IPNet) (ip : IP) :
  To4 (netIP net) = None -> length (netIP net) = 16%nat ->
  length (netMask net) = 16%nat ->
  To4 ip = None -> length ip = 16%nat ->
  Contains net ip = masked_eq (netIP net) (netMask net) ip.
Proof.
  intros Hn Ln Lm Hi Li. unfold Contains, networkNumberAndMask.
  rewrite Hn, Ln, Lm, Hi. cbn. rewrite Li, Ln. reflexivity.
Qed.

Lemma inRange_v6 (cidr : string) (net : IPNet) (ip : IP) :
  ParseCIDR cidr = Some net ->
  To4 (netIP net) = None -> length (netIP net) = 16%nat ->
  length (netMask net) = 16%nat ->
  To4 ip = None -> length ip = 16%nat ->
  inRange ip cidr = masked_eq (netIP net) (netMask net) ip.
Proof. intros H. unfold inRange. rewrite H. apply Contains16. Qed.


Lemma cidr_fc00 :
  ParseCIDR "fc00::/7"
  = Some (mkIPNet [xfc;x00;x00;x00;x00;x00;x00;x00;x00;x00;x00;x00;x00;x00;x00;x00]
                  [xfe;x00;x00;x00;x00;x00;x00;x00;x00;x00;x00;x00;x00;x00;x00;x00]).
Proof. reflexivity. Qed.

Lemma private_v6_bytes (b0 b1 b2 b3 b4 b5 b6 b7 b8 b9 b10 b11 b12 b13 b14 b15 : byte) :
  let ip := [b0;b1;b2;b3;b4;b5;b6;b7;b8;b9;b10;b11;b12;b13;b14;b15] in
  To4 ip = None -> listed (V6 (be_value ip)) -> isPrivateIP ip = true.
Proof.
  intros ip H4. subst ip.
  unfold listed, in_cidr, groups, be_value. simpl fold_left.
  change (2 ^ (128 - 7))%N with 2658455991569831745807614120560689152%N.
  change (2 ^ (128 - 10))%N with 332306998946228968225951765070086144%N.
  pose proof (to_N_le b0). pose proof (to_N_le b1). pose proof (to_N_le b2).
  pose proof (to_N_le b3). pose proof (to_N_le b4). pose proof (to_N_le b5).
  pose proof (to_N_le b6). pose proof (to_N_le b7). pose proof (to_N_le b8).
  pose proof (to_N_le b9). pose proof (to_N_le b10). pose proof (to_N_le b11).
  pose proof (to_N_le b12). pose proof (to_N_le b13). pose proof (to_N_le b14).
  pose proof (to_N_le b15).
  intros [E|[E|E]].
  - assert (b0 = x00) as -> by (apply to_N_inj; change (to_N x00) with 0%N; lia).
    assert (b1 = x00) as -> by (apply to_N_inj; change (to_N x00) with 0%N; lia).
    assert (b2 = x00) as -> by (apply to_N_inj; change (to_N x00) with 0%N; lia).
    assert (b3 = x00) as -> by (apply to_N_inj; change (to_N x00) with 0%N; lia).
    assert (b4 = x00) as -> by (apply to_N_inj; change (to_N x00) with 0%N; lia).
    assert (b5 = x00) as -> by (apply to_N_inj; change (to_N x00) with 0%N; lia).
    assert (b6 = x00) as -> by (apply to_N_inj; change (to_N x00) with 0%N; lia).
    assert (b7 = x00) as -> by (apply to_N_inj; change (to_N x00) with 0%N; lia).
    assert (b8 = x00) as -> by (apply to_N_inj; change (to_N x00) with 0%N; lia).
    assert (b9 = x00) as -> by (apply to_N_inj; change (to_N x00) with 0%N; lia).
    assert (b10 = x00) as -> by (apply to_N_inj; change (to_N x00) with 0%N; lia).
    assert (b11 = x00) as -> by (apply to_N_inj; change (to_N x00) with 0%N; lia).
    assert (b12 = x00) as -> by (apply to_N_inj; change (to_N x00) with 0%N; lia).
    assert (b13 = x00) as -> by (apply to_N_inj; change (to_N x00) with 0%N; lia).
    assert (b14 = x00) as -> by (apply to_N_inj; change (to_N x00) with 0%N; lia).
    assert (b15 = x01) as -> by (apply to_N_inj; change (to_N x01) with 1%N; lia).
    reflexivity.
  - apply (isPrivateIP_inRange _ "fc00::/7"); [simpl; tauto|].
    rewrite (inRange_v6 _ _ _ cidr_fc00) by (reflexivity || assumption).
    cbn [masked_eq netIP netMask hd tl]. byte_consts.
    rewrite !N.land_0_r, land_254_252. rewrite !N.eqb_refl, !andb_true_r.
    rewrite andb_true_iff, !N.leb_le. lia.
  - apply isPrivateIP_linklocal. unfold IsLinkLocalUnicast. rewrite H4.
    unfold at_. cbn [length Nat.eqb IPv6len nth andb]. rewrite land_192_128.
    rewrite !andb_true_iff, N.eqb_eq, !N.leb_le. lia.
Qed.

Lemma private_listed (ip : IP) : in_listed_ranges ip -> isPrivateIP ip = true.
Proof.
  intros [a [Ha Hc]]. unfold addr_of_IP in Ha.
  destruct (length ip =? 4)%nat eqn:E4.
  - apply Nat.eqb_eq in E4. injection Ha as <-.
    do 4 (destruct ip as [|? ip]; [discriminate E4|]).
    destruct ip; [|discriminate E4]. now apply private_v4.
  - destruct (length ip =? 16)%nat eqn:E16; [|discriminate].
    apply Nat.eqb_eq in E16.
    do 16 (destruct ip as [|? ip]; [discriminate E16|]).
    destruct ip; [|discriminate E16].
    pose proof (To4_16 b b0 b1 b2 b3 b4 b5 b6 b7 b8 b9 b10 b11 b12 b13 b14) as HT.
    cbn [take drop] in Ha.
    destruct (bytes_eqb _ v4InV6Prefix).
    + injection Ha as <-. rewrite (isPrivateIP_To4 _ _ HT). now apply private_v4.
    + injection Ha as <-. now apply private_v6_bytes.
Qed.

End PrivateIP.

(** ** The URL safety validator *)
Section ValidatorProperties.
Import Net Url Validator Spec.

Variable resolver : Resolver.

Lemma scheme_accepted_test (parsed : URL) :
  scheme_accepted parsed ->
  negb (String.eqb (Strs.ToLower (Scheme parsed)) "http")
  && negb (String.eqb (Strs.ToLower (Scheme parsed)) "https") = false.
Proof. intros [-> | ->]; reflexivity. Qed.

Lemma scheme_rejected_test (parsed : URL) :
  Strs.ToLower (Scheme parsed) <> "http" ->
  Strs.ToLower (Scheme parsed) <> "https" ->
  negb (String.eqb (Strs.ToLower (Scheme parsed)) "http")
  && negb (String.eqb (Strs.ToLower (Scheme parsed)) "https") = true.
Proof.
  intros H1 H2. apply String.eqb_neq in H1, H2. now rewrite H1, H2.
Qed.

(** With private addresses not allowed, the loop over the addresses stops
    at the first private one. *)
Lemma checkIPs_first_private (ips : list IP) :
  Exists (fun ip => isPrivateIP ip = true) ips ->
  exists ip, In ip ips /\ isPrivateIP ip = true
             /\ checkIPs ips false = Some (errPrivateIP ip).
Proof.
  induction ips as [|ip ips IH]; intros HE.
  - inversion HE.
  - simpl. destruct (isPrivateIP ip) eqn:E.
    + exists ip. simpl. auto.
    + inversion HE as [? ? H | ? ? H]; subst; [congruence|].
      destruct (IH H) as [ip' [Hin [Hp Hc]]]. exists ip'. simpl. auto.
Qed.

Lemma checkIPs_allowed (ips : list IP) : checkIPs ips true = None.
Proof. induction ips as [|ip ips IH]; simpl; [reflexivity|]. now destruct (isPrivateIP ip). Qed.

(** Whatever the flags, a URL some of whose addresses are private is not
    allowed when private addresses are not. *)
Lemma private_address_blocked (url : string) (parsed : URL) (ips : list IP)
    (allowLocalhost : bool) :
  Parse url = Ok parsed ->
  LookupIP resolver (Hostname parsed) = Ok ips ->
  Exists (fun ip => isPrivateIP ip = true) ips ->
  exists err,
    ValidateExecutionURL resolver url allowLocalhost false = Some err
    /\ (err = errorString ("unsupported URL scheme: " +:+ Scheme parsed)
        \/ err = errorString "URL must contain a hostname"
        \/ err = errorString "requests to localhost are not allowed"
        \/ exists ip, In ip ips /\ isPrivateIP ip = true /\ err = errPrivateIP ip).
Proof.
  intros HP HL HE.
  unfold ValidateExecutionURL, ValidateExecutionURL_run. rewrite HP.
  destruct (negb _ && negb _); [simpl; eauto|].
  destruct (String.eqb (Hostname parsed) ""); [simpl; eauto|].
  destruct (isLocalhost (Hostname parsed) && negb allowLocalhost); [simpl; eauto 6|].
  rewrite HL. simpl.
  destruct (checkIPs_first_private ips HE) as [ip [Hin [Hp Hc]]].
  rewrite Hc. eexists; split; [reflexivity|]. right; right; right. eauto.
Qed.

(** C1. For every URL whose hostname resolves to a non-empty list of
    addresses that all lie in 127.0.0.0/8, 10.0.0.0/8, 172.16.0.0/12,
    192.168.0.0/16, 169.254.0.0/16, ::1, fc00::/7 or fe80::/10,
    ValidateExecutionURL with allowPrivateIPs false returns an error, for
    either value of allowLocalhost; the error is that of the scheme, of the
    missing host name, of localhost, or it names a resolved address. *)
Theorem private_ranges_blocked (url : string) (parsed : URL) (ips : list IP)
    (allowLocalhost : bool) :
  Parse url = Ok parsed ->
  LookupIP resolver (Hostname parsed) = Ok ips ->
  ips <> [] ->
  Forall in_listed_ranges ips ->
  exists err,
    ValidateExecutionURL resolver url allowLocalhost false = Some err
    /\ (err = errorString ("unsupported URL scheme: " +:+ Scheme parsed)
        \/ err = errorString "URL must contain a hostname"
        \/ err = errorString "requests to localhost are not allowed"
        \/ exists ip, In ip ips /\ isPrivateIP ip = true /\ err = errPrivateIP ip).
Proof.
  intros HP HL Hne HF.
  apply (private_address_blocked url parsed ips); try assumption.
  destruct ips as [|ip ips]; [congruence|].
  apply Exists_cons_hd. apply private_listed. now inversion HF.
Qed.

(** C3. For every URL whose scheme, compared without regard to case, is
    neither http nor https, ValidateExecutionURL returns the unsupported
    scheme error without looking up any name, whatever the two flags are. *)
Theorem other_schemes_blocked (url : string) (parsed : URL)
    (allowLocalhost allowPrivateIPs : bool) :
  Parse url = Ok parsed ->
  Strs.ToLower (Scheme parsed) <> "http" ->
  Strs.ToLower (Scheme parsed) <> "https" ->
  ValidateExecutionURL_run resolver url allowLocalhost allowPrivateIPs
  = ([], Some (errorString ("unsupported URL scheme: " +:+ Scheme parsed)))
  /\ ValidateExecutionURL resolver url allowLocalhost allowPrivateIPs
     = ValidateExecutionURL resolver url false false.
Proof.
  intros HP H1 H2. unfold ValidateExecutionURL, ValidateExecutionURL_run.
  rewrite HP, (scheme_rejected_test parsed H1 H2). split; reflexivity.
Qed.

(** C4. The metadata URL is rejected with the private address error that
    names 169.254.169.254 when allowPrivateIPs is false, whatever
    allowLocalhost is; the address is a literal, so the resolver is not
    asked. *)
Theorem metadata_url_blocked (allowLocalhost : bool) :
  ValidateExecutionURL resolver "http://169.254.169.254/latest/meta-data"
    allowLocalhost false
  = Some (errorString "requests to private IP ranges are not allowed: 169.254.169.254")
  /\ isPrivateIP (IPv4 169 254 169 254) = true
  /\ LookupIP resolver "169.254.169.254" = Ok [IPv4 169 254 169 254].
Proof. destruct allowLocalhost; repeat split; reflexivity. Qed.

Lemma isLocalhost_alias (hostname : string) :
  localhost_alias (Strs.ToLower hostname) -> isLocalhost hostname = true.
Proof.
  unfold isLocalhost.
  intros [H|[H|[H|[[rest H]|[H|H]]]]]; rewrite H; try reflexivity.
  assert (Strs.HasPrefix ("127." +:+ rest) "127." = true) as ->.
  { unfold Strs.HasPrefix. simpl. now destruct rest. }
  now rewrite !orb_true_r.
Qed.

(** The aliases as isLocalhost meets them. When the name that Hostname()
    gives for a URL (the brackets of an IPv6 literal removed) is, without
    regard to case, one of the listed names and allowLocalhost is false, the
    URL is rejected and no name is looked up; the checks run in order, so
    the rejection is the localhost one as soon as the scheme is http or
    https. *)
Lemma localhost_alias_blocked (url : string) (parsed : URL) (allowPrivateIPs : bool) :
  Parse url = Ok parsed ->
  localhost_alias (Strs.ToLower (Hostname parsed)) ->
  lookups resolver url false allowPrivateIPs = []
  /\ (exists err, ValidateExecutionURL resolver url false allowPrivateIPs = Some err)
  /\ (scheme_accepted parsed ->
      ValidateExecutionURL resolver url false allowPrivateIPs
      = Some (errorString "requests to localhost are not allowed")).
Proof.
  intros HP HA. pose proof (isLocalhost_alias _ HA) as HL.
  assert (String.eqb (Hostname parsed) "" = false) as HN.
  { apply String.eqb_neq. intros E. rewrite E in HL. discriminate. }
  unfold lookups, ValidateExecutionURL, ValidateExecutionURL_run. rewrite HP.
  destruct (negb _ && negb _) eqn:ES.
  - repeat split; simpl; eauto.
    intros HS. rewrite (scheme_accepted_test _ HS) in ES. discriminate.
  - rewrite HN, HL. simpl. repeat split; eauto.
Qed.

(** C10. With allowLocalhost true and allowPrivateIPs false, a URL one of
    whose resolved addresses is classified as private (loopback included) is
    still rejected: once the scheme and the host name are accepted, the
    name is looked up and the rejection names a private address. The same
    URL is allowed only when allowPrivateIPs is true as well. *)
Theorem allowLocalhost_keeps_loopback_blocked (url : string) (parsed : URL)
    (ips : list IP) :
  Parse url = Ok parsed ->
  LookupIP resolver (Hostname parsed) = Ok ips ->
  Exists (fun ip => isPrivateIP ip = true) ips ->
  (exists err, ValidateExecutionURL resolver url true false = Some err)
  /\ (scheme_accepted parsed -> Hostname parsed <> "" ->
      (exists ip, In ip ips /\ isPrivateIP ip = true
                  /\ ValidateExecutionURL_run resolver url true false
                     = ([Hostname parsed], Some (errPrivateIP ip)))
      /\ ValidateExecutionURL resolver url true true = None).
Proof.
  intros HP HL HE. split.
  - destruct (private_address_blocked url parsed ips true HP HL HE) as [err [H _]]. eauto.
  - intros HS HN. apply String.eqb_neq in HN.
    unfold ValidateExecutionURL, ValidateExecutionURL_run.
    rewrite HP, (scheme_accepted_test _ HS), HN, HL, andb_false_r. simpl.
    split; [|apply checkIPs_allowed].
    destruct (checkIPs_first_private ips HE) as [ip [Hin [Hp Hc]]].
    exists ip. now rewrite Hc.
Qed.

End ValidatorProperties.


(** ** The validator on concrete URLs *)
Section ValidatorExamples.
Import Net Url Validator Spec Examples.

Lemma private_ranges_blocked_witness :
  exists err,
    ValidateExecutionURL example_resolver "http://intranet.example/" true false = Some err
    /\ (err = errorString ("unsupported URL scheme: " +:+ "http")
        \/ err = errorString "URL must contain a hostname"
        \/ err = errorString "requests to localhost are not allowed"
        \/ exists ip, In ip [IPv4 10 0 0 5] /\ isPrivateIP ip = true
                      /\ err = errPrivateIP ip).
Proof.
  apply (private_ranges_blocked example_resolver "http://intranet.example/"
           (mkURL "http" "" None "intranet.example" "/" false "" "")
           [IPv4 10 0 0 5] true).
  - reflexivity.
  - reflexivity.
  - discriminate.
  - constructor; [|constructor].
    exists (V4 (quad 10 0 0 5)). split; [reflexivity|].
    right; left. unfold in_cidr. vm_compute. split; [discriminate|reflexivity].
Defined.

Lemma other_schemes_blocked_witness :
  ValidateExecutionURL_run example_resolver "file://x" true true
  = ([], Some (errorString "unsupported URL scheme: file"))
  /\ ValidateExecutionURL example_resolver "file://x" true true
     = ValidateExecutionURL example_resolver "file://x" false false.
Proof.
  apply (other_schemes_blocked example_resolver "file://x"
           (mkURL "file" "" None "x" "" false "" "") true true).
  - reflexivity.
  - discriminate.
  - discriminate.
Defined.

(** The three URLs the specification lists, under every resolver and
    every setting of the flags. *)
Example listed_schemes_blocked (resolver : Resolver) (allowLocalhost allowPrivateIPs : bool) :
  ValidateExecutionURL resolver "file://x" allowLocalhost allowPrivateIPs
  = Some (errorString "unsupported URL scheme: file")
  /\ ValidateExecutionURL resolver "ftp://x" allowLocalhost allowPrivateIPs
     = Some (errorString "unsupported URL scheme: ftp")
  /\ ValidateExecutionURL resolver "ws://x" allowLocalhost allowPrivateIPs
     = Some (errorString "unsupported URL scheme: ws").
Proof. repeat split; reflexivity. Qed.

Lemma localhost_alias_blocked_witness :
  lookups example_resolver "http://LocalHost:8080/admin" false true = []
  /\ ValidateExecutionURL example_resolver "http://LocalHost:8080/admin" false true
     = Some (errorString "requests to localhost are not allowed").
Proof.
  destruct (localhost_alias_blocked example_resolver "http://LocalHost:8080/admin"
              (mkURL "http" "" None "LocalHost:8080" "/admin" false "" "") true)
    as [H1 [_ H3]].
  - reflexivity.
  - left. reflexivity.
  - split; [exact H1|]. apply H3. left. reflexivity.
Defined.

(** The aliases of the list that a URL can carry, each in a URL, with
    allowLocalhost false. *)
Example listed_aliases_blocked (resolver : Resolver) (allowPrivateIPs : bool) :
  Forall (fun url =>
            ValidateExecutionURL_run resolver url false allowPrivateIPs
            = ([], Some (errorString "requests to localhost are not allowed")))
         [ "http://localhost/"; "http://127.0.0.1/"; "http://[::1]/";
           "http://127.9.9.9:81/"; "http://127.example/"; "http://0.0.0.0/" ].
Proof. repeat constructor. Qed.

Lemma allowLocalhost_keeps_loopback_blocked_witness :
  (exists err, ValidateExecutionURL example_resolver "http://localhost/" true false = Some err)
  /\ (exists ip, In ip [IPv4 127 0 0 1] /\ isPrivateIP ip = true
                 /\ ValidateExecutionURL_run example_resolver "http://localhost/" true false
                    = (["localhost"], Some (errPrivateIP ip)))
  /\ ValidateExecutionURL example_resolver "http://localhost/" true true = None.
Proof.
  destruct (allowLocalhost_keeps_loopback_blocked example_resolver "http://localhost/"
              (mkURL "http" "" None "localhost" "/" false "" "") [IPv4 127 0 0 1])
    as [H1 H2].
  - reflexivity.
  - reflexivity.
  - apply Exists_cons_hd. reflexivity.
  - split; [exact H1|]. apply H2.
    + left. reflexivity.
    + discriminate.
Defined.

(** A host in brackets must be an IPv6 literal: other texts, a dotted
    quad included, are rejected by the parser. *)
Example bracketed_host_must_be_literal (resolver : Resolver)
    (allowLocalhost allowPrivateIPs : bool) :
  Forall (fun url =>
            exists err,
              Parse url = Err err
              /\ ValidateExecutionURL_run resolver url allowLocalhost allowPrivateIPs
                 = ([], Some (wrapError "invalid URL: " err)))
         [ "http://[localhost]/"; "http://[::00001]/"; "http://[[::]]/";
           "http://[127.0.0.1]/" ].
Proof. repeat constructor; eexists; split; reflexivity. Qed.

(** A literal with an embedded dotted quad or with a zone is classified
    as it stands: the resolver is not asked. *)
Example mapped_and_zoned_literals_blocked (resolver : Resolver) (allowLocalhost : bool) :
  ValidateExecutionURL_run resolver "http://[::ffff:127.0.0.1]/" allowLocalhost false
  = (["::ffff:127.0.0.1"],
     Some (errorString "requests to private IP ranges are not allowed: 127.0.0.1"))
  /\ ValidateExecutionURL_run resolver "http://[fe80::1%25eth0]/" allowLocalhost false
     = (["fe80::1%eth0"],
        Some (errorString "requests to private IP ranges are not allowed: fe80::1")).
Proof. destruct allowLocalhost; split; reflexivity. Qed.

(** C6. The alias [::] is not blocked. The URL http://[::]/ has the host
    [::], which the list of aliases names and isLocalhost compares with,
    yet ValidateExecutionURL allows it with both flags false, under every
    resolver: Hostname() gives the name without the brackets, the
    comparison of isLocalhost is made on that name and fails, and the
    unspecified address, a literal that is looked up without a query, is
    none of the private ones. *)
Theorem unspecified_v6_alias_allowed (resolver : Resolver) :
  (exists parsed,
     Parse "http://[::]/" = Ok parsed
     /\ Host parsed = "[::]"
     /\ localhost_alias (Host parsed)
     /\ isLocalhost (Host parsed) = true
     /\ Hostname parsed = "::"
     /\ isLocalhost (Hostname parsed) = false)
  /\ ValidateExecutionURL_run resolver "http://[::]/" false false = (["::"], None)
  /\ ValidateExecutionURL resolver "http://[::]/" false false = None.
Proof.
  split.
  - exists (mkURL "http" "" None "[::]" "/" false "" "").
    split; [reflexivity|]. split; [reflexivity|].
    split; [repeat right; reflexivity|]. repeat split; reflexivity.
  - split; reflexivity.
Qed.

End ValidatorExamples.

(** ** The redirect loop *)
Local Open Scope list_scope.

Section RedirectLoop.
Import Http.
Variable net : Network.
Variable check : CheckRedirect.

(** One turn of the loop, for any fuel. *)
Lemma do_loop_eq (fuel : nat) (req : Request) (reqs : list Request) :
  do_loop fuel net check req reqs
  = let reqs' := (reqs ++ [req])%list in
    let op := urlErrorOp (Method (hd req reqs)) in
    match transport net reqs req with
    | Err e => (reqs', Some (Err (urlError op (URL req) e)))
    | Ok resp =>
        let '(redirectMethod, shouldRedirect, includeBody) :=
          redirectBehavior (Method req) resp in
        if negb shouldRedirect then (reqs', Some (Ok resp))
        else
          let loc := Get (RespHeader resp) "Location" in
          if String.eqb loc "" then (reqs', Some (Ok resp))
          else
            match resolveReference net (URL req) loc with
            | Err e =>
                (reqs',
                 Some (Err (urlError op (URL req)
                              (errorString ("failed to parse Location header "
                                            +:+ Url.quote loc +:+ ": " +:+ Errors.Error e)))))
            | Ok u =>
                let ireq := hd req reqs in
                let next :=
                  mkRequest redirectMethod u (redirectHeader net reqs' u)
                            (if includeBody then Body ireq else None) in
                match check next reqs' with
                | Some err => (reqs', Some (Err (urlError op loc err)))
                | None =>
                    match fuel with
                    | O => (reqs', None)
                    | S fuel' => do_loop fuel' net check next reqs'
                    end
                end
            end
    end.
Proof. destruct fuel; reflexivity. Qed.

Lemma hd_snoc (req : Request) (reqs : list Request) :
  head (reqs ++ [req]) = Some (hd req reqs).
Proof. destruct reqs; reflexivity. Qed.

(** A property of the list of requests sent that holds when the first
    request is sent, and that every hop the policy lets through keeps,
    holds of the requests of the whole call. *)
Lemma do_loop_invariant (P : list Request -> Prop) :
  (forall reqs ireq m u h (ib : bool),
      head reqs = Some ireq -> P reqs ->
      check (mkRequest m u h (if ib then Body ireq else None)) reqs = None ->
      P (reqs ++ [mkRequest m u h (if ib then Body ireq else None)])) ->
  forall fuel req reqs,
    P (reqs ++ [req]) -> P (fst (do_loop fuel net check req reqs)).
Proof.
  intros Hstep fuel. induction fuel as [|fuel IH]; intros req reqs HP;
    rewrite do_loop_eq; cbv zeta;
    destruct (transport net reqs req) as [resp|e]; try exact HP;
    destruct (redirectBehavior (Method req) resp) as [[m sr] ib];
    destruct sr; try exact HP; cbn [negb];
    destruct (String.eqb _ ""); try exact HP;
    destruct (resolveReference net (URL req) _) as [u|e]; try exact HP;
    destruct (check _ _) eqn:EC; try exact HP.
  apply IH. apply (Hstep _ (hd req reqs)); auto using hd_snoc.
Qed.

(** A policy that refuses every hop once [bound] requests were sent ends
    the loop before the fuel does. *)
Lemma do_loop_total (bound : nat) :
  (forall next via, bound <= length via -> check next via <> None) ->
  forall fuel req reqs,
    bound <= fuel + S (length reqs) ->
    snd (do_loop fuel net check req reqs) <> None.
Proof.
  intros Hb fuel. induction fuel as [|fuel IH]; intros req reqs HL;
    rewrite do_loop_eq; cbv zeta;
    destruct (transport net reqs req) as [resp|e]; try discriminate;
    destruct (redirectBehavior (Method req) resp) as [[m sr] ib];
    destruct sr; try discriminate; cbn [negb];
    destruct (String.eqb _ ""); try discriminate;
    destruct (resolveReference net (URL req) _) as [u|e]; try discriminate;
    destruct (check _ _) eqn:EC; try discriminate.
  - exfalso. revert EC. apply Hb. rewrite length_app. simpl. lia.
  - apply IH. rewrite length_app. simpl. lia.
Qed.

(** Under such a policy at most [bound] requests are sent, the first one
    apart. *)
Lemma do_loop_length (bound : nat) :
  (forall next via, bound <= length via -> check next via <> None) ->
  forall fuel req reqs,
    S (length reqs) <= bound ->
    length (fst (do_loop fuel net check req reqs)) <= bound.
Proof.
  intros Hb fuel. induction fuel as [|fuel IH]; intros req reqs HL;
    assert (length (reqs ++ [req]) <= bound) as HL' by (rewrite length_app; simpl; lia);
    rewrite do_loop_eq; cbv zeta;
    destruct (transport net reqs req) as [resp|e]; try exact HL';
    destruct (redirectBehavior (Method req) resp) as [[m sr] ib];
    destruct sr; try exact HL'; cbn [negb];
    destruct (String.eqb _ ""); try exact HL';
    destruct (resolveReference net (URL req) _) as [u|e]; try exact HL';
    destruct (check _ _) eqn:EC; try exact HL'.
  apply IH.
  destruct (Nat.le_gt_cases bound (length (reqs ++ [req]))) as [H|H].
  - exfalso. revert EC. now apply Hb.
  - lia.
Qed.

(** The requests sent begin with the first request. *)
Lemma do_loop_prefix (fuel : nat) (req : Request) (reqs : list Request) :
  exists rest, fst (do_loop fuel net check req reqs) = (reqs ++ req :: rest)%list.
Proof.
  revert req reqs. induction fuel as [|fuel IH]; intros req reqs;
    rewrite do_loop_eq; cbv zeta;
    destruct (transport net reqs req) as [resp|e]; try (now exists []);
    destruct (redirectBehavior (Method req) resp) as [[m sr] ib];
    destruct sr; try (now exists []); cbn [negb];
    destruct (String.eqb _ ""); try (now exists []);
    destruct (resolveReference net (URL req) _) as [u|e]; try (now exists []);
    destruct (check _ _) eqn:EC; try (now exists []).
  destruct (IH (mkRequest m u (redirectHeader net (reqs ++ [req]) u)
                  (if ib then Body (hd req reqs) else None)) (reqs ++ [req])%list)
    as [rest Hr].
  exists (mkRequest m u (redirectHeader net (reqs ++ [req]) u)
            (if ib then Body (hd req reqs) else None) :: rest).
  rewrite Hr, <- app_assoc. reflexivity.
Qed.

(** A call that ends with a response ends with the answer of the
    transport to the last request sent. *)
Lemma do_loop_response (fuel : nat) (req : Request) (reqs sent : list Request)
    (resp : Response) :
  do_loop fuel net check req reqs = (sent, Some (Ok resp)) ->
  exists pre last, sent = pre ++ [last] /\ transport net pre last = Ok resp.
Proof.
  revert req reqs. induction fuel as [|fuel IH]; intros req reqs;
    rewrite do_loop_eq; cbv zeta;
    destruct (transport net reqs req) as [resp'|e] eqn:ET; try discriminate;
    destruct (redirectBehavior (Method req) resp') as [[m sr] ib];
    (destruct sr; cbn [negb]; [|intros [= <- <-]; eauto]);
    (destruct (String.eqb _ ""); [intros [= <- <-]; eauto|]);
    destruct (resolveReference net (URL req) _) as [u|e]; try discriminate;
    destruct (check _ _) eqn:EC; try discriminate.
  apply IH.
Qed.

(** The hops of a call carry the body of the first request or none. *)
Lemma do_loop_bodies (fuel : nat) (req : Request) :
  Forall (fun r => Body r = None \/ Body r = Body req)
         (fst (do_loop fuel net check req [])).
Proof.
  apply (do_loop_invariant
           (fun l => head l = Some req
                     /\ Forall (fun r => Body r = None \/ Body r = Body req) l)).
  - intros reqs ireq m u h ib Hh [Hh' HF] _. split.
    + destruct reqs; [discriminate|exact Hh'].
    + apply Forall_app. split; [exact HF|]. constructor; [|constructor].
      rewrite Hh in Hh'. injection Hh' as ->. destruct ib; simpl; auto.
  - simpl. split; [reflexivity|]. constructor; [auto|constructor].
Qed.

(** The methods of the hops: that of the hop before, or GET. *)
Lemma do_loop_methods (P : string -> Prop) (fuel : nat) (req : Request) :
  P "GET" -> P (Method req) ->
  Forall (fun r => P (Method r)) (fst (do_loop fuel net check req [])).
Proof.
  intros HG HM.
  assert (forall fuel req reqs,
             Forall (fun r => P (Method r)) (reqs ++ [req]) ->
             Forall (fun r => P (Method r)) (fst (do_loop fuel net check req reqs))) as H.
  { clear fuel req HM. intros fuel. induction fuel as [|fuel IH]; intros req reqs HP;
      rewrite do_loop_eq; cbv zeta;
      destruct (transport net reqs req) as [resp|e]; try exact HP;
      destruct (redirectBehavior (Method req) resp) as [[m sr] ib] eqn:ER;
      destruct sr; try exact HP; cbn [negb];
      destruct (String.eqb _ ""); try exact HP;
      destruct (resolveReference net (URL req) _) as [u|e]; try exact HP;
      destruct (check _ _) eqn:EC; try exact HP.
    apply IH. apply Forall_app. split; [exact HP|]. constructor; [|constructor].
    simpl. apply Forall_app in HP. destruct HP as [_ HP]. inversion HP as [|? ? Hreq _]; subst.
    unfold redirectBehavior in ER.
    destruct (_ || _ || _); [|destruct (_ || _)]; try discriminate.
    - injection ER as <- _. destruct (negb _ && negb _); assumption.
    - injection ER as <- _. assumption. }
  apply H. simpl. constructor; [assumption|constructor].
Qed.

(** Against a target that keeps redirecting, a policy that lets good
    targets through until [n] requests were sent and then stops makes the
    call send exactly [n] requests and end with the error of the stop. *)
Lemma do_loop_always_redirecting (n : nat) (stop : error) (good : string -> Prop) :
  (forall next via, n <= length via -> check next via = Some stop) ->
  (forall next via, length via < n -> good (URL next) -> check next via = None) ->
  Spec.always_redirects net n good ->
  forall fuel req reqs,
    length reqs < n -> n <= fuel + S (length reqs) ->
    exists loc,
      length (fst (do_loop fuel net check req reqs)) = n
      /\ snd (do_loop fuel net check req reqs)
         = Some (Err (urlError (urlErrorOp (Method (hd req reqs))) loc stop)).
Proof.
  intros Hstop Hpass Hred fuel.
  induction fuel as [|fuel IH]; intros req reqs Hlt Hfuel;
    destruct (Hred reqs req Hlt) as [resp [m [ib [u [HT [HR [HL [HRes Hgood]]]]]]]];
    apply String.eqb_neq in HL;
    rewrite do_loop_eq; cbv zeta; rewrite HT, HR; cbn [negb]; rewrite HL, HRes.
  - rewrite Hstop by (rewrite length_app; simpl; lia).
    eexists. split; [|reflexivity]. simpl. rewrite length_app. simpl. lia.
  - destruct (Nat.eq_dec (S (length reqs)) n) as [E|E].
    + rewrite Hstop by (rewrite length_app; simpl; lia).
      eexists. split; [|reflexivity]. simpl. rewrite length_app. simpl. lia.
    + rewrite Hpass by (try (rewrite length_app; simpl; lia); exact Hgood).
      destruct (IH (mkRequest m u (redirectHeader net (reqs ++ [req]) u)
                      (if ib then Body (hd req reqs) else None)) (reqs ++ [req]))
        as [loc [H1 H2]]; try (rewrite length_app; simpl; lia).
      exists loc. split; [exact H1|]. rewrite H2.
      destruct reqs; reflexivity.
Qed.

End RedirectLoop.

(** ** The public engine *)
Section PublicEngine.
Import Http Handlers Spec.
Variable w : World.
Variable cfg : Config.

Lemma checkRedirect_stops (req : Request) (via : list Request) :
  (MaxRedirects cfg <= Z.of_nat (length via))%Z ->
  checkRedirect w cfg req via
  = Some (errorString ("stopped after " +:+ Http.itoa (MaxRedirects cfg) +:+ " redirects")).
Proof. intros H. unfold checkRedirect. apply Z.leb_le in H. now rewrite H. Qed.



Lemma checkRedirect_bound (next : Request) (via : list Request) :
  Z.to_nat (MaxRedirects cfg) <= length via -> checkRedirect w cfg next via <> None.
Proof. intros H. rewrite checkRedirect_stops; [discriminate|lia]. Qed.

Lemma NewRequest_ok (method url : string) (body : option string) (req : Request) :
  NewRequest method url body = Ok req ->
  Method req = (if String.eqb method "" then "GET" else method)
  /\ URL req = url /\ Body req = body.
Proof.
  unfold NewRequest. destruct (negb (validMethod _)); [discriminate|].
  destruct (Url.Parse url); [|discriminate]. intros [= <-]. auto.
Qed.

Lemma setHeaders_fields (headers : gmap string string) (req : Request) :
  Method (setHeaders headers req) = Method req
  /\ URL (setHeaders headers req) = URL req
  /\ Body (setHeaders headers req) = Body req.
Proof. auto. Qed.

(** The requests [executeHTTPRequest] hands to the transport. *)
Lemma executeHTTPRequest_sent (method urlStr : string) (headers : gmap string string)
    (bodyStr : string) :
  fst (executeHTTPRequest w cfg method urlStr headers bodyStr)
  = match NewRequest method urlStr (bodyReader method bodyStr) with
    | Err _ => []
    | Ok req0 =>
        fst (Do (fuelFor (MaxRedirects cfg)) (network w) (checkRedirect w cfg)
                (setHeaders headers req0))
    end.
Proof.
  unfold executeHTTPRequest. destruct (NewRequest _ _ _); [|reflexivity].
  destruct (Do _ _ _ _) as [sent [[resp|e]|]]; reflexivity.
Qed.

(** The engine always ends. *)
Lemma executeHTTPRequest_total (method urlStr : string) (headers : gmap string string)
    (bodyStr : string) :
  snd (executeHTTPRequest w cfg method urlStr headers bodyStr) <> None.
Proof.
  unfold executeHTTPRequest. destruct (NewRequest _ _ _) as [req0|]; [|discriminate].
  pose proof (do_loop_total (network w) (checkRedirect w cfg) (Z.to_nat (MaxRedirects cfg))
                checkRedirect_bound (fuelFor (MaxRedirects cfg))
                (setHeaders headers req0) []) as H.
  unfold Do. destruct (do_loop _ _ _ _ _) as [sent [[resp|e]|]]; try discriminate.
  exfalso. apply H; [unfold fuelFor; simpl; lia|reflexivity].
Qed.


Lemma prepare_call (lookup : Lookup) (payload : option (result (gmap string JValue)))
    (call : EngineCall) :
  prepare w cfg lookup payload = inr call ->
  allowed_url w cfg (callURL call)
  /\ exists item, lookup = Row item /\ Models.Method item = Some (callMethod call).
Proof.
  unfold prepare. destruct lookup as [| | |item]; try discriminate.
  destruct (negb _); [discriminate|].
  destruct (match payload with None => _ | Some _ => _ end); [|discriminate].
  destruct (Models.Method item) as [method|] eqn:EM; [|discriminate].
  destruct (String.eqb _ ""); [discriminate|].
  destruct (Validator.ValidateExecutionURL _ _ _ _) eqn:EV; [discriminate|].
  intros [= <-]. simpl. split; [exact EV|]. eauto.
Qed.

Lemma ExecuteRequest_sent (lookup : Lookup) (payload : option (result (gmap string JValue)))
    (durationMs : Z) :
  fst (ExecuteRequest w cfg lookup payload durationMs)
  = match prepare w cfg lookup payload with
    | inl _ => []
    | inr call =>
        fst (executeHTTPRequest w cfg (callMethod call) (callURL call)
               (callHeaders call) (callBody call))
    end.
Proof.
  unfold ExecuteRequest. destruct (prepare _ _ _ _) as [reply|call]; [reflexivity|].
  destruct (executeHTTPRequest _ _ _ _ _ _) as [sent [[resp|e]|]]; reflexivity.
Qed.

(** The handler always replies. *)
Lemma ExecuteRequest_total (lookup : Lookup) (payload : option (result (gmap string JValue)))
    (durationMs : Z) :
  snd (ExecuteRequest w cfg lookup payload durationMs) <> None.
Proof.
  unfold ExecuteRequest. destruct (prepare _ _ _ _) as [|call]; [discriminate|].
  pose proof (executeHTTPRequest_total (callMethod call) (callURL call)
                (callHeaders call) (callBody call)) as H.
  destruct (executeHTTPRequest _ _ _ _ _ _) as [sent [[resp|e]|]]; try discriminate.
  now exfalso.
Qed.


Lemma supportsBody_verbs (method : string) :
  supportsBody method = true ->
  Strs.ToUpper method = "POST" \/ Strs.ToUpper method = "PUT"
  \/ Strs.ToUpper method = "PATCH" \/ Strs.ToUpper method = "DELETE".
Proof.
  unfold supportsBody. rewrite !orb_true_iff, !String.eqb_eq. tauto.
Qed.

Lemma bodyReader_some (method bodyStr b : string) :
  bodyReader method bodyStr = Some b ->
  supportsBody method = true /\ bodyStr <> "" /\ b = bodyStr.
Proof.
  unfold bodyReader. destruct (String.eqb bodyStr "") eqn:E; [discriminate|].
  destruct (supportsBody method); [|discriminate]. intros [= <-].
  apply String.eqb_neq in E. auto.
Qed.

Lemma bodyReader_get (method bodyStr : string) :
  Strs.ToUpper method = "GET" -> bodyReader method bodyStr = None.
Proof.
  intros H. unfold bodyReader, supportsBody. rewrite H. simpl.
  now rewrite andb_false_r.
Qed.

(** The body of every request the public engine sends is that of the
    body reader, or none. *)
Lemma executeHTTPRequest_bodies (method urlStr : string) (headers : gmap string string)
    (bodyStr : string) :
  Forall (fun r => Body r = None \/ Body r = bodyReader method bodyStr)
         (fst (executeHTTPRequest w cfg method urlStr headers bodyStr)).
Proof.
  rewrite executeHTTPRequest_sent.
  destruct (NewRequest _ _ _) as [req0|] eqn:EN; [|constructor].
  apply NewRequest_ok in EN. destruct EN as [_ [_ EB]].
  pose proof (do_loop_bodies (network w) (checkRedirect w cfg)
                (fuelFor (MaxRedirects cfg)) (setHeaders headers req0)) as H.
  change (Body (setHeaders headers req0)) with (Body req0) in H.
  rewrite EB in H. exact H.
Qed.

(** The methods of the requests the public engine sends: the method it
    was called with, or GET. *)
Lemma executeHTTPRequest_methods (P : string -> Prop) (method urlStr : string)
    (headers : gmap string string) (bodyStr : string) :
  P "GET" -> P method ->
  Forall (fun r => P (Method r))
         (fst (executeHTTPRequest w cfg method urlStr headers bodyStr)).
Proof.
  intros HG HM. rewrite executeHTTPRequest_sent.
  destruct (NewRequest _ _ _) as [req0|] eqn:EN; [|constructor].
  apply NewRequest_ok in EN. destruct EN as [EM _].
  apply do_loop_methods; [exact HG|]. simpl. rewrite EM.
  now destruct (String.eqb method "").
Qed.

(** The public response keeps the first value of every header. *)
Lemma responseHeaders_first (h : Header) (name : string) :
  responseHeaders h !! name = h !! name ≫= head.
Proof.
  unfold responseHeaders.
  apply (map_fold_weak_ind
           (fun (acc : gmap string string) (m : Header) =>
              acc !! name = m !! name ≫= head)).
  - now rewrite !lookup_empty.
  - intros i vs m acc Hi IH. destruct (decide (i = name)) as [->|Hne].
    + rewrite lookup_insert_eq. destruct vs as [|v vs]; simpl.
      * now rewrite IH, Hi.
      * now rewrite lookup_insert_eq.
    + rewrite (lookup_insert_ne m) by exact Hne. destruct vs as [|v vs].
      * exact IH.
      * now rewrite lookup_insert_ne.
Qed.

(** The headers of a successful public response are those of the answer
    to the last request sent, cut to their first values. *)
Lemma executeHTTPRequest_headers (method urlStr : string) (headers : gmap string string)
    (bodyStr : string) (sent : list Request) (response : Models.ExecutionResponse) :
  executeHTTPRequest w cfg method urlStr headers bodyStr = (sent, Some (Ok response)) ->
  exists pre last resp,
    sent = pre ++ [last]
    /\ transport (network w) pre last = Ok resp
    /\ Models.RespHeaders response = responseHeaders (RespHeader resp).
Proof.
  unfold executeHTTPRequest. destruct (NewRequest _ _ _) as [req0|]; [|discriminate].
  unfold Do. destruct (do_loop _ _ _ _ _) as [sent' [[resp|e]|]] eqn:ED; try discriminate.
  intros [= <- <-]. apply do_loop_response in ED.
  destruct ED as [pre [last [-> HT]]]. exists pre, last, resp. auto.
Qed.

End PublicEngine.

(** ** The engine of the agent *)
Section AgentEngine.
Import Http Spec.
Variable net : Network.

Lemma agent_checkRedirect_stops (req : Request) (via : list Request) :
  5 <= length via ->
  Agent.checkRedirect req via = Some (errorString "stopped after 5 redirects").
Proof.
  intros H. unfold Agent.checkRedirect.
  assert ((Agent.MaxRedirects <=? Z.of_nat (length via))%Z = true) as ->.
  { apply Z.leb_le. unfold Agent.MaxRedirects. lia. }
  reflexivity.
Qed.

Lemma agent_checkRedirect_passes (req : Request) (via : list Request) :
  length via < 5 -> Agent.checkRedirect req via = None.
Proof.
  intros H. unfold Agent.checkRedirect.
  assert ((Agent.MaxRedirects <=? Z.of_nat (length via))%Z = false) as ->.
  { apply Z.leb_gt. unfold Agent.MaxRedirects. lia. }
  reflexivity.
Qed.

Lemma agent_sent (execReq : Agent.ExecuteRequest) (startTime endTime : Z) :
  fst (Agent.executeHTTPRequest net execReq startTime endTime)
  = match NewRequest (Agent.Method execReq) (Agent.URL execReq)
            (Agent.bodyReader execReq) with
    | Err _ => []
    | Ok req0 =>
        fst (Do (Handlers.fuelFor Agent.MaxRedirects) net Agent.checkRedirect
                (Handlers.setHeaders (Agent.Headers execReq) req0))
    end.
Proof.
  unfold Agent.executeHTTPRequest. destruct (NewRequest _ _ _); [|reflexivity].
  destruct (Do _ _ _ _) as [sent [[resp|e]|]]; reflexivity.
Qed.

(** The engine of the agent always ends. *)
Lemma agent_total (execReq : Agent.ExecuteRequest) (startTime endTime : Z) :
  snd (Agent.executeHTTPRequest net execReq startTime endTime) <> None.
Proof.
  unfold Agent.executeHTTPRequest. destruct (NewRequest _ _ _) as [req0|]; [|discriminate].
  pose proof (do_loop_total net Agent.checkRedirect 5) as H.
  unfold Do. destruct (do_loop _ _ _ _ _) as [sent [[resp|e]|]] eqn:ED; try discriminate.
  exfalso. eapply H; [| |rewrite ED; reflexivity].
  - intros next via Hv. now rewrite agent_checkRedirect_stops.
  - vm_compute. lia.
Qed.

Lemma agent_bodyReader_some (execReq : Agent.ExecuteRequest) (b : string) :
  Agent.bodyReader execReq = Some b ->
  Agent.supportsBody (Agent.Method execReq) = true
  /\ Agent.Body execReq <> "" /\ b = Agent.Body execReq.
Proof.
  unfold Agent.bodyReader. destruct (String.eqb (Agent.Body execReq) "") eqn:E; [discriminate|].
  destruct (Agent.supportsBody _); [|discriminate]. intros [= <-].
  apply String.eqb_neq in E. auto.
Qed.

Lemma agent_bodyReader_get (execReq : Agent.ExecuteRequest) :
  Strs.ToUpper (Agent.Method execReq) = "GET" -> Agent.bodyReader execReq = None.
Proof.
  intros H. unfold Agent.bodyReader, Agent.supportsBody. rewrite H. simpl.
  now rewrite andb_false_r.
Qed.

Lemma agent_bodies (execReq : Agent.ExecuteRequest) (startTime endTime : Z) :
  Forall (fun r => Body r = None \/ Body r = Agent.bodyReader execReq)
         (fst (Agent.executeHTTPRequest net execReq startTime endTime)).
Proof.
  rewrite agent_sent.
  destruct (NewRequest _ _ _) as [req0|] eqn:EN; [|constructor].
  apply NewRequest_ok in EN. destruct EN as [_ [_ EB]].
  pose proof (do_loop_bodies net Agent.checkRedirect
                (Handlers.fuelFor Agent.MaxRedirects)
                (Handlers.setHeaders (Agent.Headers execReq) req0)) as H.
  change (Body (Handlers.setHeaders (Agent.Headers execReq) req0)) with (Body req0) in H.
  rewrite EB in H. exact H.
Qed.

(** The response of the agent keeps every header with all its values. *)
Lemma agent_responseHeaders_all (h : Header) : Agent.responseHeaders h = h.
Proof.
  unfold Agent.responseHeaders.
  apply (map_fold_weak_ind (fun (acc : Header) (m : Header) => acc = m)).
  - reflexivity.
  - intros i vs m acc _ ->. reflexivity.
Qed.

Lemma agent_headers (execReq : Agent.ExecuteRequest) (startTime endTime : Z)
    (sent : list Request) (response : Agent.ExecuteResponse) :
  Agent.executeHTTPRequest net execReq startTime endTime = (sent, Some (Ok response)) ->
  exists pre last resp,
    sent = pre ++ [last]
    /\ transport net pre last = Ok resp
    /\ Agent.RespHeaders response = RespHeader resp.
Proof.
  unfold Agent.executeHTTPRequest. destruct (NewRequest _ _ _) as [req0|]; [|discriminate].
  unfold Do. destruct (do_loop _ _ _ _ _) as [sent' [[resp|e]|]] eqn:ED; try discriminate.
  intros [= <- <-]. apply do_loop_response in ED.
  destruct ED as [pre [last [-> HT]]]. exists pre, last, resp.
  simpl. rewrite agent_responseHeaders_all. auto.
Qed.

(** The agent sends first the request of its caller, with the method as
    the caller wrote it. *)
Lemma agent_first_request (execReq : Agent.ExecuteRequest) (startTime endTime : Z)
    (parsed : Url.URL) :
  Agent.Method execReq <> "" ->
  validMethod (Agent.Method execReq) = true ->
  Url.Parse (Agent.URL execReq) = Ok parsed ->
  exists first rest,
    fst (Agent.executeHTTPRequest net execReq startTime endTime) = first :: rest
    /\ Method first = Agent.Method execReq
    /\ URL first = Agent.URL execReq.
Proof.
  intros HM HV HP. rewrite agent_sent. unfold NewRequest.
  apply String.eqb_neq in HM. rewrite HM, HV, HP. simpl.
  destruct (do_loop_prefix net Agent.checkRedirect (Handlers.fuelFor Agent.MaxRedirects)
              (Handlers.setHeaders (Agent.Headers execReq)
                 (mkRequest (Agent.Method execReq) (Agent.URL execReq) ∅
                    (Agent.bodyReader execReq))) []) as [rest Hr].
  unfold Do. rewrite Hr. simpl. eauto.
Qed.

End AgentEngine.

(** ** What the engines guarantee *)
Section EngineProperties.
Import Http Spec Examples.

(** C5, as the code has it. With MaxRedirects set to [n], at least 1,
    a call against a target that keeps redirecting to allowed URLs sends
    exactly [n] requests, the first one and [n - 1] redirect hops; the
    redirect met after the [n]-th request is refused with the stopped after
    [n] redirects error and is never followed. The hop limit is tested
    before the validator: once [n] requests were sent the policy answers
    with that error whatever the target is. The agent does the same with
    its limit of 5. *)
Theorem redirect_limit (w : World) (cfg : Config) (n : nat)
    (method urlStr : string) (headers : gmap string string) (bodyStr : string)
    (req0 : Request) :
  MaxRedirects cfg = Z.of_nat n -> 1 <= n ->
  NewRequest method urlStr (Handlers.bodyReader method bodyStr) = Ok req0 ->
  always_redirects (network w) n (allowed_url w cfg) ->
  (length (fst (Handlers.executeHTTPRequest w cfg method urlStr headers bodyStr)) = n
   /\ redirects_followed
        (fst (Handlers.executeHTTPRequest w cfg method urlStr headers bodyStr)) = n - 1
   /\ exists loc,
        snd (Handlers.executeHTTPRequest w cfg method urlStr headers bodyStr)
        = Some (Err (wrapError "request failed: "
                       (urlError (urlErrorOp (Method req0)) loc
                          (errorString ("stopped after " +:+ Http.itoa (Z.of_nat n)
                                        +:+ " redirects"))))))
  /\ (forall req via,
         n <= length via ->
         Handlers.checkRedirect w cfg req via
         = Some (errorString ("stopped after " +:+ Http.itoa (Z.of_nat n) +:+ " redirects")))
  /\ (forall net execReq startTime endTime areq0,
         NewRequest (Agent.Method execReq) (Agent.URL execReq) (Agent.bodyReader execReq)
         = Ok areq0 ->
         always_redirects net 5 (fun _ => True) ->
         length (fst (Agent.executeHTTPRequest net execReq startTime endTime)) = 5
         /\ exists loc,
              snd (Agent.executeHTTPRequest net execReq startTime endTime)
              = Some (Err (wrapError "request failed: "
                             (urlError (urlErrorOp (Method areq0)) loc
                                (errorString "stopped after 5 redirects"))))).
Proof.
  intros HM Hn HN HR.
  assert (forall req via, n <= length via ->
            Handlers.checkRedirect w cfg req via
            = Some (errorString ("stopped after " +:+ Http.itoa (Z.of_nat n) +:+ " redirects")))
    as Hstop.
  { intros req via Hv. rewrite <- HM. apply checkRedirect_stops. lia. }
  split; [|split; [exact Hstop|]].
  - destruct (do_loop_always_redirecting (network w) (Handlers.checkRedirect w cfg) n
                _ (allowed_url w cfg) Hstop) with
      (fuel := Handlers.fuelFor (MaxRedirects cfg))
      (req := Handlers.setHeaders headers req0) (reqs := @nil Request)
      as [loc [HL HS]].
    + intros next via Hv Hg. unfold Handlers.checkRedirect.
      assert ((MaxRedirects cfg <=? Z.of_nat (length via))%Z = false) as ->
          by (apply Z.leb_gt; lia).
      unfold allowed_url in Hg. now rewrite Hg.
    + exact HR.
    + simpl. lia.
    + unfold Handlers.fuelFor. rewrite HM, Nat2Z.id. simpl. lia.
    + unfold Handlers.executeHTTPRequest, Do. rewrite HN.
      destruct (do_loop _ _ _ _ _) as [sent res]. simpl in HL, HS. subst res. simpl.
      split; [exact HL|]. split; [unfold redirects_followed; lia|].
      exists loc. reflexivity.
  - intros net execReq startTime endTime areq0 HNa HRa.
    destruct (do_loop_always_redirecting net Agent.checkRedirect 5
                (errorString "stopped after 5 redirects") (fun _ => True)) with
      (fuel := Handlers.fuelFor Agent.MaxRedirects)
      (req := Handlers.setHeaders (Agent.Headers execReq) areq0) (reqs := @nil Request)
      as [loc [HL HS]].
    + intros next via Hv. now apply agent_checkRedirect_stops.
    + intros next via Hv _. now apply agent_checkRedirect_passes.
    + exact HRa.
    + simpl. lia.
    + vm_compute. lia.
    + unfold Agent.executeHTTPRequest, Do. rewrite HNa.
      destruct (do_loop _ _ _ _ _) as [sent res]. simpl in HL, HS. subst res. simpl.
      split; [exact HL|]. exists loc. reflexivity.
Qed.

(** C9. On both engines a request carries a body only when the method,
    in upper case, is POST, PUT, PATCH or DELETE and the body supplied is
    not empty, and the body is then the one supplied; when the method is
    GET in any case, no request of the call carries a body. This holds for
    the first request and for every redirect hop. *)
Theorem body_only_with_body_methods (w : World) (cfg : Config) (net : Network)
    (method urlStr : string) (headers : gmap string string) (bodyStr : string)
    (execReq : Agent.ExecuteRequest) (startTime endTime : Z) :
  Forall (fun r => forall b, Body r = Some b ->
                     (Strs.ToUpper method = "POST" \/ Strs.ToUpper method = "PUT"
                      \/ Strs.ToUpper method = "PATCH" \/ Strs.ToUpper method = "DELETE")
                     /\ bodyStr <> "" /\ b = bodyStr)
         (fst (Handlers.executeHTTPRequest w cfg method urlStr headers bodyStr))
  /\ (Strs.ToUpper method = "GET" ->
      Forall (fun r => Body r = None)
             (fst (Handlers.executeHTTPRequest w cfg method urlStr headers bodyStr)))
  /\ Forall (fun r => forall b, Body r = Some b ->
                        (Strs.ToUpper (Agent.Method execReq) = "POST"
                         \/ Strs.ToUpper (Agent.Method execReq) = "PUT"
                         \/ Strs.ToUpper (Agent.Method execReq) = "PATCH"
                         \/ Strs.ToUpper (Agent.Method execReq) = "DELETE")
                        /\ Agent.Body execReq <> "" /\ b = Agent.Body execReq)
            (fst (Agent.executeHTTPRequest net execReq startTime endTime))
  /\ (Strs.ToUpper (Agent.Method execReq) = "GET" ->
      Forall (fun r => Body r = None)
             (fst (Agent.executeHTTPRequest net execReq startTime endTime))).
Proof.
  pose proof (executeHTTPRequest_bodies w cfg method urlStr headers bodyStr) as HP.
  pose proof (agent_bodies net execReq startTime endTime) as HA.
  repeat split.
  - eapply Forall_impl; [exact HP|]. intros r [H|H] b Hb; [congruence|].
    rewrite H in Hb. apply bodyReader_some in Hb. destruct Hb as [Hs [Hn ->]].
    auto using supportsBody_verbs.
  - intros HG. eapply Forall_impl; [exact HP|]. intros r [H|H]; [exact H|].
    now rewrite H, bodyReader_get.
  - eapply Forall_impl; [exact HA|]. intros r [H|H] b Hb; [congruence|].
    rewrite H in Hb. apply agent_bodyReader_some in Hb. destruct Hb as [Hs [Hn ->]].
    auto using supportsBody_verbs.
  - intros HG. eapply Forall_impl; [exact HA|]. intros r [H|H]; [exact H|].
    now rewrite H, agent_bodyReader_get.
Qed.

(** C8, as the code has it. The response of the agent gives, for every
    header name, all the values of that header in the answer to the last
    request, in order; the response of the public service gives the first
    value only. *)
Theorem response_header_values :
  (forall net execReq startTime endTime sent response,
      Agent.executeHTTPRequest net execReq startTime endTime = (sent, Some (Ok response)) ->
      exists pre last resp,
        sent = pre ++ [last] /\ transport net pre last = Ok resp
        /\ forall name,
             all_values (Agent.RespHeaders response) name
             = all_values (RespHeader resp) name)
  /\ (forall w cfg method urlStr headers bodyStr sent response,
         Handlers.executeHTTPRequest w cfg method urlStr headers bodyStr
         = (sent, Some (Ok response)) ->
         exists pre last resp,
           sent = pre ++ [last] /\ transport (network w) pre last = Ok resp
           /\ forall name,
                single_values (Models.RespHeaders response) name
                = take 1 (all_values (RespHeader resp) name)).
Proof.
  split.
  - intros net execReq startTime endTime sent response H.
    destruct (agent_headers net execReq startTime endTime sent response H)
      as [pre [last [resp [Hs [HT HH]]]]].
    exists pre, last, resp. repeat split; try assumption.
    intros name. now rewrite HH.
  - intros w cfg method urlStr headers bodyStr sent response H.
    destruct (executeHTTPRequest_headers w cfg method urlStr headers bodyStr sent response H)
      as [pre [last [resp [Hs [HT HH]]]]].
    exists pre, last, resp. repeat split; try assumption.
    intros name. unfold single_values, all_values.
    rewrite HH, responseHeaders_first.
    destruct (RespHeader resp !! name) as [[|v vs]|]; reflexivity.
Qed.

Lemma allowed_verbs (m : string) : Store.allowed m = true -> five_verbs m.
Proof.
  unfold Store.allowed, Store.allowedMethods, five_verbs.
  destruct (decide (m = "GET")) as [->|H1]; [auto|].
  destruct (decide (m = "POST")) as [->|H2]; [auto|].
  destruct (decide (m = "PUT")) as [->|H3]; [auto|].
  destruct (decide (m = "PATCH")) as [->|H4]; [auto|].
  destruct (decide (m = "DELETE")) as [->|H5]; [auto 6|].
  rewrite !lookup_insert_ne by congruence. rewrite lookup_empty. discriminate.
Qed.

Lemma method_check_verbs (m : string) : Store.method_check (Some m) = true -> five_verbs m.
Proof.
  unfold Store.method_check, five_verbs. rewrite !orb_true_iff, !String.eqb_eq. tauto.
Qed.

(** C7, as the code has it. The store admits a request item only with
    one of the five verbs (CreateItem, UpdateItem and the CHECK of the
    column); the public execute call takes the method from the stored item,
    no payload changes it, so every request the public engine sends has one
    of the five verbs. Neither engine tests the method: the agent sends the
    request of its caller with whatever method it names, provided it is a
    token. *)
Theorem methods_reaching_engines :
  (forall m,
      (Store.CreateItem_checkMethod "request" m = None -> five_verbs m)
      /\ (Store.UpdateItem_checkMethod (Some m) = None -> five_verbs m)
      /\ (Store.method_check (Some m) = true -> five_verbs m))
  /\ (forall w cfg item payload durationMs,
         Store.method_check (Models.Method item) = true ->
         (forall call,
             Handlers.prepare w cfg (Handlers.Row item) payload = inr call ->
             Models.Method item = Some (Handlers.callMethod call)
             /\ five_verbs (Handlers.callMethod call))
         /\ Forall (fun r => five_verbs (Method r))
                   (fst (Handlers.ExecuteRequest w cfg (Handlers.Row item) payload
                           durationMs)))
  /\ (forall net execReq startTime endTime parsed,
         Agent.Method execReq <> "" ->
         validMethod (Agent.Method execReq) = true ->
         Url.Parse (Agent.URL execReq) = Ok parsed ->
         exists first rest,
           fst (Agent.executeHTTPRequest net execReq startTime endTime) = first :: rest
           /\ Method first = Agent.Method execReq
           /\ URL first = Agent.URL execReq).
Proof.
  split; [|split].
  - intros m. repeat split.
    + unfold Store.CreateItem_checkMethod. simpl.
      destruct (String.eqb m ""); [discriminate|].
      destruct (Store.allowed m) eqn:E; [|discriminate]. intros _. now apply allowed_verbs.
    + unfold Store.UpdateItem_checkMethod.
      destruct (Store.allowed m) eqn:E; [|discriminate]. intros _. now apply allowed_verbs.
    + apply method_check_verbs.
  - intros w cfg item payload durationMs HC.
    assert (forall call,
               Handlers.prepare w cfg (Handlers.Row item) payload = inr call ->
               Models.Method item = Some (Handlers.callMethod call)
               /\ five_verbs (Handlers.callMethod call)) as Hcall.
    { intros call HP. apply prepare_call in HP.
      destruct HP as [_ [item' [[= <-] HM]]]. split; [exact HM|].
      rewrite HM in HC. now apply method_check_verbs. }
    split; [exact Hcall|].
    rewrite ExecuteRequest_sent.
    destruct (Handlers.prepare _ _ _ _) as [|call] eqn:EP; [constructor|].
    apply executeHTTPRequest_methods; [left; reflexivity|].
    now apply Hcall.
  - intros net execReq startTime endTime parsed. apply agent_first_request.
Qed.

End EngineProperties.

(** ** The engines on concrete calls *)
Section EngineExamples.
Import Http Spec Examples.


(** The whole call of the example above: two requests are sent, the
    third is refused, and the reply is the 502 of a failed execution. *)
Example blocked_redirect_reply :
  Handlers.ExecuteRequest (example_world to_private) strict
    (Handlers.Row (item_of "GET" "http://example.com/r0")) None 0
  = ([mkRequest "GET" "http://example.com/r0" ∅ None;
      mkRequest "GET" "http://example.com/r1" ∅ None],
     Some (Handlers.ReplyError 502 "execution_error"
             ("Failed to execute request: "
              +:+ Errors.Error
                    (wrapError "request failed: "
                       (urlError "Get" "http://10.0.0.5/"
                          (wrapError "redirect blocked: "
                             (errorString
                                "requests to private IP ranges are not allowed: 10.0.0.5"))))))).
Proof. vm_compute. reflexivity. Qed.

Lemma redirect_limit_witness :
  (length (fst (Handlers.executeHTTPRequest (example_world six_redirects) strict
                  "GET" "http://example.com/r0" ∅ "")) = 5
   /\ redirects_followed
        (fst (Handlers.executeHTTPRequest (example_world six_redirects) strict
                "GET" "http://example.com/r0" ∅ "")) = 5 - 1
   /\ exists loc,
        snd (Handlers.executeHTTPRequest (example_world six_redirects) strict
               "GET" "http://example.com/r0" ∅ "")
        = Some (Err (wrapError "request failed: "
                       (urlError (urlErrorOp "GET") loc
                          (errorString ("stopped after " +:+ Http.itoa (Z.of_nat 5)
                                        +:+ " redirects"))))))
  /\ Handlers.checkRedirect (example_world six_redirects) strict
       (mkRequest "GET" "http://10.0.0.5/" ∅ None)
       (repeat (mkRequest "GET" "http://example.com/r0" ∅ None) 5)
     = Some (errorString ("stopped after " +:+ Http.itoa (Z.of_nat 5) +:+ " redirects"))
  /\ length (fst (Agent.executeHTTPRequest six_redirects
                    (Agent.mkExecuteRequest "GET" "http://example.com/r0" ∅ "") 0 0)) = 5
  /\ exists loc,
       snd (Agent.executeHTTPRequest six_redirects
              (Agent.mkExecuteRequest "GET" "http://example.com/r0" ∅ "") 0 0)
       = Some (Err (wrapError "request failed: "
                      (urlError (urlErrorOp "GET") loc
                         (errorString "stopped after 5 redirects")))).
Proof.
  destruct (redirect_limit (example_world six_redirects) strict 5
              "GET" "http://example.com/r0" ∅ ""
              (mkRequest "GET" "http://example.com/r0" ∅ None))
    as [H1 [H2 H3]].
  - reflexivity.
  - lia.
  - reflexivity.
  - intros reqs req Hlen.
    destruct reqs as [|r1 [|r2 [|r3 [|r4 [|r5 reqs]]]]]; simpl in Hlen; try lia;
      eexists; eexists; eexists; eexists;
      (split; [reflexivity|]); (split; [reflexivity|]);
      (split; [vm_compute; discriminate|]); (split; [reflexivity|]);
      vm_compute; reflexivity.
  - split; [exact H1|]. split.
    + apply H2. simpl. lia.
    + apply (H3 six_redirects (Agent.mkExecuteRequest "GET" "http://example.com/r0" ∅ "")
                0%Z 0%Z (mkRequest "GET" "http://example.com/r0" ∅ None)).
      * reflexivity.
      * intros reqs req Hlen.
        destruct reqs as [|r1 [|r2 [|r3 [|r4 [|r5 reqs]]]]]; simpl in Hlen; try lia;
          eexists; eexists; eexists; eexists;
          (split; [reflexivity|]); (split; [reflexivity|]);
          (split; [vm_compute; discriminate|]); (split; [reflexivity|]);
          exact I.
Defined.

(** Five redirects are not followed on the call above: the
    call ends with the stopped after 5 redirects error after five requests,
    of which four are redirect hops. *)
Lemma six_redirects_follow_four :
  snd (Handlers.executeHTTPRequest (example_world six_redirects) strict
         "GET" "http://example.com/r0" ∅ "")
  = Some (Err (wrapError "request failed: "
                 (urlError "Get" "http://example.com/r5"
                    (errorString "stopped after 5 redirects"))))
  /\ map URL (fst (Handlers.executeHTTPRequest (example_world six_redirects) strict
                     "GET" "http://example.com/r0" ∅ ""))
     = [ "http://example.com/r0"; "http://example.com/r1"; "http://example.com/r2";
         "http://example.com/r3"; "http://example.com/r4" ]
  /\ redirects_followed
       (fst (Handlers.executeHTTPRequest (example_world six_redirects) strict
               "GET" "http://example.com/r0" ∅ "")) <> 5.
Proof. vm_compute. repeat split. discriminate. Qed.

Lemma body_only_with_body_methods_witness :
  Forall (fun r => Body r = None)
         (fst (Handlers.executeHTTPRequest (example_world one_page) strict
                 "get" "http://example.com/" ∅ "payload"))
  /\ Forall (fun r => Body r = None)
            (fst (Agent.executeHTTPRequest one_page
                    (Agent.mkExecuteRequest "Get" "http://example.com/" ∅ "payload") 0 0)).
Proof.
  destruct (body_only_with_body_methods (example_world one_page) strict one_page
              "get" "http://example.com/" ∅ "payload"
              (Agent.mkExecuteRequest "Get" "http://example.com/" ∅ "payload") 0 0)
    as [_ [H2 [_ H4]]].
  split; [apply H2|apply H4]; reflexivity.
Defined.

(** A POST with a body carries it, on both engines. *)
Example post_carries_body :
  map Body (fst (Handlers.executeHTTPRequest (example_world one_page) strict
                   "post" "http://example.com/" ∅ "payload"))
  = [Some "payload"]
  /\ map Body (fst (Agent.executeHTTPRequest one_page
                      (Agent.mkExecuteRequest "POST" "http://example.com/" ∅ "payload") 0 0))
     = [Some "payload"].
Proof. vm_compute. split; reflexivity. Qed.

Lemma response_header_values_witness :
  (exists pre last resp,
      fst (Agent.executeHTTPRequest one_page
             (Agent.mkExecuteRequest "GET" "http://example.com/" ∅ "") 0 0)
      = pre ++ [last]
      /\ transport one_page pre last = Ok resp
      /\ forall name,
           all_values
             (match snd (Agent.executeHTTPRequest one_page
                           (Agent.mkExecuteRequest "GET" "http://example.com/" ∅ "") 0 0) with
              | Some (Ok response) => Agent.RespHeaders response
              | _ => ∅
              end) name
           = all_values (RespHeader resp) name)
  /\ (exists pre last resp,
         fst (Handlers.executeHTTPRequest (example_world one_page) strict
                "GET" "http://example.com/" ∅ "")
         = pre ++ [last]
         /\ transport one_page pre last = Ok resp
         /\ forall name,
              single_values
                (match snd (Handlers.executeHTTPRequest (example_world one_page) strict
                              "GET" "http://example.com/" ∅ "") with
                 | Some (Ok response) => Models.RespHeaders response
                 | _ => ∅
                 end) name
              = take 1 (all_values (RespHeader resp) name)).
Proof.
  destruct response_header_values as [HA HP]. split.
  - destruct (Agent.executeHTTPRequest one_page
                (Agent.mkExecuteRequest "GET" "http://example.com/" ∅ "") 0 0)
      as [sent [[response|e]|]] eqn:E; try (vm_compute in E; discriminate E).
    apply (HA one_page (Agent.mkExecuteRequest "GET" "http://example.com/" ∅ "") 0%Z 0%Z
              sent response E).
  - destruct (Handlers.executeHTTPRequest (example_world one_page) strict
                "GET" "http://example.com/" ∅ "")
      as [sent [[response|e]|]] eqn:E; try (vm_compute in E; discriminate E).
    apply (HP (example_world one_page) strict "GET" "http://example.com/" ∅ ""
              sent response E).
Defined.

(** The public service does not give all the values: the page has
    two values for Set-Cookie and the response gives the first one. *)
Lemma public_response_drops_values :
  exists response,
    snd (Handlers.executeHTTPRequest (example_world one_page) strict
           "GET" "http://example.com/" ∅ "") = Some (Ok response)
    /\ all_values (RespHeader page) "Set-Cookie" = ["a=1"; "b=2"]
    /\ single_values (Models.RespHeaders response) "Set-Cookie" = ["a=1"]
    /\ single_values (Models.RespHeaders response) "Set-Cookie"
       <> all_values (RespHeader page) "Set-Cookie".
Proof.
  eexists. split; [vm_compute; reflexivity|].
  vm_compute. repeat split. discriminate.
Qed.

Lemma methods_reaching_engines_witness :
  (five_verbs "PATCH" /\ five_verbs "PUT" /\ five_verbs "DELETE")
  /\ Forall (fun r => five_verbs (Method r))
            (fst (Handlers.ExecuteRequest (example_world one_page) strict
                    (Handlers.Row (item_of "POST" "http://example.com/")) None 0))
  /\ exists first rest,
       fst (Agent.executeHTTPRequest one_page
              (Agent.mkExecuteRequest "HEAD" "http://127.0.0.1:3000/" ∅ "") 0 0)
       = first :: rest
       /\ Method first = "HEAD"
       /\ URL first = "http://127.0.0.1:3000/".
Proof.
  destruct methods_reaching_engines as [HS [HP HA]]. split; [|split].
  - split; [|split].
    + apply (proj1 (HS "PATCH")). reflexivity.
    + apply (proj1 (proj2 (HS "PUT"))). reflexivity.
    + apply (proj2 (proj2 (HS "DELETE"))). reflexivity.
  - apply (HP (example_world one_page) strict (item_of "POST" "http://example.com/") None 0%Z).
    reflexivity.
  - apply (HA one_page (Agent.mkExecuteRequest "HEAD" "http://127.0.0.1:3000/" ∅ "") 0%Z 0%Z
              (Url.mkURL "http" "" None "127.0.0.1:3000" "/" false "" "")).
    + discriminate.
    + reflexivity.
    + reflexivity.
Defined.

(** The agent is not held to the five verbs: a HEAD request of
    the caller is built and sent. *)
Lemma agent_sends_other_methods :
  exists r,
    In r (fst (Agent.executeHandler one_page
                 (Ok (Agent.mkExecuteRequest "HEAD" "http://127.0.0.1:3000/" ∅ "")) 0 0))
    /\ Method r = "HEAD"
    /\ ~ five_verbs (Method r).
Proof.
  exists (mkRequest "HEAD" "http://127.0.0.1:3000/" ∅ None).
  split; [vm_compute; left; reflexivity|]. split; [reflexivity|].
  simpl. unfold five_verbs. intros [H|[H|[H|[H|H]]]]; discriminate H.
Qed.

End EngineExamples.


(** * Further properties *)

(** ** The verdict of the validator *)
Section ValidatorVerdict.
Import Net Url Validator Spec.
Variable resolver : Resolver.

Lemma checkIPs_none (ips : list IP) (allowPrivateIPs : bool) :
  checkIPs ips allowPrivateIPs = None
  <-> allowPrivateIPs = true \/ Forall (fun ip => isPrivateIP ip = false) ips.
Proof.
  destruct allowPrivateIPs.
  - split; [auto|]. intros _. apply checkIPs_allowed.
  - induction ips as [|ip ips IH]; simpl.
    + split; [auto|reflexivity].
    + destruct (isPrivateIP ip) eqn:E.
      * split; [discriminate|]. intros [H|H]; [discriminate|].
        inversion H; congruence.
      * rewrite IH. split.
        -- intros [H|H]; [discriminate|]. right. constructor; assumption.
        -- intros [H|H]; [discriminate|]. right. now inversion H.
Qed.

Lemma validate_none_elim (url : string) (allowLocalhost allowPrivateIPs : bool) :
  ValidateExecutionURL resolver url allowLocalhost allowPrivateIPs = None ->
  exists parsed ips,
    Parse url = Ok parsed
    /\ scheme_accepted parsed
    /\ Hostname parsed <> ""
    /\ (isLocalhost (Hostname parsed) = true -> allowLocalhost = true)
    /\ LookupIP resolver (Hostname parsed) = Ok ips
    /\ (allowPrivateIPs = true \/ Forall (fun ip => isPrivateIP ip = false) ips).
Proof.
  unfold ValidateExecutionURL, ValidateExecutionURL_run.
  destruct (Parse url) as [parsed|e]; [|discriminate].
  destruct (negb _ && negb _) eqn:ES; [discriminate|].
  destruct (String.eqb (Hostname parsed) "") eqn:EH; [discriminate|].
  destruct (isLocalhost (Hostname parsed) && negb allowLocalhost) eqn:EL; [discriminate|].
  destruct (LookupIP resolver (Hostname parsed)) as [ips|e] eqn:EI; [|discriminate].
  simpl. intros HC. exists parsed, ips.
  split; [reflexivity|]. split; [|split; [|split; [|split; [exact EI|]]]].
  - unfold scheme_accepted. apply andb_false_iff in ES.
    rewrite !negb_false_iff, !String.eqb_eq in ES. exact ES.
  - now apply String.eqb_neq.
  - intros HL. rewrite HL in EL. now destruct allowLocalhost.
  - now apply checkIPs_none.
Qed.

Lemma validate_none_intro (url : string) (allowLocalhost allowPrivateIPs : bool)
    (parsed : URL) (ips : list IP) :
  Parse url = Ok parsed ->
  scheme_accepted parsed ->
  Hostname parsed <> "" ->
  (isLocalhost (Hostname parsed) = true -> allowLocalhost = true) ->
  LookupIP resolver (Hostname parsed) = Ok ips ->
  allowPrivateIPs = true \/ Forall (fun ip => isPrivateIP ip = false) ips ->
  ValidateExecutionURL resolver url allowLocalhost allowPrivateIPs = None.
Proof.
  intros HP HS HN HL HI HC. unfold ValidateExecutionURL, ValidateExecutionURL_run.
  rewrite HP, (scheme_accepted_test _ HS). apply String.eqb_neq in HN. rewrite HN.
  assert (isLocalhost (Hostname parsed) && negb allowLocalhost = false) as ->.
  { destruct (isLocalhost (Hostname parsed)); [|reflexivity]. now rewrite HL. }
  rewrite HI. simpl. now apply checkIPs_none.
Qed.

(** X1. ValidateExecutionURL returns nil exactly when the URL parses, its
    scheme is http or https, its host name is not empty, the host name is
    not a localhost alias unless allowLocalhost is set, the name resolves,
    and either allowPrivateIPs is set or none of the resolved addresses is
    a private one. *)
Theorem allowed_iff (url : string) (allowLocalhost allowPrivateIPs : bool) :
  ValidateExecutionURL resolver url allowLocalhost allowPrivateIPs = None
  <-> exists parsed ips,
        Parse url = Ok parsed
        /\ scheme_accepted parsed
        /\ Hostname parsed <> ""
        /\ (isLocalhost (Hostname parsed) = true -> allowLocalhost = true)
        /\ LookupIP resolver (Hostname parsed) = Ok ips
        /\ (allowPrivateIPs = true \/ Forall (fun ip => isPrivateIP ip = false) ips).
Proof.
  split; [apply validate_none_elim|].
  intros [parsed [ips [HP [HS [HN [HL [HI HC]]]]]]].
  now apply (validate_none_intro url allowLocalhost allowPrivateIPs parsed ips).
Qed.

(** X2. The two flags only ever widen what is allowed: a URL that
    ValidateExecutionURL accepts under some setting of allowLocalhost and
    allowPrivateIPs is accepted under every setting that keeps the flags
    that were set. *)
Theorem relaxing_flags_keeps_allowed (url : string) (al ap al' ap' : bool) :
  ValidateExecutionURL resolver url al ap = None ->
  (al = true -> al' = true) -> (ap = true -> ap' = true) ->
  ValidateExecutionURL resolver url al' ap' = None.
Proof.
  intros H Hal Hap. apply validate_none_elim in H.
  destruct H as [parsed [ips [HP [HS [HN [HL [HI HC]]]]]]].
  apply (validate_none_intro url al' ap' parsed ips); auto.
  destruct HC; auto.
Qed.

(** X3. Once the scheme is http or https, ValidateExecutionURL looks at
    the host name only: two URLs with accepted schemes and the same host
    name get the same verdict and cause the same lookups, whatever their
    ports, paths, queries and user names are. *)
Theorem verdict_depends_on_host_only (url1 url2 : string) (p1 p2 : URL)
    (allowLocalhost allowPrivateIPs : bool) :
  Parse url1 = Ok p1 -> Parse url2 = Ok p2 ->
  scheme_accepted p1 -> scheme_accepted p2 ->
  Hostname p1 = Hostname p2 ->
  ValidateExecutionURL_run resolver url1 allowLocalhost allowPrivateIPs
  = ValidateExecutionURL_run resolver url2 allowLocalhost allowPrivateIPs.
Proof.
  intros H1 H2 S1 S2 HH. unfold ValidateExecutionURL_run.
  rewrite H1, H2, (scheme_accepted_test _ S1), (scheme_accepted_test _ S2), HH.
  reflexivity.
Qed.

End ValidatorVerdict.

(** ** The alias that is never met *)
Section BracketedAlias.
Import Net Url Validator Spec.

Lemma lower_ascii_keeps (c x : ascii) :
  Strs.lower_ascii c = x -> Strs.is_lower x = false -> c = x.
Proof.
  unfold Strs.lower_ascii. destruct (Strs.is_upper c) eqn:EU; [|auto].
  intros <- H. exfalso. unfold Strs.is_upper in EU. unfold Strs.is_lower in H.
  apply andb_true_iff in EU. destruct EU as [E1 E2].
  apply N.leb_le in E1. apply N.leb_le in E2.
  rewrite N_ascii_embedding in H by lia.
  apply andb_false_iff in H. destruct H as [H|H]; apply N.leb_gt in H; lia.
Qed.

Lemma ToLower_cons (c : ascii) (r : string) :
  Strs.ToLower (String c r)
  = match r with
    | String d r' =>
        if Strs.is_byte c 196 && Strs.is_byte d 176 then String "i" (Strs.ToLower r')
        else
          match r' with
          | String e r'' =>
              if Strs.is_byte c 226 && Strs.is_byte d 132 && Strs.is_byte e 170
              then String "k" (Strs.ToLower r'')
              else String (Strs.lower_ascii c) (Strs.ToLower r)
          | EmptyString => String (Strs.lower_ascii c) (Strs.ToLower r)
          end
    | EmptyString => String (Strs.lower_ascii c) EmptyString
    end.
Proof. destruct r as [|d [|e r'']]; reflexivity. Qed.

Lemma ToLower_head (c x : ascii) (r t : string) :
  Strs.ToLower (String c r) = String x t ->
  x <> "i"%char -> x <> "k"%char ->
  Strs.lower_ascii c = x /\ Strs.ToLower r = t.
Proof.
  rewrite ToLower_cons. intros H Hi Hk. destruct r as [|d r'].
  - injection H as <- <-. auto.
  - destruct (_ && _); [injection H as <- _; contradiction|].
    destruct r' as [|e r'']; [injection H as <- <-; auto|].
    destruct (_ && _); [injection H as <- _; contradiction|].
    injection H as <- <-. auto.
Qed.

Lemma ToLower_nil (s : string) : Strs.ToLower s = "" -> s = "".
Proof.
  destruct s as [|c r]; [reflexivity|]. rewrite ToLower_cons.
  destruct r as [|d r']; [discriminate|].
  destruct (_ && _); [discriminate|].
  destruct r' as [|e r'']; [discriminate|].
  destruct (_ && _); discriminate.
Qed.

Lemma ToLower_bracketed (h : string) : Strs.ToLower h = "[::]" -> h = "[::]".
Proof.
  intros H.
  destruct h as [|c1 h]; [discriminate|].
  apply ToLower_head in H; [|discriminate..]. destruct H as [H1 H].
  destruct h as [|c2 h]; [discriminate|].
  apply ToLower_head in H; [|discriminate..]. destruct H as [H2 H].
  destruct h as [|c3 h]; [discriminate|].
  apply ToLower_head in H; [|discriminate..]. destruct H as [H3 H].
  destruct h as [|c4 h]; [discriminate|].
  apply ToLower_head in H; [|discriminate..]. destruct H as [H4 H].
  apply ToLower_nil in H. subst h.
  apply lower_ascii_keeps in H1, H2, H3, H4; try reflexivity. now subst.
Qed.

Lemma substring_all (s : string) : String.substring 0 (String.length s) s = s.
Proof. induction s as [|c s IH]; [reflexivity|]. simpl. now rewrite IH. Qed.

Lemma prefix_substring (p s : string) (n : nat) :
  String.prefix p (String.substring 0 n s) = true -> String.prefix p s = true.
Proof.
  revert s n. induction p as [|a p IH]; intros s n H; [now destruct s|].
  destruct s as [|c s]; [destruct n; discriminate|].
  destruct n as [|n]; [discriminate|]. simpl in H |- *.
  destruct (ascii_dec a c); [|discriminate]. now apply (IH s n).
Qed.

Lemma HasPrefix_cons (a c : ascii) (p s : string) :
  Strs.HasPrefix (String c s) (String a p)
  = if ascii_dec a c then Strs.HasPrefix s p else false.
Proof. reflexivity. Qed.

Lemma HasPrefix_head (a : ascii) (p s : string) :
  Strs.HasPrefix s (String a p) = true -> exists s', s = String a s' /\ Strs.HasPrefix s' p = true.
Proof.
  destruct s as [|c s]; [discriminate|]. rewrite HasPrefix_cons.
  destruct (ascii_dec a c) as [<-|]; [|discriminate]. eauto.
Qed.

Lemma HasPrefix_nil (s : string) : Strs.HasPrefix s "" = true.
Proof. now destruct s. Qed.

(** The name without the port is the bracketed [::] only for a host that
    starts with two brackets. *)
Lemma hostname_bracketed (hostPort : string) :
  fst (splitHostPort hostPort) = "[::]" -> Strs.HasPrefix hostPort "[[" = true.
Proof.
  assert (forall host,
            (if Strs.HasPrefix host "[" && Strs.HasSuffix_byte host "]"
             then Strs.take (String.length host - 2) (Strs.drop 1 host)
             else host) = "[::]" ->
            Strs.HasPrefix host "[[" = true) as HS.
  { intros host. destruct (_ && _) eqn:E.
    - apply andb_true_iff in E. destruct E as [E _].
      apply HasPrefix_head in E. destruct E as [rest [-> _]].
      unfold Strs.take, Strs.drop.
      change (String.length (String "[" rest) - 1)%nat with (String.length rest - 0)%nat.
      change (substring 1 (String.length rest - 0) (String "[" rest))
        with (substring 0 (String.length rest - 0) rest).
      rewrite Nat.sub_0_r, substring_all. intros H.
      rewrite HasPrefix_cons. destruct (ascii_dec "[" "[") as [_|N]; [|now elim N].
      apply (prefix_substring "[" rest (String.length (String "[" rest) - 2)).
      now rewrite H.
    - intros ->. discriminate. }
  unfold splitHostPort.
  destruct (Strs.last_index_byte ":" hostPort) as [colon|].
  - destruct (validOptionalPort _).
    + destruct (_ && _) eqn:E; simpl; intros H.
      * apply (prefix_substring "[[" hostPort colon). apply HS.
        fold (Strs.take colon hostPort). now rewrite E.
      * apply (prefix_substring "[[" hostPort colon). apply HS.
        fold (Strs.take colon hostPort). now rewrite E.
    + destruct (_ && _) eqn:E; simpl; intros H; apply HS; now rewrite E.
  - destruct (_ && _) eqn:E; simpl; intros H; apply HS; now rewrite E.
Qed.

Lemma first_mark_cases (s : string) (m : ascii) :
  first_mark s = Some m -> m = "."%char \/ m = ":"%char \/ m = "%"%char.
Proof.
  induction s as [|c s IH]; [discriminate|]. simpl.
  destruct (Ascii.eqb c ".") eqn:E1; [apply Ascii.eqb_eq in E1; intros [= <-]; auto|].
  destruct (Ascii.eqb c ":") eqn:E2; [apply Ascii.eqb_eq in E2; intros [= <-]; auto|].
  destruct (Ascii.eqb c "%") eqn:E3; [apply Ascii.eqb_eq in E3; intros [= <-]; auto|].
  exact IH.
Qed.

(** No address starts with a bracket. *)
Lemma ParseAddr_bracket (r : string) (a : Net.Addr) : ParseAddr (String "[" r) <> Ok a.
Proof.
  unfold ParseAddr. change (first_mark (String "[" r)) with (first_mark r).
  destruct (first_mark r) as [m|] eqn:EM; [|discriminate].
  destruct (first_mark_cases _ _ EM) as [-> | [-> | ->]]; [| |discriminate].
  - unfold parseIPv4. cbn [parseIPv4Fields]. discriminate.
  - unfold parseIPv6. 
    change (Strs.cut_byte "%" (String "[" r))
      with (match Strs.cut_byte "%" r with
            | (b, a, true) => (String "[" b, a, true)
            | (_, _, false) => (String "[" r, EmptyString, false)
            end).
    destruct (Strs.cut_byte "%" r) as [[b z] [|]].
    + destruct (true && String.eqb z ""); [discriminate|]. cbn. discriminate.
    + cbn. discriminate.
Qed.
Lemma unescape_other (c : ascii) (r : string) (mode : encoding) :
  c <> "%"%char ->
  unescape (String c r) mode
  = if match mode with
       | encodeHost | encodeZone => (N_of_ascii c <? 128)%N && shouldEscape_host c
       | _ => false
       end
    then Err (InvalidHostError (String c EmptyString))
    else match unescape r mode with
         | Ok t => Ok (String c t)
         | Err e => Err e
         end.
Proof.
  destruct c as [[] [] [] [] [] [] [] []]; intros H; try reflexivity.
  now elim H.
Qed.

Lemma unhex_bound (c : ascii) : (unhex c < 16)%N.
Proof. destruct c as [[] [] [] [] [] [] [] []]; reflexivity. Qed.

(** A host that does not start with a bracket does not start with one
    after unescaping: an escape stands for a byte above 0x7f or for the
    percent sign. *)
Lemma unescape_head (s h : string) :
  unescape s encodeHost = Ok h ->
  Strs.HasPrefix s "[" = false -> Strs.HasPrefix h "[" = false.
Proof.
  destruct s as [|c r]; [now intros [= <-]|].
  destruct (ascii_dec c "%") as [->|N].
  - destruct r as [|a [|b r']]; try discriminate.
    cbn [unescape].
    destruct (negb (ishex a && ishex b)); [discriminate|].
    destruct ((unhex a <? 8)%N && _) eqn:EB; [discriminate|].
    destruct (unescape r' encodeHost) as [t|]; [|discriminate].
    intros [= <-] _. rewrite HasPrefix_cons.
    destruct (ascii_dec "[" (ascii_of_N (unhex a * 16 + unhex b))) as [E|]; [|reflexivity].
    exfalso. pose proof (unhex_bound a) as Ha. pose proof (unhex_bound b) as Hb.
    apply (f_equal N_of_ascii) in E. assert (unhex a * 16 + unhex b < 256)%N as HV by (clear - Ha Hb; lia). rewrite (N_ascii_embedding _ HV) in E.
    change (N_of_ascii "[") with 91%N in E.
    assert (unhex a = 5%N) as E5 by lia.
    rewrite E5 in EB. change (5 <? 8)%N with true in EB. cbn [andb] in EB.
    apply negb_false_iff, String.eqb_eq in EB. injection EB as -> _.
    discriminate E5.
  - rewrite (unescape_other c r encodeHost N).
    destruct (_ && _); [discriminate|].
    destruct (unescape r encodeHost) as [t|]; [|discriminate].
    intros [= <-]. rewrite !HasPrefix_cons.
    destruct (ascii_dec "[" c); [now rewrite !HasPrefix_nil|reflexivity].
Qed.

Lemma no_bracket_head (host : string) :
  Strs.last_index_byte "[" host = None -> Strs.HasPrefix host "[" = false.
Proof.
  destruct host as [|d r]; [reflexivity|]. intros H. rewrite HasPrefix_cons.
  destruct (ascii_dec "[" d) as [<-|]; [|reflexivity].
  exfalso. simpl in H. destruct (Strs.last_index_byte "[" r); discriminate.
Qed.

Lemma HasPrefix_two (a b : ascii) (s : string) :
  Strs.HasPrefix s (String a EmptyString) = false ->
  Strs.HasPrefix s (String a (String b EmptyString)) = false.
Proof.
  destruct s as [|c s]; [reflexivity|]. rewrite !HasPrefix_cons.
  destruct (ascii_dec a c); [|reflexivity]. now rewrite HasPrefix_nil.
Qed.

(** No host that parseHost accepts starts with two brackets. *)
Lemma parseHost_brackets (host h : string) :
  parseHost host = Ok h -> Strs.HasPrefix h "[[" = false.
Proof.
  unfold parseHost.
  destruct (Strs.last_index_byte "[" host) as [openBracketIdx|] eqn:EO.
  - destruct (Strs.last_index_byte "]" host) as [closeBracketIdx|]; [|discriminate].
    destruct (negb _); [discriminate|].
    destruct (unescape _ encodeHost) as [port|]; [|discriminate].
    destruct (match Index _ "%25" with Some _ => _ | None => _ end) as [u|]; [|discriminate].
    destruct (ParseAddr u) as [addr|] eqn:EA; [|discriminate].
    destruct (Is4 addr); [discriminate|]. intros [= <-].
    change ("[" +:+ u +:+ "]" +:+ port) with (String "[" (u +:+ "]" +:+ port)).
    rewrite HasPrefix_cons. destruct (ascii_dec "[" "[") as [_|N]; [|now elim N].
    destruct u as [|c u]; [discriminate EA|].
    change (String c u +:+ "]" +:+ port) with (String c (u +:+ "]" +:+ port)).
    rewrite HasPrefix_cons. destruct (ascii_dec "[" c) as [<-|]; [|reflexivity].
    exfalso. exact (ParseAddr_bracket _ _ EA).
  - intros H. apply HasPrefix_two. apply no_bracket_head in EO.
    destruct (Strs.last_index_byte ":" host).
    + destruct (negb _); [discriminate|]. exact (unescape_head _ _ H EO).
    + exact (unescape_head _ _ H EO).
Qed.

Lemma parseAuthority_brackets (authority : string) (user : option (string * option string))
    (h : string) :
  parseAuthority authority = Ok (user, h) -> Strs.HasPrefix h "[[" = false.
Proof.
  unfold parseAuthority.
  destruct (Strs.last_index_byte "@" authority) as [i|].
  - destruct (parseHost _) as [host|] eqn:EH; [|discriminate].
    apply parseHost_brackets in EH.
    destruct (negb (validUserinfo _)); [discriminate|].
    destruct (negb (Strs.contains_byte ":" _)).
    + destruct (unescape _ _); [|discriminate]. now intros [= _ <-].
    + destruct (Strs.cut_byte ":" _) as [[username password] found].
      destruct (unescape username _); [|discriminate].
      destruct (unescape password _); [|discriminate]. now intros [= _ <-].
  - destruct (parseHost authority) as [host|] eqn:EH; [|discriminate].
    apply parseHost_brackets in EH. now intros [= _ <-].
Qed.
Lemma parse_brackets (rawURL : string) (url : URL) :
  parse rawURL = Ok url -> Strs.HasPrefix (Host url) "[[" = false.
Proof.
  unfold parse.
  destruct (stringContainsCTLByte rawURL); [discriminate|].
  destruct (String.eqb rawURL "*"); [now intros [= <-]|].
  destruct (getScheme rawURL) as [[scheme0 rest0]|]; [|discriminate].
  destruct (if _ && _ then _ else _) as [[rest forceQuery] rawQuery].
  assert (forall withAuthority : bool,
            match
              (if withAuthority then
                 match Index (Strs.drop 2 rest) "/" with
                 | Some i =>
                     match parseAuthority (Strs.take i (Strs.drop 2 rest)) with
                     | Err e => Err e
                     | Ok (u, h) => Ok (u, h, Strs.drop i (Strs.drop 2 rest))
                     end
                 | None =>
                     match parseAuthority (Strs.drop 2 rest) with
                     | Err e => Err e
                     | Ok (u, h) => Ok (u, h, EmptyString)
                     end
                 end
               else Ok (None, EmptyString, rest))
            with
            | Err e => Err e
            | Ok (user, host, rest') =>
                match unescape rest' encodePath with
                | Err e => Err e
                | Ok path =>
                    Ok (mkURL (Strs.ToLower scheme0) "" user host path forceQuery rawQuery "")
                end
            end = Ok url ->
            Strs.HasPrefix (Host url) "[[" = false) as Hier.
  { intros [|].
    - destruct (Index _ "/") as [i|].
      + destruct (parseAuthority _) as [[u h]|] eqn:EA; [|discriminate].
        apply parseAuthority_brackets in EA.
        destruct (unescape _ encodePath); [|discriminate]. now intros [= <-].
      + destruct (parseAuthority _) as [[u h]|] eqn:EA; [|discriminate].
        apply parseAuthority_brackets in EA.
        destruct (unescape _ encodePath); [|discriminate]. now intros [= <-].
    - destruct (unescape rest encodePath); [|discriminate]. now intros [= <-]. }
  cbv zeta.
  destruct (negb (Strs.HasPrefix rest "/")); [|apply Hier].
  destruct (negb (String.eqb _ "")); [now intros [= <-]|].
  destruct (Strs.cut_byte "/" rest) as [[segment x] y].
  destruct (Strs.contains_byte ":" segment); [discriminate|apply Hier].
Qed.

Lemma Parse_brackets (rawURL : string) (url : URL) :
  Parse rawURL = Ok url -> Strs.HasPrefix (Host url) "[[" = false.
Proof.
  unfold Parse. destruct (Strs.cut_byte "#" rawURL) as [[u frag] found].
  destruct (parse u) as [url0|] eqn:EP; [|discriminate].
  apply parse_brackets in EP.
  destruct (String.eqb frag ""); [now intros [= <-]|].
  destruct (unescape frag encodeFragment); [|discriminate]. now intros [= <-].
Qed.

(** X27. The comparison of isLocalhost with the bracketed [::] never
    succeeds on a URL that url.Parse accepts: Hostname() removes the
    brackets of an IP literal, and no host that the parser accepts starts
    with a second bracket, so the host name is never that text, in any
    case of letters. For the host name of a parsed URL isLocalhost is
    decided by the five other tests alone. *)
Theorem bracketed_alias_never_matches (url : string) (parsed : URL) :
  Parse url = Ok parsed ->
  Strs.ToLower (Hostname parsed) <> "[::]"
  /\ (isLocalhost (Hostname parsed) = true
      <-> Strs.ToLower (Hostname parsed) = "localhost"
          \/ Strs.ToLower (Hostname parsed) = "127.0.0.1"
          \/ Strs.ToLower (Hostname parsed) = "::1"
          \/ Strs.HasPrefix (Strs.ToLower (Hostname parsed)) "127." = true
          \/ Strs.ToLower (Hostname parsed) = "0.0.0.0").
Proof.
  intros HP.
  assert (Strs.ToLower (Hostname parsed) <> "[::]") as HN.
  { intros H. apply ToLower_bracketed, hostname_bracketed in H.
    apply Parse_brackets in HP. congruence. }
  split; [exact HN|]. unfold isLocalhost.
  rewrite !orb_true_iff, !String.eqb_eq. tauto.
Qed.
End BracketedAlias.

(** ** The blocked IPv4 addresses *)
Section PrivateIPExact.
Import Net Validator Spec Shapes.

Ltac byte_consts' :=
  repeat match goal with
         | |- context [to_N ?b] =>
             is_constructor b;
             let v := eval vm_compute in (to_N b) in change (to_N b) with v
         | H : context [to_N ?b] |- _ =>
             is_constructor b;
             let v := eval vm_compute in (to_N b) in change (to_N b) with v in H
         end.

Lemma land_192_64 (b : byte) :
  (N.land 64 192 =? N.land (Byte.to_N b) 192)%N
  = ((64 <=? Byte.to_N b) && (Byte.to_N b <=? 127))%N.
Proof. destruct b; reflexivity. Qed.

(** The text of a 4-byte address is that of a metadata address only for
    169.254.x.y. *)
Lemma metadata_v4 (a b c d : byte) :
  existsb (fun metaIP => String.eqb (String_ [a; b; c; d]) metaIP) metadataIPs = true ->
  to_N a = 169%N /\ to_N b = 254%N.
Proof.
  destruct a; try (vm_compute; discriminate).
  destruct b; try (vm_compute; discriminate).
  intros _. split; reflexivity.
Qed.

Lemma isPrivateIP_v4 (a b c d : byte) :
  isPrivateIP [a; b; c; d] = true <-> v4_blocked (to_N a) (to_N b) (to_N c).
Proof.
  unfold v4_blocked. split.
  - unfold isPrivateIP.
    destruct (IsLoopback [a; b; c; d]) eqn:E1.
    { intros _. left. unfold IsLoopback in E1. rewrite To4_of_4 in E1 by reflexivity.
      now apply N.eqb_eq in E1. }
    destruct (IsLinkLocalUnicast [a; b; c; d]) eqn:E2.
    { intros _. unfold IsLinkLocalUnicast in E2. rewrite To4_of_4 in E2 by reflexivity.
      unfold at_ in E2. cbn [nth] in E2. rewrite andb_true_iff, !N.eqb_eq in E2. tauto. }
    destruct (IsLinkLocalMulticast [a; b; c; d]) eqn:E3.
    { intros _. unfold IsLinkLocalMulticast in E3. rewrite To4_of_4 in E3 by reflexivity.
      unfold at_ in E3. cbn [nth] in E3. rewrite !andb_true_iff, !N.eqb_eq in E3. tauto. }
    cbn [orb].
    destruct (existsb (inRange [a; b; c; d]) privateRanges) eqn:E4.
    { intros _. apply existsb_exists in E4. destruct E4 as [cidr [Hin H]].
      simpl in Hin.
      destruct Hin as [<-|[<-|[<-|[<-|[<-|[<-|[<-|[<-|[<-|[]]]]]]]]]].
      - rewrite (inRange_v4 _ x0a x00 x00 x00 xff x00 x00 x00) in H by reflexivity.
        byte_consts'. rewrite !N.land_0_r, land_255 in H.
        rewrite !andb_true_iff, !N.eqb_eq in H. change (N.land 10 255) with 10%N in H.
        right; left. symmetry. tauto.
      - rewrite (inRange_v4 _ xac x10 x00 x00 xff xf0 x00 x00) in H by reflexivity.
        byte_consts'. rewrite !N.land_0_r, land_255, land_240_16 in H.
        rewrite !andb_true_iff, !N.eqb_eq, !N.leb_le in H.
        change (N.land 172 255) with 172%N in H.
        right; right; left. destruct H as [Ha [[Hb1 Hb2] _]]. auto.
      - rewrite (inRange_v4 _ xc0 xa8 x00 x00 xff xff x00 x00) in H by reflexivity.
        byte_consts'. rewrite !N.land_0_r, !land_255 in H.
        rewrite !andb_true_iff, !N.eqb_eq in H.
        change (N.land 192 255) with 192%N in H. change (N.land 168 255) with 168%N in H.
        right; right; right; left. destruct H as [Ha [Hb _]]. auto.
      - rewrite (inRange_v4 _ xa9 xfe x00 x00 xff xff x00 x00) in H by reflexivity.
        byte_consts'. rewrite !N.land_0_r, !land_255 in H.
        rewrite !andb_true_iff, !N.eqb_eq in H.
        change (N.land 169 255) with 169%N in H. change (N.land 254 255) with 254%N in H.
        right; right; right; right; left. destruct H as [Ha [Hb _]]. auto.
      - vm_compute in H. discriminate.
      - vm_compute in H. discriminate.
      - vm_compute in H. discriminate.
      - rewrite (inRange_v4 _ xa9 xfe x00 x00 xff xff x00 x00) in H by reflexivity.
        byte_consts'. rewrite !N.land_0_r, !land_255 in H.
        rewrite !andb_true_iff, !N.eqb_eq in H.
        change (N.land 169 255) with 169%N in H. change (N.land 254 255) with 254%N in H.
        right; right; right; right; left. destruct H as [Ha [Hb _]]. auto.
      - rewrite (inRange_v4 _ x64 x40 x00 x00 xff xc0 x00 x00) in H by reflexivity.
        byte_consts'. rewrite !N.land_0_r, land_255, land_192_64 in H.
        rewrite !andb_true_iff, !N.eqb_eq, !N.leb_le in H.
        change (N.land 100 255) with 100%N in H.
        right; right; right; right; right; right. destruct H as [Ha [[Hb1 Hb2] _]]. auto. }
    destruct (existsb _ metadataIPs) eqn:E5; [|discriminate].
    intros _. apply metadata_v4 in E5. tauto.
  - intros [H|[H|[[H1 H2]|[[H1 H2]|[[H1 H2]|[[H1 [H2 H3]]|[H1 H2]]]]]]].
    + apply isPrivateIP_loopback. unfold IsLoopback. rewrite To4_of_4 by reflexivity.
      now apply N.eqb_eq.
    + apply (isPrivateIP_inRange _ "10.0.0.0/8"); [simpl; tauto|].
      rewrite (inRange_v4 _ x0a x00 x00 x00 xff x00 x00 x00) by reflexivity.
      byte_consts'. rewrite !N.land_0_r, land_255, H. reflexivity.
    + apply (isPrivateIP_inRange _ "172.16.0.0/12"); [simpl; tauto|].
      rewrite (inRange_v4 _ xac x10 x00 x00 xff xf0 x00 x00) by reflexivity.
      byte_consts'. rewrite !N.land_0_r, land_255, land_240_16, H1.
      rewrite !andb_true_iff, !N.leb_le. repeat split; lia.
    + apply (isPrivateIP_inRange _ "192.168.0.0/16"); [simpl; tauto|].
      rewrite (inRange_v4 _ xc0 xa8 x00 x00 xff xff x00 x00) by reflexivity.
      byte_consts'. rewrite !N.land_0_r, !land_255, H1, H2. reflexivity.
    + apply isPrivateIP_linklocal. unfold IsLinkLocalUnicast.
      rewrite To4_of_4 by reflexivity. unfold at_. cbn [nth]. now rewrite H1, H2.
    + unfold isPrivateIP.
      assert (IsLinkLocalMulticast [a; b; c; d] = true) as ->.
      { unfold IsLinkLocalMulticast. rewrite To4_of_4 by reflexivity.
        unfold at_. cbn [nth]. now rewrite H1, H2, H3. }
      rewrite orb_true_r. now destruct (IsLoopback _).
    + apply (isPrivateIP_inRange _ "100.64.0.0/10"); [simpl; tauto|].
      rewrite (inRange_v4 _ x64 x40 x00 x00 xff xc0 x00 x00) by reflexivity.
      byte_consts'. rewrite !N.land_0_r, land_255, land_192_64, H1.
      rewrite !andb_true_iff, !N.leb_le. repeat split; lia.
Qed.

(** X5. The IPv4 addresses isPrivateIP blocks are exactly 127.0.0.0/8,
    10.0.0.0/8, 172.16.0.0/12, 192.168.0.0/16, 169.254.0.0/16,
    224.0.0.0/24 and 100.64.0.0/10, and nothing else (0.0.0.0 and the
    other multicast and reserved blocks pass); the same holds for the
    address in its 16-byte IPv4-mapped form. *)
Theorem isPrivateIP_v4_iff (a b c d : byte) :
  (isPrivateIP [a; b; c; d] = true <-> v4_blocked (to_N a) (to_N b) (to_N c))
  /\ (isPrivateIP (v4InV6Prefix ++ [a; b; c; d]) = true
      <-> v4_blocked (to_N a) (to_N b) (to_N c)).
Proof.
  split; [apply isPrivateIP_v4|].
  rewrite (isPrivateIP_To4 (v4InV6Prefix ++ [a; b; c; d]) [a; b; c; d]).
  - apply isPrivateIP_v4.
  - unfold v4InV6Prefix. cbn [app]. rewrite To4_16. reflexivity.
Qed.

Ltac byte_goal :=
  repeat match goal with
         | |- context [to_N ?b] =>
             is_constructor b;
             let v := eval vm_compute in (to_N b) in change (to_N b) with v
         end.

Lemma bytes_eqb_eq (a b : list byte) : bytes_eqb a b = true <-> a = b.
Proof.
  revert b. induction a as [|x a IH]; intros [|y b]; simpl; split; try discriminate; auto.
  - rewrite andb_true_iff, IH. intros [H ->]. apply Byte.byte_dec_bl in H. now subst.
  - intros [= -> ->]. rewrite (Byte.byte_dec_lb eq_refl). simpl. now apply IH.
Qed.

Lemma cidr_fe80 :
  ParseCIDR "fe80::/10"
  = Some (mkIPNet [xfe;x80;x00;x00;x00;x00;x00;x00;x00;x00;x00;x00;x00;x00;x00;x00]
                  [xff;xc0;x00;x00;x00;x00;x00;x00;x00;x00;x00;x00;x00;x00;x00;x00]).
Proof. reflexivity. Qed.

Lemma cidr_loopback :
  ParseCIDR "::1/128"
  = Some (mkIPNet [x00;x00;x00;x00;x00;x00;x00;x00;x00;x00;x00;x00;x00;x00;x00;x01]
                  [xff;xff;xff;xff;xff;xff;xff;xff;xff;xff;xff;xff;xff;xff;xff;xff]).
Proof. reflexivity. Qed.

Lemma land_192_128' (b : byte) :
  (N.land 128 192 =? N.land (Byte.to_N b) 192)%N
  = ((128 <=? Byte.to_N b) && (Byte.to_N b <=? 191))%N.
Proof. destruct b; reflexivity. Qed.

Lemma land_255_eq (n : byte) (b : byte) :
  (N.land (to_N n) 255 =? N.land (to_N b) 255)%N = Byte.eqb n b.
Proof. now rewrite !land_255, byte_eqb_to_N. Qed.

(** A 4-byte network never contains a 16-byte address that is not
    IPv4-mapped. *)
Lemma inRange_v4_net (cidr : string) (n0 n1 n2 n3 m0 m1 m2 m3 : byte) (ip : IP) :
  ParseCIDR cidr = Some (mkIPNet [n0;n1;n2;n3] [m0;m1;m2;m3]) ->
  To4 ip = None -> length ip = 16%nat -> inRange ip cidr = false.
Proof.
  intros HP H4 HL. unfold inRange. rewrite HP. unfold Contains, networkNumberAndMask.
  cbn [netIP netMask To4 length Nat.eqb IPv4len IPv6len negb]. rewrite H4, HL. reflexivity.
Qed.

(** X26. A 16-byte address that is not IPv4-mapped is blocked by
    isPrivateIP exactly when it is ::1, lies in fe80::/10 or fc00::/7,
    is a multicast address with the link-local scope (first byte ff, low
    half of the second byte 2), or prints as one of the two metadata
    texts. Nothing else is blocked: not the unspecified address, not the
    other multicast scopes, not an address that embeds an IPv4 address
    in another way than the mapped form. *)
Theorem isPrivateIP_v6_iff (b0 b1 b2 b3 b4 b5 b6 b7 b8 b9 b10 b11 b12 b13 b14 b15 : byte) :
  let ip := [b0;b1;b2;b3;b4;b5;b6;b7;b8;b9;b10;b11;b12;b13;b14;b15] in
  To4 ip = None -> (isPrivateIP ip = true <-> v6_blocked ip).
Proof.
  intros ip H4. subst ip. unfold v6_blocked. unfold at_ at 1 2 3 4 5 6. cbn [nth].
  set (ip := [b0;b1;b2;b3;b4;b5;b6;b7;b8;b9;b10;b11;b12;b13;b14;b15]) in *.
  assert (IsLoopback ip = true <-> ip = IPv6loopback) as HLoop.
  { unfold IsLoopback. rewrite H4. unfold Equal. subst ip.
    cbn [length Nat.eqb IPv6loopback]. apply bytes_eqb_eq. }
  assert (IsLinkLocalUnicast ip = true
          <-> (to_N b0 = 254 /\ 128 <= to_N b1 <= 191)%N) as HLLU.
  { unfold IsLinkLocalUnicast. rewrite H4. subst ip. unfold at_.
    cbn [length Nat.eqb IPv6len nth andb]. rewrite land_192_128.
    rewrite !andb_true_iff, N.eqb_eq, !N.leb_le. tauto. }
  assert (IsLinkLocalMulticast ip = true
          <-> (to_N b0 = 255 /\ N.land (to_N b1) 15 = 2)%N) as HLLM.
  { unfold IsLinkLocalMulticast. rewrite H4. subst ip. unfold at_.
    cbn [length Nat.eqb IPv6len nth andb]. rewrite !andb_true_iff, !N.eqb_eq. tauto. }
  assert (inRange ip "fc00::/7" = true <-> (252 <= to_N b0 <= 253)%N) as HFC.
  { rewrite (inRange_v6 _ _ _ cidr_fc00) by (reflexivity || assumption).
    subst ip. cbn [masked_eq netIP netMask hd tl]. byte_goal.
    rewrite !N.land_0_r, land_254_252. rewrite !N.eqb_refl, !andb_true_r.
    rewrite andb_true_iff, !N.leb_le. tauto. }
  assert (inRange ip "fe80::/10" = true
          <-> (to_N b0 = 254 /\ 128 <= to_N b1 <= 191)%N) as HFE.
  { rewrite (inRange_v6 _ _ _ cidr_fe80) by (reflexivity || assumption).
    subst ip. cbn [masked_eq netIP netMask hd tl]. byte_goal.
    rewrite !N.land_0_r, land_255, land_192_128'. rewrite !N.eqb_refl, !andb_true_r.
    change (N.land 254 255) with 254%N.
    rewrite !andb_true_iff, N.eqb_eq, !N.leb_le. split; [intros [-> H]|intros [-> H]]; tauto. }
  assert (inRange ip "::1/128" = true <-> ip = IPv6loopback) as HL1.
  { rewrite (inRange_v6 _ _ _ cidr_loopback) by (reflexivity || assumption).
    subst ip. cbn [masked_eq netIP netMask hd tl].
    change (to_N xff) with 255%N. rewrite !land_255_eq, andb_true_r. split.
    - intros H. repeat (apply andb_prop in H; destruct H as [?E H]).
      repeat match goal with
             | E : Byte.eqb _ _ = true |- _ => apply Byte.byte_dec_bl in E
             end.
      subst. reflexivity.
    - unfold IPv6loopback. intros [= -> -> -> -> -> -> -> -> -> -> -> -> -> -> -> ->].
      reflexivity. }
  assert (Hv4 : forall cidr n0 n1 n2 n3 m0 m1 m2 m3,
            ParseCIDR cidr = Some (mkIPNet [n0;n1;n2;n3] [m0;m1;m2;m3]) ->
            inRange ip cidr = false).
  { intros. eapply inRange_v4_net; eauto. }
  split.
  - unfold isPrivateIP.
    destruct (IsLoopback ip) eqn:E1; [intros _; left; now apply HLoop|].
    destruct (IsLinkLocalUnicast ip) eqn:E2; [intros _; right; left; now apply HLLU|].
    destruct (IsLinkLocalMulticast ip) eqn:E3; [intros _; right; right; left; now apply HLLM|].
    cbn [orb].
    destruct (existsb (inRange ip) privateRanges) eqn:E4.
    { intros _. apply existsb_exists in E4. destruct E4 as [cidr [Hin H]].
      simpl in Hin.
      destruct Hin as [<-|[<-|[<-|[<-|[<-|[<-|[<-|[<-|[<-|[]]]]]]]]]].
      - rewrite (Hv4 _ x0a x00 x00 x00 xff x00 x00 x00) in H by reflexivity. discriminate.
      - rewrite (Hv4 _ xac x10 x00 x00 xff xf0 x00 x00) in H by reflexivity. discriminate.
      - rewrite (Hv4 _ xc0 xa8 x00 x00 xff xff x00 x00) in H by reflexivity. discriminate.
      - rewrite (Hv4 _ xa9 xfe x00 x00 xff xff x00 x00) in H by reflexivity. discriminate.
      - right; right; right; left. now apply HFC.
      - right; left. now apply HFE.
      - left. now apply HL1.
      - rewrite (Hv4 _ xa9 xfe x00 x00 xff xff x00 x00) in H by reflexivity. discriminate.
      - rewrite (Hv4 _ x64 x40 x00 x00 xff xc0 x00 x00) in H by reflexivity. discriminate. }
    destruct (existsb _ metadataIPs) eqn:E5; [|discriminate].
    intros _. right; right; right; right.
    apply existsb_exists in E5. destruct E5 as [m [Hin Hm]].
    apply String.eqb_eq in Hm. now rewrite Hm.
  - intros [H|[H|[H|[H|H]]]].
    + apply isPrivateIP_loopback. now apply HLoop.
    + apply isPrivateIP_linklocal. now apply HLLU.
    + unfold isPrivateIP. apply HLLM in H. rewrite H, orb_true_r.
      now destruct (IsLoopback ip).
    + apply (isPrivateIP_inRange _ "fc00::/7"); [simpl; tauto|]. now apply HFC.
    + unfold isPrivateIP.
      assert (existsb (fun metaIP => String.eqb (String_ ip) metaIP) metadataIPs = true) as ->.
      { apply existsb_exists. exists (String_ ip). split; [exact H|apply String.eqb_refl]. }
      destruct (IsLoopback ip); [reflexivity|].
      destruct (_ || _); [reflexivity|].
      now destruct (existsb (inRange ip) privateRanges).
Qed.

End PrivateIPExact.

(** ** What the engines return *)
Section EngineReplies.
Import Http Spec Handlers.

Lemma take_length (n : nat) (s : string) :
  String.length (Strs.take n s) = Nat.min n (String.length s).
Proof.
  unfold Strs.take. revert s. induction n as [|n IH]; intros s.
  - destruct s; reflexivity.
  - destruct s as [|c s]; [reflexivity|]. simpl. now rewrite IH.
Qed.

Lemma take_prefix (n : nat) (s : string) : String.prefix (Strs.take n s) s = true.
Proof.
  unfold Strs.take. revert s. induction n as [|n IH]; intros s.
  - destruct s; reflexivity.
  - destruct s as [|c s]; [reflexivity|]. simpl.
    destruct (ascii_dec c c); [apply IH|congruence].
Qed.

Lemma prefix_refl (s : string) : String.prefix s s = true.
Proof.
  induction s as [|c s IH]; [reflexivity|]. simpl.
  destruct (ascii_dec c c); [exact IH|congruence].
Qed.

(** What the size-capped reader returns. *)
Lemma readLimited_spec (body : string) (n : Z) :
  String.prefix (readLimited body n) body = true
  /\ Z.of_nat (String.length (readLimited body n))
     = Z.min (Z.of_nat (String.length body)) (Z.max 0 n).
Proof.
  unfold readLimited. destruct (Z.of_nat (String.length body) <=? n)%Z eqn:E.
  - apply Z.leb_le in E. split; [apply prefix_refl|lia].
  - apply Z.leb_gt in E. split; [apply take_prefix|].
    rewrite take_length. lia.
Qed.

(** X6. When the public engine returns a response, it is built from the
    answer to the last request sent: the status is that answer's status
    code, and the body is the first MaxResponseSize bytes of that answer's
    body (all of it when it is shorter, nothing when the limit is not
    positive). *)
Theorem public_response_normalised (w : World) (cfg : Config)
    (method urlStr : string) (headers : gmap string string) (bodyStr : string)
    (sent : list Request) (response : Models.ExecutionResponse) :
  Handlers.executeHTTPRequest w cfg method urlStr headers bodyStr
  = (sent, Some (Ok response)) ->
  exists pre last resp,
    sent = pre ++ [last]
    /\ transport (network w) pre last = Ok resp
    /\ Models.Status response = StatusCode resp
    /\ String.prefix (Models.RespBody response) (RespBody resp) = true
    /\ Z.of_nat (String.length (Models.RespBody response))
       = Z.min (Z.of_nat (String.length (RespBody resp))) (Z.max 0 (MaxResponseSize cfg)).
Proof.
  unfold Handlers.executeHTTPRequest.
  destruct (NewRequest _ _ _) as [req0|]; [|discriminate].
  unfold Do. destruct (do_loop _ _ _ _ _) as [sent' [[resp|e]|]] eqn:ED; try discriminate.
  intros [= <- <-]. apply do_loop_response in ED.
  destruct ED as [pre [last [-> HT]]]. exists pre, last, resp. simpl.
  destruct (readLimited_spec (RespBody resp) (MaxResponseSize cfg)) as [H1 H2]. auto.
Qed.

(** X7. One call sends a bounded number of requests: the public engine
    at most MaxRedirects of them (one when MaxRedirects is below 1), the
    agent at most 5, whatever the target answers. *)
Theorem requests_bounded (w : World) (cfg : Config) (net : Network)
    (method urlStr : string) (headers : gmap string string) (bodyStr : string)
    (execReq : Agent.ExecuteRequest) (startTime endTime : Z) :
  (Z.of_nat (length (fst (Handlers.executeHTTPRequest w cfg method urlStr headers bodyStr)))
   <= Z.max 1 (MaxRedirects cfg))%Z
  /\ length (fst (Agent.executeHTTPRequest net execReq startTime endTime)) <= 5.
Proof.
  split.
  - rewrite executeHTTPRequest_sent.
    destruct (NewRequest _ _ _) as [req0|]; [|simpl; lia].
    pose proof (do_loop_length (network w) (Handlers.checkRedirect w cfg)
                  (Nat.max 1 (Z.to_nat (MaxRedirects cfg)))) as H.
    unfold Do. specialize (H ltac:(intros next via Hv; apply checkRedirect_bound; lia)
                             (Handlers.fuelFor (MaxRedirects cfg))
                             (Handlers.setHeaders headers req0) []
                             ltac:(simpl; lia)).
    lia.
  - rewrite agent_sent.
    destruct (NewRequest _ _ _) as [req0|]; [|simpl; lia].
    unfold Do. apply do_loop_length; [|simpl; lia].
    intros next via Hv. now rewrite agent_checkRedirect_stops.
Qed.

(** X8. The public handler always replies, with one of: 200 and an
    execution response carrying the measured duration; 502
    execution_error; or, before anything is sent, 400 invalid_id, 404
    not_found, 500 database_error, 400 invalid_item_type, 400
    invalid_request or 403 ssrf_protection. *)
Theorem reply_kinds (w : World) (cfg : Config) (lookup : Lookup)
    (payload : option (result (gmap string JValue))) (durationMs : Z) :
  exists reply,
    snd (ExecuteRequest w cfg lookup payload durationMs) = Some reply
    /\ ((exists response, reply = ReplyOK 200 response
                          /\ Models.DurationMs response = durationMs)
        \/ (exists msg, reply = ReplyError 502 "execution_error" msg)
        \/ (fst (ExecuteRequest w cfg lookup payload durationMs) = []
            /\ exists status kind msg,
                 reply = ReplyError status kind msg
                 /\ In (status, kind)
                       [ (400, "invalid_id"); (404, "not_found"); (500, "database_error");
                         (400, "invalid_item_type"); (400, "invalid_request");
                         (403, "ssrf_protection") ]%Z)).
Proof.
  unfold ExecuteRequest. destruct (prepare w cfg lookup payload) as [reply|call] eqn:EP.
  - exists reply. split; [reflexivity|]. right; right. split; [reflexivity|].
    unfold prepare in EP.
    destruct lookup as [| | |item].
    + injection EP as <-. repeat eexists. simpl. auto.
    + injection EP as <-. repeat eexists. simpl. auto.
    + injection EP as <-. repeat eexists. simpl. auto.
    + destruct (negb _); [injection EP as <-; repeat eexists; simpl; auto|].
      destruct (match payload with None => _ | Some _ => _ end);
        [|injection EP as <-; repeat eexists; simpl; auto 6].
      destruct (Models.Method item); [|injection EP as <-; repeat eexists; simpl; auto 6].
      destruct (String.eqb _ ""); [injection EP as <-; repeat eexists; simpl; auto 6|].
      destruct (Validator.ValidateExecutionURL _ _ _ _); [|discriminate].
      injection EP as <-. repeat eexists. simpl. auto 7.
  - pose proof (executeHTTPRequest_total w cfg (callMethod call) (callURL call)
                  (callHeaders call) (callBody call)) as HT.
    destruct (executeHTTPRequest _ _ _ _ _ _) as [sent [[response|e]|]].
    + eexists. split; [reflexivity|]. left. eexists. split; reflexivity.
    + eexists. split; [reflexivity|]. right; left. eexists. reflexivity.
    + now exfalso.
Qed.

(** X10. An empty string sent as the url override is not treated as
    absent: it replaces the URL stored with the item, and the call is
    refused with 400 invalid_request before the validator is asked. *)
Theorem empty_url_override_masks_stored_url (w : World) (cfg : Config)
    (item : Models.CollectionItem) (rawBody : gmap string JValue) (method : string) :
  Models.ItemType item = "request" ->
  Models.Method item = Some method ->
  rawBody !! "url" = Some (JString "") ->
  prepare w cfg (Row item) (Some (Ok rawBody))
  = inl (ReplyError 400 "invalid_request"
           "Request URL is missing. Provide URL in request body or ensure item has a URL.").
Proof.
  intros HT HM HU. unfold prepare. rewrite HT, HM. simpl.
  unfold extractOverrides. rewrite HU. reflexivity.
Qed.

(** X11. Once the payload binds, the agent always answers 200: with the
    status code and status text of the last answer and an empty error
    field when the exchange succeeds, and with status 0, an empty body and
    the error text, which is never empty, when it fails. *)
Theorem agent_reply_shape (net : Network) (execReq : Agent.ExecuteRequest)
    (startTime endTime : Z) :
  Agent.Method execReq <> "" -> Agent.URL execReq <> "" ->
  exists response,
    snd (Agent.executeHandler net (Ok execReq) startTime endTime)
    = Some (Agent.ReplyOK response)
    /\ ((Agent.Error response = ""
         /\ exists pre last resp,
              fst (Agent.executeHandler net (Ok execReq) startTime endTime) = pre ++ [last]
              /\ transport net pre last = Ok resp
              /\ Agent.Status response = StatusCode resp
              /\ Agent.StatusText response = Status resp)
        \/ (Agent.Status response = 0%Z
            /\ Agent.RespBody response = ""
            /\ exists err,
                 snd (Agent.executeHTTPRequest net execReq startTime endTime) = Some (Err err)
                 /\ Agent.Error response = Errors.Error err
                 /\ Agent.Error response <> "")).
Proof.
  intros HM HU. unfold Agent.executeHandler.
  apply String.eqb_neq in HM, HU. rewrite HM, HU. simpl.
  pose proof (agent_total net execReq startTime endTime) as HT.
  destruct (Agent.executeHTTPRequest net execReq startTime endTime)
    as [sent [[response|e]|]] eqn:EA.
  - exists response. split; [reflexivity|]. left.
    pose proof EA as EA'. unfold Agent.executeHTTPRequest in EA'.
    destruct (NewRequest _ _ _) as [req0|]; [|discriminate].
    unfold Do in EA'.
    destruct (do_loop _ _ _ _ _) as [sent' [[resp|e]|]] eqn:ED; try discriminate.
    injection EA' as <- <-. simpl. split; [reflexivity|].
    apply do_loop_response in ED. destruct ED as [pre [last [-> HTr]]].
    exists pre, last, resp. auto.
  - eexists. split; [reflexivity|]. right. simpl. repeat split.
    exists e. repeat split.
    unfold Agent.executeHTTPRequest in EA.
    destruct (NewRequest _ _ _) as [req0|].
    + destruct (Do _ _ _ _) as [sent' [[resp|e']|]]; try discriminate.
      injection EA as _ <-. simpl. discriminate.
    + injection EA as _ <-. simpl. discriminate.
  - now exfalso.
Qed.

End EngineReplies.

(** ** The validation of an uploaded collection *)
Section PostmanProperties.
Import Postman PostmanValidator Shapes Url Spec.

Lemma firstError_app {A : Type} (f : A -> option error) (l1 l2 : list A) :
  firstError f (l1 ++ l2)
  = match firstError f l1 with Some err => Some err | None => firstError f l2 end.
Proof.
  induction l1 as [|x l1 IH]; [reflexivity|]. simpl.
  destruct (f x); [reflexivity|exact IH].
Qed.

Lemma firstError_none {A : Type} (f : A -> option error) (l : list A) :
  firstError f l = None <-> Forall (fun x => f x = None) l.
Proof.
  induction l as [|x l IH]; simpl.
  - split; [constructor|reflexivity].
  - destruct (f x) eqn:E.
    + split; [discriminate|]. intros H. inversion H; congruence.
    + rewrite IH. split; [now constructor|]. intros H. now inversion H.
Qed.

(** An induction principle that reaches the items of a folder. *)
Lemma PostmanItem_nested_ind (P : PostmanItem -> Prop) :
  (forall name children request, Forall P children ->
     P (mkPostmanItem name children request)) ->
  forall item, P item.
Proof.
  intros H. fix IH 1. intros [name children request]. apply H.
  induction children as [|c cs IHcs]; constructor; [apply IH|exact IHcs].
Qed.

Lemma validateItem_leaves (maxHeaderCount : Z) (item : PostmanItem) :
  validateItem maxHeaderCount item
  = firstError (validateNamed maxHeaderCount) (leafRequests item).
Proof.
  induction item as [name children request IH] using PostmanItem_nested_ind.
  destruct children as [|c cs].
  - simpl. destruct request as [req|]; [|reflexivity]. simpl.
    unfold validateNamed. simpl. now destruct (validateRequest req maxHeaderCount).
  - change (validateItem maxHeaderCount (mkPostmanItem name (c :: cs) request))
      with (firstError (validateItem maxHeaderCount) (c :: cs)).
    change (leafRequests (mkPostmanItem name (c :: cs) request))
      with (flat_map leafRequests (c :: cs)).
    induction IH as [|x l Hx Hl IHl]; [reflexivity|].
    simpl. rewrite firstError_app, Hx.
    destruct (firstError _ (leafRequests x)); [reflexivity|exact IHl].
Qed.

Lemma validateItems_none (items : list PostmanItem) (maxHeaderCount : Z) :
  validateItems items maxHeaderCount = None
  <-> Forall (fun leaf => validateRequest (snd leaf) maxHeaderCount = None)
             (flat_map leafRequests items).
Proof.
  unfold validateItems. rewrite firstError_none.
  induction items as [|x l IH]; simpl.
  - split; constructor.
  - rewrite Forall_app, Forall_cons, IH, validateItem_leaves, firstError_none.
    assert (Forall (fun leaf => validateNamed maxHeaderCount leaf = None) (leafRequests x)
            <-> Forall (fun leaf => validateRequest (snd leaf) maxHeaderCount = None)
                       (leafRequests x)) as ->; [|reflexivity].
    apply Forall_iff. intros [name req]. unfold validateNamed. simpl.
    destruct (validateRequest req maxHeaderCount); split; congruence.
Qed.

(** X12. validateItems reports the error of the first request that
    fails, in document order, wrapped with the name of its item; it looks
    only at the requests of items that have no items of their own, so the
    request stored on a folder is never validated, and folder names never
    appear in the error. *)
Theorem validateItems_pre_order (items : list PostmanItem) (maxHeaderCount : Z) :
  validateItems items maxHeaderCount
  = firstError (validateNamed maxHeaderCount) (flat_map leafRequests items).
Proof.
  unfold validateItems. induction items as [|x l IH]; [reflexivity|].
  simpl. rewrite firstError_app, validateItem_leaves.
  destruct (firstError _ (leafRequests x)); [reflexivity|exact IH].
Qed.

Lemma validateURL_accepts (urlStr : string) (parsed : URL) :
  urlStr <> "" -> Parse urlStr = Ok parsed -> scheme_accepted parsed ->
  validateURL urlStr = None.
Proof.
  intros H0 HP HS. unfold validateURL. apply String.eqb_neq in H0. rewrite H0.
  destruct (_ && _); [reflexivity|].
  now rewrite HP, (scheme_accepted_test _ HS).
Qed.

(** X14. Every URL that the execution validator allows, under any
    resolver and any setting of the flags, passes the URL check of the
    upload. *)
Theorem execution_url_passes_upload_check (resolver : Resolver) (urlStr : string)
    (allowLocalhost allowPrivateIPs : bool) :
  Validator.ValidateExecutionURL resolver urlStr allowLocalhost allowPrivateIPs = None ->
  validateURL urlStr = None.
Proof.
  intros H. apply validate_none_elim in H.
  destruct H as [parsed [ips [HP [HS _]]]].
  apply (validateURL_accepts urlStr parsed); [|exact HP|exact HS].
  intros ->. unfold scheme_accepted in HS.
  vm_compute in HP. injection HP as <-. destruct HS as [HS|HS]; discriminate HS.
Qed.

(** X15. ValidatePostmanCollection returns a collection exactly when the
    data is no longer than maxRequestSize, decodes to that collection, the
    schema is one of the four v2.0 and v2.1 identifiers, there is at least
    one top-level item, and every request outside a folder's own request
    field passes validateRequest. *)
Theorem ValidatePostmanCollection_ok_iff (unmarshal : string -> result PostmanCollection)
    (data : string) (maxRequestSize maxHeaderCount : Z) (collection : PostmanCollection) :
  ValidatePostmanCollection unmarshal data maxRequestSize maxHeaderCount = Ok collection
  <-> (Z.of_nat (String.length data) <= maxRequestSize)%Z
      /\ unmarshal data = Ok collection
      /\ In (Schema (Info collection)) validSchemas
      /\ Items collection <> []
      /\ Forall (fun leaf => validateRequest (snd leaf) maxHeaderCount = None)
                (flat_map leafRequests (Items collection)).
Proof.
  unfold ValidatePostmanCollection.
  destruct (maxRequestSize <? Z.of_nat (String.length data))%Z eqn:ES.
  { apply Z.ltb_lt in ES. split; [discriminate|]. intros [H _]. lia. }
  apply Z.ltb_ge in ES.
  destruct (unmarshal data) as [c|e].
  2:{ split; [discriminate|]. intros [_ [H _]]. discriminate. }
  assert (isValidSchema (Schema (Info c)) = true <-> In (Schema (Info c)) validSchemas) as HV.
  { unfold isValidSchema. rewrite existsb_exists. split.
    - intros [x [Hin Hx]]. apply String.eqb_eq in Hx. now subst.
    - intros H. exists (Schema (Info c)). split; [exact H|apply String.eqb_refl]. }
  pose proof (validateItems_none (Items c) maxHeaderCount) as HI.
  destruct (isValidSchema (Schema (Info c))) eqn:EV; simpl.
  2:{ split; [discriminate|]. intros [_ [[= <-] [H _]]]. apply HV in H. discriminate. }
  destruct (Items c) as [|i l] eqn:EI; simpl.
  { split; [discriminate|]. intros [_ [[= <-] [_ [H _]]]]. congruence. }
  destruct (validateItems (i :: l) maxHeaderCount) eqn:EVI.
  - split; [discriminate|]. intros [_ [[= <-] [_ [_ H]]]].
    rewrite EI in H. apply HI in H. discriminate.
  - split.
    + intros [= <-]. split; [exact ES|]. split; [reflexivity|].
      split; [now apply HV|]. rewrite EI. split; [discriminate|]. now apply HI.
    + intros [_ [[= <-] _]]. reflexivity.
Qed.

End PostmanProperties.

(** ** The settings *)
Section ConfigurationProperties.
Import Url Spec.

Lemma Load_flags (lib : Configuration.Library) (env : string -> string)
    (c : Configuration.Settings) :
  Configuration.Load lib env = Ok c ->
  Configuration.AllowLocalhost c
  = String.eqb (Configuration.getEnv env "ALLOW_LOCALHOST" "true") "true"
  /\ Configuration.AllowPrivateIPs c
     = String.eqb (Configuration.getEnv env "ALLOW_PRIVATE_IPS" "true") "true".
Proof.
  unfold Configuration.Load.
  destruct (Configuration.parseDuration lib _); [|discriminate].
  destruct (Strconv.ParseInt _ _); [|discriminate].
  destruct (Strconv.ParseInt _ _); [|discriminate].
  destruct (Strconv.Atoi _ _); [|discriminate].
  destruct (Strconv.Atoi _ _); [|discriminate].
  destruct (Strconv.Atoi _ _); [|discriminate].
  cbv zeta.
  destruct (Strconv.Atoi _ _); [|discriminate].
  intros [= <-]. split; reflexivity.
Qed.

Lemma getEnv_flag (env : string -> string) (key : string) :
  String.eqb (Configuration.getEnv env key "true") "true" = true
  <-> env key = "" \/ env key = "true".
Proof.
  unfold Configuration.getEnv. destruct (String.eqb (env key) "") eqn:E; simpl.
  - apply String.eqb_eq in E. split; auto.
  - apply String.eqb_neq in E. rewrite String.eqb_eq. split; [auto|].
    intros [H|H]; [contradiction|exact H].
Qed.

(** X16. In the settings Load returns, AllowLocalhost is true exactly
    when ALLOW_LOCALHOST is unset, empty or the text true, and
    AllowPrivateIPs likewise for ALLOW_PRIVATE_IPS: the two protections
    are off unless the variable is set to something else, and any other
    text, such as TRUE or 1, turns the protection on. *)
Theorem flags_on_unless_set_otherwise (lib : Configuration.Library)
    (env : string -> string) (c : Configuration.Settings) :
  Configuration.Load lib env = Ok c ->
  (Configuration.AllowLocalhost c = true
   <-> env "ALLOW_LOCALHOST" = "" \/ env "ALLOW_LOCALHOST" = "true")
  /\ (Configuration.AllowPrivateIPs c = true
      <-> env "ALLOW_PRIVATE_IPS" = "" \/ env "ALLOW_PRIVATE_IPS" = "true").
Proof.
  intros H. apply Load_flags in H. destruct H as [-> ->].
  split; apply getEnv_flag.
Qed.

(** X17. With the settings loaded from an environment that sets neither
    ALLOW_LOCALHOST nor ALLOW_PRIVATE_IPS, the validator blocks no
    address: every http or https URL with a host name that resolves is
    allowed, wherever it resolves to. *)
Theorem default_settings_block_nothing (lib : Configuration.Library)
    (env : string -> string) (c : Configuration.Settings) (resolver : Resolver)
    (url : string) (parsed : URL) (ips : list Net.IP) :
  Configuration.Load lib env = Ok c ->
  env "ALLOW_LOCALHOST" = "" -> env "ALLOW_PRIVATE_IPS" = "" ->
  Parse url = Ok parsed -> scheme_accepted parsed -> Hostname parsed <> "" ->
  LookupIP resolver (Hostname parsed) = Ok ips ->
  Validator.ValidateExecutionURL resolver url
    (AllowLocalhost (Configuration.execution c))
    (AllowPrivateIPs (Configuration.execution c)) = None.
Proof.
  intros HL E1 E2 HP HS HN HI. apply Load_flags in HL. destruct HL as [H1 H2].
  simpl. rewrite H1, H2. unfold Configuration.getEnv. rewrite E1, E2. simpl.
  apply (validate_none_intro resolver url true true parsed ips); auto.
Qed.

End ConfigurationProperties.

(** ** The query of UpdateItem *)
Section UpdateItemProperties.
Import Items Shapes.

Lemma numbered_app (first : Z) (l1 l2 : list string) :
  numbered first (l1 ++ l2) = numbered first l1 ++ numbered (first + Z.of_nat (length l1)) l2.
Proof.
  revert first. induction l1 as [|x l1 IH]; intros first; simpl.
  - now rewrite Z.add_0_r.
  - rewrite IH. do 3 f_equal. lia.
Qed.

Lemma built_addUpdate (fields : list (string * string)) (b : Builder) (column value : string) :
  built fields b -> built (fields ++ [(column, value)]) (addUpdate column value b).
Proof.
  intros [HU [HA HC]]. unfold built, addUpdate. simpl.
  rewrite HU, HA, HC, !map_app, numbered_app, length_app, length_map. simpl.
  split; [|split; [reflexivity|lia]].
  do 4 f_equal; lia.
Qed.

Lemma built_addField (fields : list (string * string)) (b : Builder)
    (column : string) (field : option string) :
  built fields b ->
  built (fields ++ match field with Some v => [(column, v)] | None => [] end)
        (addField column field b).
Proof.
  intros H. destruct field as [v|]; simpl.
  - now apply built_addUpdate.
  - now rewrite app_nil_r.
Qed.

Lemma append_assoc (a b c : string) : (a +:+ b) +:+ c = a +:+ (b +:+ c).
Proof.
  induction a as [|x a IH]; [reflexivity|].
  change (String x ((a +:+ b) +:+ c) = String x (a +:+ (b +:+ c))). now rewrite IH.
Qed.

Lemma fold_query (others : list string) (prefix first : string) :
  fold_left (fun query u => query +:+ ", " +:+ u) others (prefix +:+ first)
  = prefix +:+ String.concat ", " (first :: others).
Proof.
  revert first. induction others as [|u others IH]; intros first; [reflexivity|].
  cbn [fold_left]. rewrite !append_assoc.
  rewrite (IH (first +:+ ", " +:+ u)). f_equal.
  cbn [String.concat]. destruct others; now rewrite ?append_assoc.
Qed.

(** X18. Whenever UpdateItem runs its UPDATE, the id parsed, the body
    decoded, the item is a request, the new method, if any, is one of the
    five verbs, and at least one field was provided. The statement sets
    exactly the provided fields among name, method, url, headers, body
    and extraction_rules, in this order, and updated_at; the i-th one
    uses placeholder $i and the i-th argument is its value; the WHERE
    clause uses the next placeholder and the last argument is the id. *)
Theorem update_query_shape (sv : Services) (maxRequestSize : Z) (idParam : string)
    (body : string) (query : string) (arguments : list Arg) (reply : Reply) :
  UpdateItem sv maxRequestSize idParam (Ok body) = (Some (query, arguments), reply) ->
  exists itemID req,
    Strconv.Atoi (quote sv) idParam = Ok itemID
    /\ unmarshal sv (Http.readLimited body maxRequestSize) = Ok req
    /\ selectType sv itemID = TypeFound "request"
    /\ Store.UpdateItem_checkMethod (Method req) = None
    /\ provided sv req <> []
    /\ query = "UPDATE collection_items SET "
                +:+ String.concat ", " (numbered 1 (map fst (provided sv req))
                                        ++ ["updated_at = NOW()"])
                +:+ " WHERE id = $"
                +:+ Http.itoa (1 + Z.of_nat (length (provided sv req)))
    /\ arguments = map (fun f => ArgString (snd f)) (provided sv req) ++ [ArgInt itemID].
Proof.
  unfold UpdateItem.
  destruct (Strconv.Atoi _ idParam) as [itemID|]; [|discriminate].
  destruct (unmarshal sv _) as [req|] eqn:EU; [|discriminate].
  destruct (selectType sv itemID) as [| |itemType] eqn:ET; try discriminate.
  destruct (String.eqb itemType "request") eqn:EQ; [|discriminate].
  apply String.eqb_eq in EQ. subst itemType. cbn [negb].
  destruct (Store.UpdateItem_checkMethod (Method req)) eqn:EM; [discriminate|].
  cbv zeta.
  assert (built [] (mkBuilder [] [] 1)) as B0 by (repeat split).
  apply (built_addField _ _ "name" (Name req)) in B0.
  apply (built_addField _ _ "method" (Method req)) in B0.
  apply (built_addField _ _ "url" (URL req)) in B0.
  cbn [app] in B0.
  set (b3 := addField "url" _ _) in *.
  assert (forall b4,
            match Headers req with
            | Some h => match marshalHeaders sv h with
                        | Err _ => None
                        | Ok headersJSON => Some (addUpdate "headers" headersJSON b3)
                        end
            | None => Some b3
            end = Some b4 ->
            built ((match Name req with Some v => [("name", v)] | None => [] end
                    ++ match Method req with Some v => [("method", v)] | None => [] end
                    ++ match URL req with Some v => [("url", v)] | None => [] end)
                   ++ match Headers req with
                      | Some h => match marshalHeaders sv h with
                                  | Ok v => [("headers", v)] | Err _ => [] end
                      | None => []
                      end) b4) as B4.
  { intros b4 H. destruct (Headers req) as [h|].
    - destruct (marshalHeaders sv h) as [v|]; [|discriminate].
      injection H as <-. apply built_addUpdate. now rewrite <- !app_assoc in *.
    - injection H as <-. rewrite app_nil_r. now rewrite <- !app_assoc in *. }
  destruct (match Headers req with Some _ => _ | None => _ end) as [b4|]; [|discriminate].
  specialize (B4 b4 eq_refl).
  apply (built_addField _ _ "body" (Body req)) in B4.
  set (b5 := addField "body" _ _) in *.
  assert (forall b6,
            match ExtractionRules req with
            | Some r => match marshalRules sv r with
                        | Err _ => None
                        | Ok rulesJSON => Some (addUpdate "extraction_rules" rulesJSON b5)
                        end
            | None => Some b5
            end = Some b6 -> built (provided sv req) b6) as B6.
  { intros b6 H. unfold provided. rewrite !app_assoc.
    destruct (ExtractionRules req) as [r|].
    - destruct (marshalRules sv r) as [v|]; [|discriminate].
      injection H as <-. apply built_addUpdate. now rewrite <- !app_assoc in *.
    - injection H as <-. rewrite app_nil_r. now rewrite <- !app_assoc in *. }
  destruct (match ExtractionRules req with Some _ => _ | None => _ end) as [b6|];
    [|discriminate].
  specialize (B6 b6 eq_refl). destruct B6 as [HU [HA HC]].
  destruct (length (updates b6) =? 0)%nat eqn:EL; [discriminate|].
  apply Nat.eqb_neq in EL.
  intros H. exists itemID, req.
  split; [reflexivity|]. split; [reflexivity|]. split; [exact ET|]. split; [exact EM|].
  assert (provided sv req <> []) as HNE.
  { intros E. rewrite E in HU. simpl in HU. rewrite HU in EL. now apply EL. }
  split; [exact HNE|].
  assert (query = queryText (updates b6 ++ ["updated_at = NOW()"]) (argCount b6)
          /\ arguments = args b6 ++ [ArgInt itemID]) as [-> ->].
  { destruct (exec sv _ _); injection H as <- <- _; split; reflexivity. }
  rewrite HU, HA, HC. split; [|reflexivity].
  unfold queryText.
  destruct (numbered 1 (map fst (provided sv req)) ++ ["updated_at = NOW()"])
    as [|first others] eqn:EN.
  { destruct (numbered 1 (map fst (provided sv req))); discriminate. }
  now rewrite fold_query.
Qed.

End UpdateItemProperties.

(** ** The batch update of the variables of an environment *)
Section EnvironmentProperties.
Import Environments Shapes.

Lemma mergeLoop_map (order : list (string * string)) (m : Variables) :
  exists merged,
    mergeLoop order (Some m) = Some (Some merged)
    /\ (forall k, k ∉ order.*1 -> merged !! k = m !! k)
    /\ (NoDup order.*1 -> forall k v, (k, v) ∈ order -> merged !! k = Some v).
Proof.
  revert m. induction order as [|[k0 v0] rest IH]; intros m.
  - exists m. split; [reflexivity|]. split; [reflexivity|].
    intros _ k v H. inversion H.
  - destruct (IH (<[k0 := v0]> m)) as [merged [HM [Hout Hin]]].
    exists merged. split; [exact HM|]. split.
    + intros k Hk. rewrite fmap_cons, not_elem_of_cons in Hk. destruct Hk as [Hne Hk].
      rewrite (Hout k Hk). now apply lookup_insert_ne.
    + intros ND k v Hkv. rewrite fmap_cons in ND. apply NoDup_cons in ND.
      destruct ND as [Hk0 ND]. apply elem_of_cons in Hkv. destruct Hkv as [[= -> ->]|Hkv].
      * rewrite (Hout k0 Hk0). apply lookup_insert_eq.
      * now apply (Hin ND).
Qed.

Lemma mergeLoop_nil_map (order : list (string * string)) :
  mergeLoop order None = if decide (order = []) then Some None else None.
Proof. destruct order as [|[k v] rest]; reflexivity. Qed.

Lemma order_entries (req : Variables) (order : list (string * string)) :
  order ≡ₚ map_to_list req ->
  NoDup order.*1
  /\ (forall k v, (k, v) ∈ order <-> req !! k = Some v)
  /\ (forall k, k ∉ order.*1 <-> req !! k = None)
  /\ (order = [] <-> req = ∅).
Proof.
  intros HP. split; [|split; [|split]].
  - rewrite HP. apply NoDup_fst_map_to_list.
  - intros k v. rewrite HP. apply elem_of_map_to_list.
  - intros k. rewrite HP. split.
    + intros H. destruct (req !! k) as [v|] eqn:E; [|reflexivity].
      exfalso. apply H. apply list_elem_of_fmap. exists (k, v).
      split; [reflexivity|]. now apply elem_of_map_to_list.
    + intros H Hk. apply list_elem_of_fmap in Hk. destruct Hk as [[k' v] [-> Hk]].
      apply elem_of_map_to_list in Hk. simpl in H. rewrite Hk in H. discriminate.
  - split.
    + intros ->. symmetry in HP. apply Permutation_nil_r in HP.
      now apply map_to_list_empty_iff.
    + intros ->. rewrite map_to_list_empty in HP. now apply Permutation_nil_r.
Qed.

(** X19. When the batch update of variables replies 200, in whatever
    order the loop meets the entries of the request, the variables it
    shows and writes are the stored ones overridden by the request: each
    variable of the request has the request's value, every other variable
    keeps its stored value, and none is removed. Stored variables that do
    not decode count as none. *)
Theorem batch_update_merges (json : Json) (req : Variables)
    (order : list (string * string)) (currentVarsJSON : string)
    (exec : string -> option error) (written : option string)
    (vars : option Variables) :
  order ≡ₚ map_to_list req ->
  BatchUpdateEnvironmentVariables json (Ok req) order (Found currentVarsJSON) exec
  = (written, ReplyOK vars) ->
  let stored := match unmarshalVars json currentVarsJSON with
                | Err _ => Some ∅
                | Ok decoded => decoded
                end in
  (forall k v, req !! k = Some v -> lookupVar vars k = Some v)
  /\ (forall k, req !! k = None -> lookupVar vars k = lookupVar stored k)
  /\ exists updatedVarsJSON,
       marshalVars json vars = Ok updatedVarsJSON /\ written = Some updatedVarsJSON.
Proof.
  intros HP. destruct (order_entries req order HP) as [ND [Hin [Hout Hnil]]].
  unfold BatchUpdateEnvironmentVariables. cbv zeta.
  set (stored := match unmarshalVars json currentVarsJSON with
                 | Err _ => Some ∅ | Ok decoded => decoded end).
  destruct (mergeLoop order stored) as [merged|] eqn:EM; [|discriminate].
  destruct (marshalVars json merged) as [w|] eqn:EW; [|discriminate].
  destruct (exec w); [discriminate|]. intros [= <- <-].
  destruct stored as [m|].
  - destruct (mergeLoop_map order m) as [merged' [HM [Hout' Hin']]].
    rewrite HM in EM. injection EM as <-. simpl. split; [|split].
    + intros k v Hk. apply (Hin' ND). now apply Hin.
    + intros k Hk. apply Hout'. now apply Hout.
    + exists w. auto.
  - rewrite mergeLoop_nil_map in EM. destruct (decide (order = [])) as [E|]; [|discriminate].
    injection EM as <-. simpl. apply Hnil in E. subst req. split; [|split].
    + intros k v Hk. rewrite lookup_empty in Hk. discriminate.
    + reflexivity.
    + exists w. auto.
Qed.

(** X20. The batch update of variables panics, on an environment that
    exists, exactly when the stored variables decode to the JSON null and
    the request holds at least one variable: the loop then writes into a
    nil map. *)
Theorem batch_update_panics (json : Json) (req : Variables)
    (order : list (string * string)) (currentVarsJSON : string)
    (exec : string -> option error) :
  order ≡ₚ map_to_list req ->
  (snd (BatchUpdateEnvironmentVariables json (Ok req) order (Found currentVarsJSON) exec)
   = Panic
   <-> unmarshalVars json currentVarsJSON = Ok None /\ req <> ∅).
Proof.
  intros HP. destruct (order_entries req order HP) as [_ [_ [_ Hnil]]].
  unfold BatchUpdateEnvironmentVariables. cbv zeta.
  destruct (unmarshalVars json currentVarsJSON) as [[m|]|e].
  - destruct (mergeLoop_map order m) as [merged [-> _]].
    split; [|intros [[=] _]].
    destruct (marshalVars json _); [destruct (exec _)|]; discriminate.
  - rewrite mergeLoop_nil_map. destruct (decide (order = [])) as [E|NE].
    + split; [|intros [_ H]; now apply Hnil in E].
      destruct (marshalVars json _); [destruct (exec _)|]; discriminate.
    + split; [|reflexivity]. intros _. split; [reflexivity|]. now rewrite <- Hnil.
  - destruct (mergeLoop_map order ∅) as [merged [-> _]].
    split; [|intros [[=] _]].
    destruct (marshalVars json _); [destruct (exec _)|]; discriminate.
Qed.

End EnvironmentProperties.

(** ** The insert of CreateItem *)
Section CreateItemProperties.
Import Items.

Lemma allowed_method_check (m : string) :
  Store.allowed m = true -> Store.method_check (Some m) = true.
Proof.
  intros H. apply allowed_verbs in H. unfold Spec.five_verbs in H. simpl.
  destruct H as [H|[H|[H|[H|H]]]]; subst m; reflexivity.
Qed.

(** X25. Every INSERT that CreateItem runs satisfies the two CHECK
    constraints of the table: the item type is folder or request, and the
    method is NULL or one of the five verbs. The insert of a folder names
    none of the four request columns, whatever the payload holds. The row
    goes into the collection of the path, which exists, under a parent
    of the same collection if one is named, with a sort order one above
    the highest among its siblings, or 0 when there is none. *)
Theorem create_insert_satisfies_checks (sv : CreateServices) (idParam : string)
    (bound : result CreateItemRequest) (stmt : CreateInsert) (reply : CreateReply) :
  CreateItem sv idParam bound = (Some stmt, reply) ->
  item_type_check (InsItemType stmt) = true
  /\ Store.method_check (InsMethod stmt) = true
  /\ (InsItemType stmt = "folder" ->
      InsMethod stmt = None /\ InsURL stmt = None
      /\ InsHeaders stmt = None /\ InsBody stmt = None)
  /\ exists collectionID maxSort,
       Strconv.Atoi (createQuote sv) idParam = Ok collectionID
       /\ InsCollectionID stmt = collectionID
       /\ collectionExists sv collectionID = Ok true
       /\ (forall parentID, InsParentID stmt = Some parentID ->
             parentOf sv parentID = Ok (true, collectionID))
       /\ maxSortOrder sv collectionID (InsParentID stmt) = Ok maxSort
       /\ InsSortOrder stmt = match maxSort with Some m => (m + 1)%Z | None => 0%Z end.
Proof.
  unfold CreateItem.
  destruct (Strconv.Atoi _ idParam) as [collectionID|]; [|discriminate].
  destruct (collectionExists sv collectionID) as [[|]|] eqn:EC; try discriminate.
  destruct bound as [createReq|]; [|discriminate].
  destruct (negb _ && negb _) eqn:ET; [discriminate|].
  destruct (Store.CreateItem_checkMethod _ _) eqn:EM; [discriminate|].
  assert (forall parentID, NewParentID createReq = Some parentID ->
            match NewParentID createReq with
            | Some parentID =>
                match parentOf sv parentID with
                | Err _ => Some "Parent item not found"
                | Ok (false, _) => Some "Parent item not found"
                | Ok (true, parentCollectionID) =>
                    if negb (parentCollectionID =? collectionID)%Z
                    then Some "Parent item must belong to the same collection"
                    else None
                end
            | None => None
            end = None -> parentOf sv parentID = Ok (true, collectionID)) as HP.
  { intros parentID ->. destruct (parentOf sv parentID) as [[[|] pc]|]; try discriminate.
    destruct (pc =? collectionID)%Z eqn:E; [|discriminate].
    apply Z.eqb_eq in E. now subst pc. }
  destruct (match NewParentID createReq with Some _ => _ | None => _ end) eqn:EP;
    [discriminate|].
  destruct (maxSortOrder sv collectionID (NewParentID createReq)) as [maxSort|] eqn:ES;
    [|discriminate].
  cbv zeta.
  destruct (createMarshalRules sv _) as [rulesJSON|]; [|discriminate].
  destruct (String.eqb (NewItemType createReq) "folder") eqn:EF.
  - intros H.
    assert (stmt = mkCreateInsert collectionID (NewParentID createReq) (NewName createReq)
                     (NewItemType createReq)
                     match maxSort with Some m => (m + 1)%Z | None => 0%Z end
                     None None None None rulesJSON) as ->.
    { destruct (insert sv _); now injection H as <- _. }
    simpl. unfold item_type_check. rewrite EF. simpl.
    split; [reflexivity|]. split; [reflexivity|]. split; [auto|].
    exists collectionID, maxSort. repeat split; auto.
  - destruct (createMarshalHeaders sv _) as [headersJSON|]; [|discriminate].
    intros H.
    assert (stmt = mkCreateInsert collectionID (NewParentID createReq) (NewName createReq)
                     (NewItemType createReq)
                     match maxSort with Some m => (m + 1)%Z | None => 0%Z end
                     (Some (NewMethod createReq)) (Some (NewURL createReq))
                     (Some headersJSON) (Some (NewBody createReq)) rulesJSON) as ->.
    { destruct (insert sv _); now injection H as <- _. }
    rewrite ?EF in ET. simpl in ET. apply negb_false_iff in ET.
    cbn [InsItemType InsMethod InsURL InsHeaders InsBody InsCollectionID InsParentID
         InsSortOrder].
    unfold item_type_check. rewrite ET, orb_true_r.
    split; [reflexivity|]. split.
    + unfold Store.CreateItem_checkMethod in EM. rewrite ET in EM.
      destruct (String.eqb (NewMethod createReq) ""); [discriminate|].
      destruct (Store.allowed (NewMethod createReq)) eqn:EA; [|discriminate].
      now apply allowed_method_check.
    + split.
      * intros HF. apply String.eqb_neq in EF. contradiction.
      * exists collectionID, maxSort. repeat split; auto.
Qed.


End CreateItemProperties.

(** ** The tree of the items *)
Section TreeProperties.
Import Tree Shapes.

Lemma LTree_nested_ind (P : LTree -> Prop) :
  (forall id stmt children, Forall P children -> P (LNode id stmt children)) ->
  forall t, P t.
Proof.
  intros H. fix IH 1. intros [id stmt children]. apply H.
  induction children as [|c cs IHcs]; constructor; [apply IH|exact IHcs].
Qed.

Lemma parented_node (p : option Z) (id : Z) (stmt : Collections.Insert)
    (children : list LTree) :
  parented p (LNode id stmt children)
  <-> Collections.ParentID stmt = p /\ Forall (parented (Some id)) children.
Proof.
  simpl. split; intros [H1 H2]; (split; [exact H1|]).
  - induction children as [|c cs IH]; constructor; [apply H2|apply IH, H2].
  - induction H2 as [|c cs Hc Hcs IH]; [exact I|split; assumption].
Qed.

(** *** The first pass *)

Lemma firstPass_snoc (items : list CollectionItem) (x : CollectionItem) :
  firstPass (items ++ [x]) = firstPass_step (firstPass items) x.
Proof. unfold firstPass. now rewrite fold_left_app. Qed.

Lemma firstPass_roots (items : list CollectionItem) :
  rootIDs (firstPass items) = map ID (List.filter isRoot items).
Proof.
  induction items as [|x items IH] using rev_ind; [reflexivity|].
  rewrite firstPass_snoc, List.filter_app, map_app. unfold firstPass_step, isRoot at 2.
  simpl. destruct (ParentID x) as [p|]; [destruct (p =? 0)%Z|]; simpl;
    rewrite IH, ?app_nil_r; reflexivity.
Qed.

Lemma firstPass_children (items : list CollectionItem) (p : Z) :
  default [] (childrenMap (firstPass items) !! p) = map ID (List.filter (childOf p) items).
Proof.
  induction items as [|x items IH] using rev_ind; [reflexivity|].
  rewrite firstPass_snoc, List.filter_app, map_app. unfold firstPass_step, childOf at 2.
  simpl. destruct (ParentID x) as [q|]; simpl.
  - destruct (q =? 0)%Z eqn:E0; simpl.
    + rewrite andb_false_r. simpl. now rewrite IH, app_nil_r.
    + rewrite andb_true_r. destruct (q =? p)%Z eqn:Eq.
      * apply Z.eqb_eq in Eq. subst q. rewrite lookup_insert_eq. simpl. now rewrite IH.
      * apply Z.eqb_neq in Eq. rewrite lookup_insert_ne by exact Eq.
        simpl. now rewrite IH, app_nil_r.
  - now rewrite IH, app_nil_r.
Qed.

Lemma firstPass_nodeMap_snoc (items : list CollectionItem) (x : CollectionItem) :
  nodeMap (firstPass (items ++ [x])) = <[ID x := newNode x]> (nodeMap (firstPass items)).
Proof.
  rewrite firstPass_snoc. unfold firstPass_step.
  destruct (ParentID x) as [q|]; [destruct (q =? 0)%Z|]; reflexivity.
Qed.

Lemma firstPass_nodes (items : list CollectionItem) (item : CollectionItem) :
  NoDup (map ID items) -> In item items ->
  nodeMap (firstPass items) !! ID item = Some (newNode item).
Proof.
  induction items as [|x items IH] using rev_ind; [intros _ []|].
  rewrite map_app, firstPass_nodeMap_snoc. intros ND Hin.
  apply NoDup_app in ND. destruct ND as [ND [Hdisj _]].
  apply in_app_or in Hin. destruct Hin as [Hin|[<-|[]]].
  - rewrite lookup_insert_ne; [now apply IH|].
    intros E. apply (Hdisj (ID item)).
    + apply list_elem_of_In, in_map, Hin.
    + rewrite <- E. simpl. left.
  - apply lookup_insert_eq.
Qed.

Lemma buildNode_eq (fuel : nat) (m : Maps) (id : Z) :
  buildNode (S fuel) m id
  = match nodeMap m !! id with
    | None => None
    | Some node =>
        match collect (buildNode fuel m) (default [] (childrenMap m !! id)) with
        | None => None
        | Some children => Some (withChildren node children)
        end
    end.
Proof.
  simpl. destruct (nodeMap m !! id); [|reflexivity].
  destruct (childrenMap m !! id); reflexivity.
Qed.

Lemma collect_map {A B C : Type} (f : A -> option B) (g : C -> A) (h : C -> B)
    (l : list C) :
  Forall (fun c => f (g c) = Some (h c)) l -> collect f (map g l) = Some (map h l).
Proof.
  induction 1 as [|c l Hc Hl IH]; [reflexivity|].
  simpl. now rewrite Hc, IH.
Qed.

Lemma filter_none {A : Type} (f : A -> bool) (l : list A) :
  (forall x, In x l -> f x = false) -> List.filter f l = [].
Proof.
  induction l as [|x l IH]; [reflexivity|]. intros H. simpl.
  rewrite (H x (or_introl eq_refl)). apply IH. intros y Hy. apply H. now right.
Qed.

Lemma kidsOf_app (q : Z) (l1 l2 : Collections.Rows) :
  kidsOf q (l1 ++ l2) = kidsOf q l1 ++ kidsOf q l2.
Proof. apply List.filter_app. Qed.

Lemma childOf_row (q : Z) (r : Z * Collections.Insert) :
  childOf q (rowOf r) = true <-> Collections.ParentID (snd r) = Some q /\ q <> 0%Z.
Proof.
  unfold childOf, rowOf. simpl. destruct (Collections.ParentID (snd r)) as [p|].
  - rewrite andb_true_iff, negb_true_iff, Z.eqb_eq, Z.eqb_neq. split.
    + intros [-> H]. auto.
    + intros [[= ->] H]. auto.
  - split; [discriminate|]. intros [[=] _].
Qed.

Lemma ids_child (id : Z) (stmt : Collections.Insert) (cs : list LTree) (c : LTree) (q : Z) :
  In c cs -> In q (ids c) -> In q (ids (LNode id stmt cs)).
Proof.
  unfold ids. rewrite !in_map_iff. intros Hc [r [<- Hr]].
  exists r. split; [reflexivity|]. simpl. right.
  apply in_flat_map. exists c. auto.
Qed.

Lemma ids_node (id : Z) (stmt : Collections.Insert) (cs : list LTree) (q : Z) :
  In q (ids (LNode id stmt cs)) <-> q = id \/ exists c, In c cs /\ In q (ids c).
Proof.
  split.
  - unfold ids. simpl. intros [<-|H]; [left; reflexivity|]. right.
    apply in_map_iff in H. destruct H as [r [<- Hr]].
    apply in_flat_map in Hr. destruct Hr as [c [Hc Hr]].
    exists c. split; [exact Hc|]. apply in_map_iff. exists r. auto.
  - intros [->|[c [Hc Hq]]]; [left; reflexivity|]. now apply (ids_child id stmt cs c).
Qed.

Lemma parents_in (t : LTree) :
  forall p, parented p t ->
  forall r, In r (flat t) ->
    Collections.ParentID (snd r) = p
    \/ exists q, In q (ids t) /\ Collections.ParentID (snd r) = Some q.
Proof.
  induction t as [id stmt cs IH] using LTree_nested_ind.
  intros p Hp r Hr. apply parented_node in Hp. destruct Hp as [Hs Hcs].
  simpl in Hr. destruct Hr as [<-|Hr]; [left; exact Hs|].
  right. apply in_flat_map in Hr. destruct Hr as [c [Hc Hr]].
  rewrite List.Forall_forall in IH, Hcs.
  destruct (IH c Hc (Some id) (Hcs c Hc) r Hr) as [H|[q [Hq H]]].
  - exists id. split; [left; reflexivity|exact H].
  - exists q. split; [|exact H]. now apply (ids_child id stmt cs c).
Qed.

Lemma kids_outside (t : LTree) (p : option Z) (q : Z) :
  parented p t -> p <> Some q -> ~ In q (ids t) -> kidsOf q (flat t) = [].
Proof.
  intros Hp Hpq Hq. apply filter_none. intros r Hr.
  destruct (childOf q (rowOf r)) eqn:E; [|reflexivity].
  apply childOf_row in E. destruct E as [E _].
  destruct (parents_in t p Hp r Hr) as [H|[q' [Hq' H]]]; congruence.
Qed.

Lemma kids_outside_forest (cs : list LTree) (p : option Z) (q : Z) :
  Forall (parented p) cs -> p <> Some q ->
  (forall c, In c cs -> ~ In q (ids c)) ->
  kidsOf q (flat_map flat cs) = [].
Proof.
  intros Hp Hpq Hq. induction cs as [|c cs IH]; [reflexivity|].
  simpl. rewrite kidsOf_app. apply Forall_cons in Hp. destruct Hp as [Hc Hcs].
  rewrite (kids_outside c p q Hc Hpq); [|apply Hq; now left].
  apply IH; [exact Hcs|]. intros c' Hc'. apply Hq. now right.
Qed.

Lemma forestIds_cons (c : LTree) (cs : list LTree) :
  forestIds (c :: cs) = ids c ++ forestIds cs.
Proof. unfold forestIds, ids. simpl. now rewrite map_app. Qed.

Lemma forestIds_in (cs : list LTree) (q : Z) :
  In q (forestIds cs) <-> exists c, In c cs /\ In q (ids c).
Proof.
  unfold forestIds, ids. rewrite in_map_iff. split.
  - intros [r [<- Hr]]. apply in_flat_map in Hr. destruct Hr as [c [Hc Hr]].
    exists c. split; [exact Hc|]. apply in_map_iff. exists r. auto.
  - intros [c [Hc Hq]]. apply in_map_iff in Hq. destruct Hq as [r [<- Hr]].
    exists r. split; [reflexivity|]. apply in_flat_map. exists c. auto.
Qed.

Lemma ids_forest (id : Z) (stmt : Collections.Insert) (cs : list LTree) :
  ids (LNode id stmt cs) = id :: forestIds cs.
Proof. reflexivity. Qed.

(** In a forest with distinct ids, the rows below [q], an id of the tree
    [c], are those of [c]. *)
Lemma kids_in_forest (cs : list LTree) (p : option Z) (q : Z) (c : LTree) :
  NoDup (forestIds cs) -> Forall (parented p) cs -> p <> Some q ->
  In c cs -> In q (ids c) ->
  kidsOf q (flat_map flat cs) = kidsOf q (flat c).
Proof.
  intros ND Hp Hpq. revert c. induction cs as [|c0 cs IH]; intros c Hc Hq; [destruct Hc|].
  rewrite forestIds_cons in ND. apply Forall_cons in Hp. destruct Hp as [Hc0 Hcs].
  simpl. rewrite kidsOf_app.
  destruct Hc as [->|Hc].
  - rewrite (kids_outside_forest cs p q Hcs Hpq); [now rewrite app_nil_r|].
    intros c' Hc' Hq'. apply NoDup_app in ND. destruct ND as [_ [ND _]].
    apply (ND q); apply list_elem_of_In; [exact Hq|].
    apply forestIds_in. exists c'. auto.
  - rewrite (kids_outside c0 p q Hc0 Hpq).
    + simpl. apply IH; try assumption. apply NoDup_app in ND. tauto.
    + intros Hq0. apply NoDup_app in ND. destruct ND as [_ [ND _]].
      apply (ND q); apply list_elem_of_In; [exact Hq0|].
      apply forestIds_in. exists c. auto.
Qed.

Lemma kids_of_forest_roots (cs : list LTree) (id : Z) :
  Forall (parented (Some id)) cs -> id <> 0%Z -> ~ In id (forestIds cs) ->
  kidsOf id (flat_map flat cs) = map root cs.
Proof.
  intros Hp H0 Hid. induction cs as [|c cs IH]; [reflexivity|].
  apply Forall_cons in Hp. destruct Hp as [Hc Hcs].
  rewrite forestIds_cons in Hid. simpl. rewrite kidsOf_app, IH; [|exact Hcs|].
  2:{ intros H. apply Hid. apply in_or_app. now right. }
  assert (kidsOf id (flat c) = [root c]) as ->; [|reflexivity].
  destruct c as [idc stmtc gs]. apply parented_node in Hc.
  destruct Hc as [Hs Hgs]. simpl. unfold kidsOf. simpl.
  assert (childOf id (rowOf (idc, stmtc)) = true) as ->.
  { apply childOf_row. auto. }
  f_equal. apply (kids_outside_forest gs (Some idc) id Hgs).
  - intros [= ->]. apply Hid. apply in_or_app. left. now left.
  - intros g Hg Hq. apply Hid. apply in_or_app. left.
    now apply (ids_child idc stmtc gs g).
Qed.

Lemma kids_root (id : Z) (stmt : Collections.Insert) (cs : list LTree) (p : option Z) :
  parented p (LNode id stmt cs) -> NoDup (ids (LNode id stmt cs)) ->
  p <> Some id -> id <> 0%Z ->
  kidsOf id (flat (LNode id stmt cs)) = map root cs.
Proof.
  intros Hp ND Hpid H0. apply parented_node in Hp. destruct Hp as [Hs Hcs].
  rewrite ids_forest in ND. apply NoDup_cons in ND. destruct ND as [Hid ND].
  simpl. unfold kidsOf at 1. simpl.
  assert (childOf id (rowOf (id, stmt)) = false) as ->.
  { destruct (childOf id (rowOf (id, stmt))) eqn:E; [|reflexivity].
    apply childOf_row in E. simpl in E. destruct E as [E _]. congruence. }
  apply kids_of_forest_roots; [exact Hcs|exact H0|].
  intros H. apply Hid. now apply list_elem_of_In.
Qed.

Lemma height_child (id : Z) (stmt : Collections.Insert) (cs : list LTree) (c : LTree) :
  In c cs -> (height c < height (LNode id stmt cs))%nat.
Proof.
  simpl. induction cs as [|c0 cs IH]; [intros []|].
  intros [->|H]; simpl; [lia|]. specialize (IH H). lia.
Qed.

Lemma height_flat (t : LTree) : (height t <= length (flat t))%nat.
Proof.
  induction t as [id stmt cs IH] using LTree_nested_ind. simpl.
  apply le_n_S. induction IH as [|c cs Hc Hcs IHcs]; simpl; [lia|].
  rewrite length_app. lia.
Qed.

Lemma filter_rows {A B : Type} (f : B -> bool) (g : A -> B) (l : list A) :
  List.filter f (map g l) = map g (List.filter (fun x => f (g x)) l).
Proof.
  induction l as [|x l IH]; [reflexivity|]. simpl.
  destruct (f (g x)); simpl; now rewrite IH.
Qed.

Section Rows.
Variable R : Collections.Rows.
Hypothesis R_nodup : NoDup (map fst R).
Hypothesis R_nonzero : forall r, In r R -> fst r <> 0%Z.

Lemma rows_node (r : Z * Collections.Insert) :
  In r R -> nodeMap (firstPass (map rowOf R)) !! fst r = Some (newNode (rowOf r)).
Proof.
  intros Hr. apply (firstPass_nodes (map rowOf R) (rowOf r)).
  - rewrite map_map. exact R_nodup.
  - now apply in_map.
Qed.

Lemma rows_children (q : Z) :
  default [] (childrenMap (firstPass (map rowOf R)) !! q) = map fst (kidsOf q R).
Proof.
  rewrite firstPass_children, filter_rows, map_map. reflexivity.
Qed.

Lemma build_subtree (t : LTree) :
  forall (p : option Z) (fuel : nat),
    parented p t ->
    NoDup (ids t) ->
    (forall q, In q (ids t) -> p <> Some q) ->
    incl (flat t) R ->
    (forall q, In q (ids t) -> kidsOf q R = kidsOf q (flat t)) ->
    (height t < fuel)%nat ->
    buildNode fuel (firstPass (map rowOf R)) (fst (root t)) = Some (nodeL t).
Proof.
  induction t as [id stmt cs IH] using LTree_nested_ind.
  intros p fuel Hp ND Hpar Hincl Hkids Hfuel.
  destruct fuel as [|fuel]; [lia|].
  assert (In (id, stmt) R) as HR by (apply Hincl; now left).
  assert (id <> 0%Z) as H0 by (exact (R_nonzero _ HR)).
  assert (In id (ids (LNode id stmt cs))) as Hid by now left.
  rewrite buildNode_eq. cbn [root fst].
  pose proof (rows_node (id, stmt) HR) as HN. cbn [fst] in HN.
  rewrite HN, rows_children, (Hkids id Hid).
  rewrite (kids_root id stmt cs p Hp ND (Hpar id Hid) H0), map_map.
  pose proof Hp as Hp'. apply parented_node in Hp'. destruct Hp' as [Hs Hcs].
  pose proof ND as ND'. rewrite ids_forest in ND'. apply NoDup_cons in ND'.
  destruct ND' as [Hnotin NDcs].
  rewrite (collect_map _ (fun c => fst (root c)) nodeL); [reflexivity|].
  rewrite List.Forall_forall in IH, Hcs. apply List.Forall_forall. intros c Hc.
  assert (forall q, In q (ids c) -> In q (ids (LNode id stmt cs))) as Hsub.
  { intros q Hq. now apply (ids_child id stmt cs c). }
  apply (IH c Hc (Some id)).
  - now apply Hcs.
  - clear -NDcs Hc. induction cs as [|c0 cs IHcs]; [destruct Hc|].
    rewrite forestIds_cons in NDcs. apply NoDup_app in NDcs.
    destruct Hc as [->|Hc]; [tauto|]. apply IHcs; tauto.
  - intros q Hq [= ->]. apply Hnotin. apply list_elem_of_In.
    apply forestIds_in. exists c. auto.
  - intros r Hr. apply Hincl. simpl. right. apply in_flat_map. exists c. auto.
  - intros q Hq. rewrite (Hkids q (Hsub q Hq)).
    change (flat (LNode id stmt cs)) with ([(id, stmt)] ++ flat_map flat cs).
    rewrite kidsOf_app.
    assert (kidsOf q [(id, stmt)] = []) as ->.
    { unfold kidsOf. simpl. destruct (childOf q (rowOf (id, stmt))) eqn:E; [|reflexivity].
      apply childOf_row in E. simpl in E. destruct E as [E _].
      exfalso. apply (Hpar q (Hsub q Hq)). congruence. }
    simpl. apply (kids_in_forest cs (Some id) q c); try assumption.
    + now apply List.Forall_forall.
    + intros [= ->]. apply Hnotin. apply list_elem_of_In.
      apply forestIds_in. exists c. auto.
  - pose proof (height_child id stmt cs c Hc). lia.
Qed.

End Rows.

Lemma roots_of_forest (F : list LTree) :
  Forall (parented None) F ->
  (forall q, In q (forestIds F) -> q <> 0%Z) ->
  List.filter (fun r => isRoot (rowOf r)) (flat_map flat F) = map root F.
Proof.
  intros Hp H0. induction F as [|t F IH]; [reflexivity|].
  apply Forall_cons in Hp. destruct Hp as [Ht HF].
  simpl. rewrite List.filter_app, IH; [|exact HF|].
  2:{ intros q Hq. apply H0. rewrite forestIds_cons. apply in_or_app. now right. }
  assert (List.filter (fun r => isRoot (rowOf r)) (flat t) = [root t]) as ->; [|reflexivity].
  assert (forall q, In q (ids t) -> q <> 0%Z) as H0t.
  { intros q Hq. apply H0. rewrite forestIds_cons. apply in_or_app. now left. }
  clear H0 IH. rename H0t into H0.
  destruct t as [id stmt cs]. apply parented_node in Ht.
  destruct Ht as [Hs Hcs]. simpl.
  assert (isRoot (rowOf (id, stmt)) = true) as ->.
  { unfold isRoot, rowOf. simpl. now rewrite Hs. }
  f_equal. apply filter_none. intros r Hr.
  apply in_flat_map in Hr. destruct Hr as [c [Hc Hr]].
  rewrite List.Forall_forall in Hcs. pose proof H0 as H0'.
  unfold isRoot, rowOf. simpl.
  destruct (parents_in c (Some id) (Hcs c Hc) r Hr) as [->|[q [Hq ->]]].
  - apply Z.eqb_neq. apply H0'. now left.
  - apply Z.eqb_neq. apply H0'. now apply (ids_child id stmt cs c).
Qed.

Lemma forest_nodup_tree (F : list LTree) (t : LTree) :
  NoDup (forestIds F) -> In t F -> NoDup (ids t).
Proof.
  induction F as [|t0 F IH]; [intros _ []|].
  rewrite forestIds_cons. intros ND Ht. apply NoDup_app in ND.
  destruct Ht as [->|Ht]; [tauto|]. apply IH; tauto.
Qed.

Lemma tree_of_forest (F : list LTree) (fuel : nat) :
  Forall (parented None) F ->
  NoDup (forestIds F) ->
  (forall q, In q (forestIds F) -> q <> 0%Z) ->
  (length (flat_map flat F) < fuel)%nat ->
  buildTree fuel (map rowOf (flat_map flat F)) = Some (map nodeL F).
Proof.
  intros Hp ND H0 Hfuel. unfold buildTree. cbv zeta.
  rewrite firstPass_roots, filter_rows, map_map, (roots_of_forest F Hp H0), map_map.
  apply (collect_map _ (fun t => fst (root t)) nodeL).
  apply List.Forall_forall. intros t Ht.
  assert (forall r, In r (flat t) -> In r (flat_map flat F)) as Hincl.
  { intros r Hr. apply in_flat_map. exists t. auto. }
  apply (build_subtree (flat_map flat F) ND) with (p := None).
  - intros r Hr. apply H0. unfold forestIds. now apply in_map.
  - rewrite List.Forall_forall in Hp. now apply Hp.
  - now apply (forest_nodup_tree F t).
  - discriminate.
  - exact Hincl.
  - intros q Hq. now apply (kids_in_forest F None q t).
  - pose proof (height_flat t).
    assert (length (flat t) <= length (flat_map flat F))%nat; [|lia].
    clear -Ht. induction F as [|t0 F IH]; [destruct Ht|].
    simpl. rewrite length_app. destruct Ht as [->|Ht]; [lia|]. specialize (IH Ht). lia.
Qed.

End TreeProperties.

(** ** The import of the items *)
Section ImportProperties.
Import Postman Collections Shapes.
Variable db : Database.
Variable marshal : list PostmanHeader -> result string.
Variable collectionID : Z.
Hypothesis db_fresh : fresh_ids db.

Lemma clean_snoc (rows : Rows) (stmt : Insert) (id : Z) :
  insertItem db rows stmt = Ok id -> clean rows -> clean (rows ++ [(id, stmt)]).
Proof.
  intros HI [ND H0]. destruct (db_fresh rows stmt id HI) as [Hid Hnew]. split.
  - rewrite map_app. apply NoDup_app. split; [exact ND|]. split.
    + intros x Hx Hx'. apply list_elem_of_In in Hx'. destruct Hx' as [<-|[]].
      now apply Hnew.
    + apply NoDup_singleton.
  - intros r Hr. apply in_app_or in Hr. destruct Hr as [Hr|[<-|[]]]; [now apply H0|exact Hid].
Qed.

Lemma forEach_forest (parentID : Z) (items : list PostmanItem) :
  Forall (fun item => forall i rows rows',
            importItem db marshal collectionID parentID i item rows = (rows', None) ->
            step_forest marshal parentID i item rows rows') items ->
  forall i rows rows',
    forEach (importItem db marshal collectionID parentID) i items rows = (rows', None) ->
    exists F,
      rows' = rows ++ flat_map flat F
      /\ Forall (parented (nullInt parentID)) F
      /\ map (fun t => outline (nodeL t)) F = flatMapIndexed (imported marshal) i items
      /\ (clean rows -> clean rows').
Proof.
  induction 1 as [|item items Hitem _ IH]; intros i rows rows' H.
  - injection H as <-. exists []. rewrite app_nil_r.
    split; [reflexivity|]. split; [constructor|]. split; [reflexivity|auto].
  - simpl in H.
    destruct (importItem db marshal collectionID parentID i item rows)
      as [rows1 [err|]] eqn:E1; [discriminate|].
    destruct (Hitem i rows rows1 E1) as [F1 [-> [HP1 [HO1 HC1]]]].
    destruct (IH _ _ _ H) as [F2 [-> [HP2 [HO2 HC2]]]].
    exists (F1 ++ F2). rewrite flat_map_app, app_assoc.
    split; [reflexivity|]. split; [now apply Forall_app|].
    split; [|auto]. simpl. now rewrite map_app, HO1, HO2.
Qed.

Lemma importItem_forest (item : PostmanItem) :
  forall parentID i rows rows',
    importItem db marshal collectionID parentID i item rows = (rows', None) ->
    step_forest marshal parentID i item rows rows'.
Proof.
  induction item as [name children request IH] using PostmanItem_nested_ind.
  intros parentID i rows rows' H. destruct children as [|c cs].
  - simpl in H. destruct request as [req|].
    + destruct (marshal (Header req)) as [headersJSON|] eqn:EM; [|discriminate].
      destruct (insertItem db rows _) as [id|] eqn:EI; [|discriminate].
      injection H as <-.
      eexists [LNode id _ []]. simpl. rewrite EM.
      split; [reflexivity|]. split; [repeat constructor|].
      split; [|now apply clean_snoc].
      do 2 f_equal. destruct (Postman.Body req) as [b|]; [|reflexivity].
      simpl. destruct (String.eqb (Raw b) "") eqn:EB; [|reflexivity].
      apply String.eqb_eq in EB. now rewrite EB.
    + injection H as <-. exists []. rewrite app_nil_r.
      split; [reflexivity|]. split; [constructor|]. split; [reflexivity|auto].
  - change (importItem db marshal collectionID parentID i
              (mkPostmanItem name (c :: cs) request) rows)
      with (let stmt := mkInsert collectionID (nullInt parentID) name "folder" i
                          None None None None in
            match insertItem db rows stmt with
            | Err err => (rows, Some (wrapError "failed to insert folder: " err))
            | Ok folderID =>
                forEach (importItem db marshal collectionID folderID) 0 (c :: cs)
                        (rows ++ [(folderID, stmt)])
            end) in H.
    cbv zeta in H.
    destruct (insertItem db rows _) as [folderID|] eqn:EI; [|discriminate].
    destruct (db_fresh _ _ _ EI) as [Hid _].
    assert (nullInt folderID = Some folderID) as HN.
    { unfold nullInt. apply Z.eqb_neq in Hid. now rewrite Hid. }
    assert (Forall (fun item => forall i rows rows',
              importItem db marshal collectionID folderID i item rows = (rows', None) ->
              step_forest marshal folderID i item rows rows') (c :: cs)) as IH'.
    { apply List.Forall_forall. intros x Hx i0 r0 r1. rewrite List.Forall_forall in IH.
      now apply IH. }
    destruct (forEach_forest folderID (c :: cs) IH' _ _ _ H) as [G [-> [HP [HO HC]]]].
    eexists [LNode folderID _ G]. simpl. rewrite app_nil_r.
    split; [now rewrite <- app_assoc|]. split.
    + constructor; [|constructor]. apply parented_node. split; [reflexivity|].
      now rewrite <- HN.
    + split.
      * f_equal. f_equal. rewrite map_map. exact HO.
      * intros Hc. apply HC. now apply clean_snoc.
Qed.

Lemma importItems_forest (items : list PostmanItem) (rows : Rows) :
  importItems db marshal collectionID 0 items 0 [] = (rows, None) ->
  exists F,
    rows = flat_map flat F
    /\ Forall (parented None) F
    /\ map (fun t => outline (nodeL t)) F = flatMapIndexed (imported marshal) 0 items
    /\ clean rows.
Proof.
  intros H. unfold importItems in H.
  destruct (forEach_forest 0 items) with (i := 0%Z) (rows := @nil (Z * Insert)) (rows' := rows)
    as [F [-> [HP [HO HC]]]].
  - apply List.Forall_forall. intros item _. apply importItem_forest.
  - exact H.
  - exists F. split; [reflexivity|]. split; [exact HP|]. split; [exact HO|].
    apply HC. split; [constructor|intros r []].
Qed.

Lemma import_then_tree (items : list PostmanItem) (rows : Rows) (fuel : nat) :
  importItems db marshal collectionID 0 items 0 [] = (rows, None) ->
  (length rows < fuel)%nat ->
  exists nodes,
    Tree.buildTree fuel (map rowOf rows) = Some nodes
    /\ map outline nodes = flatMapIndexed (imported marshal) 0 items.
Proof.
  intros H Hfuel. destruct (importItems_forest items rows H) as [F [-> [HP [HO [ND H0]]]]].
  exists (map nodeL F). split.
  - apply tree_of_forest; try assumption.
    intros q Hq. unfold forestIds in Hq. apply in_map_iff in Hq.
    destruct Hq as [r [<- Hr]]. now apply H0.
  - now rewrite map_map.
Qed.

End ImportProperties.

(** ** The upload *)
Section UploadProperties.
Import Postman PostmanValidator Collections Shapes.

(** X21. After an upload that replies 201, on a database that gives each
    new row an id that is not 0 and not yet used, buildTree applied to
    the rows the import inserted, in insertion order, returns a forest
    for every bound on the recursion above the number of rows, and the
    forest is the uploaded item list: a folder with its items in order, a
    request with its method, URL text, headers JSON and raw body, each
    with its position among its siblings as sort order. An item with
    neither items nor a request is left out, its position staying unused,
    and so is the request of a folder. *)
Theorem upload_then_tree (json : Json) (db : Database) (maxRequestSize maxHeaderCount : Z)
    (body : string) (rows : Rows) (collectionID : Z) (fuel : nat) :
  fresh_ids db ->
  UploadCollection json db maxRequestSize maxHeaderCount (Ok body)
  = (rows, ReplyCreated collectionID) ->
  (length rows < fuel)%nat ->
  exists collection nodes,
    ValidatePostmanCollection (unmarshal json) (Http.readLimited body maxRequestSize)
      maxRequestSize maxHeaderCount = Ok collection
    /\ Tree.buildTree fuel (map rowOf rows) = Some nodes
    /\ map outline nodes = flatMapIndexed (imported (marshal json)) 0 (Items collection).
Proof.
  intros Hfresh H Hfuel. unfold UploadCollection in H.
  destruct (ValidatePostmanCollection _ _ _ _) as [collection|]; [|discriminate].
  destruct (begin db); [discriminate|].
  destruct (insertCollection db _ _) as [cid|]; [|discriminate].
  destruct (importItems db (marshal json) cid 0 (Items collection) 0 [])
    as [rows' [err|]] eqn:EI; [discriminate|].
  destruct (commit db rows'); [discriminate|].
  injection H as <- <-.
  destruct (import_then_tree db (marshal json) cid Hfresh (Items collection) rows' fuel EI Hfuel)
    as [nodes [HB HO]].
  exists collection, nodes. auto.
Qed.

Lemma forEach_fails (db : Database) (marshal : list PostmanHeader -> result string)
    (collectionID parentID : Z) (items : list PostmanItem) :
  Forall (fun item => forall parentID i rows,
            Exists (fun leaf => Store.method_check (Some (Postman.Method (snd leaf))) = false)
                   (leafRequests item) ->
            exists rows' err,
              importItem db marshal collectionID parentID i item rows = (rows', Some err))
         items ->
  forall i rows,
    Exists (fun leaf => Store.method_check (Some (Postman.Method (snd leaf))) = false)
           (flat_map leafRequests items) ->
    exists rows' err,
      forEach (importItem db marshal collectionID parentID) i items rows = (rows', Some err).
Proof.
  induction 1 as [|item items Hitem _ IH]; intros i rows HE; [inversion HE|].
  simpl in HE. apply Exists_app in HE. simpl.
  destruct (importItem db marshal collectionID parentID i item rows)
    as [rows1 [err|]] eqn:E1; [eauto|].
  destruct HE as [HE|HE].
  - destruct (Hitem parentID i rows HE) as [r [e He]]. congruence.
  - apply IH, HE.
Qed.

Lemma importItem_fails (db : Database) (marshal : list PostmanHeader -> result string)
    (collectionID : Z) (item : PostmanItem) :
  enforces_check db ->
  forall parentID i rows,
    Exists (fun leaf => Store.method_check (Some (Postman.Method (snd leaf))) = false)
           (leafRequests item) ->
    exists rows' err,
      importItem db marshal collectionID parentID i item rows = (rows', Some err).
Proof.
  intros Hdb. induction item as [name children request IH] using PostmanItem_nested_ind.
  intros parentID i rows HE. destruct children as [|c cs].
  - simpl in HE |- *. destruct request as [req|]; [|inversion HE].
    apply Exists_cons in HE. destruct HE as [HE|HE]; [|inversion HE]. simpl in HE.
    destruct (marshal (Header req)); [|eauto].
    match goal with |- context [insertItem db rows ?s] =>
      destruct (Hdb rows s HE) as [err ->] end.
    eauto.
  - change (importItem db marshal collectionID parentID i
              (mkPostmanItem name (c :: cs) request) rows)
      with (let stmt := mkInsert collectionID (nullInt parentID) name "folder" i
                          None None None None in
            match insertItem db rows stmt with
            | Err err => (rows, Some (wrapError "failed to insert folder: " err))
            | Ok folderID =>
                forEach (importItem db marshal collectionID folderID) 0 (c :: cs)
                        (rows ++ [(folderID, stmt)])
            end).
    cbv zeta. destruct (insertItem db rows _) as [folderID|]; [|eauto].
    apply forEach_fails.
    + apply List.Forall_forall. intros x Hx. rewrite List.Forall_forall in IH.
      now apply IH.
    + exact HE.
Qed.

(** X22. The validator compares the method of a request in upper case,
    the import stores it as written, and the method column accepts the
    five verbs in upper case only: when the database enforces this CHECK,
    the upload of a collection that passes validation but holds a request
    whose method is not spelled exactly as one of the five verbs replies
    500 and commits nothing. *)
Theorem unchecked_case_fails_import (json : Json) (db : Database)
    (maxRequestSize maxHeaderCount : Z) (body : string) (collection : PostmanCollection) :
  enforces_check db ->
  ValidatePostmanCollection (unmarshal json) (Http.readLimited body maxRequestSize)
    maxRequestSize maxHeaderCount = Ok collection ->
  Exists (fun leaf => Store.method_check (Some (Postman.Method (snd leaf))) = false)
         (flat_map leafRequests (Items collection)) ->
  exists kind message,
    UploadCollection json db maxRequestSize maxHeaderCount (Ok body)
    = ([], ReplyError 500 kind message).
Proof.
  intros Hdb HV HE. unfold UploadCollection. rewrite HV.
  destruct (begin db); [eauto|].
  destruct (insertCollection db _ _) as [cid|]; [|eauto].
  destruct (forEach_fails db (marshal json) cid 0 (Items collection)) with (i := 0%Z)
    (rows := @nil (Z * Insert)) as [rows' [err He]].
  - apply List.Forall_forall. intros item _. now apply importItem_fails.
  - exact HE.
  - unfold importItems. rewrite He. eauto.
Qed.

Lemma firstError_shape (maxHeaderCount : Z) (l : list (string * PostmanRequest)) (err : error) :
  firstError (validateNamed maxHeaderCount) l = Some err ->
  exists name e, err = wrapError ("invalid request '" +:+ name +:+ "': ") e.
Proof.
  induction l as [|[name req] l IH]; [discriminate|]. simpl.
  unfold validateNamed at 1. simpl.
  destruct (validateRequest req maxHeaderCount) as [e|].
  - intros [= <-]. eauto.
  - exact IH.
Qed.

Lemma validateItems_shape (items : list PostmanItem) (maxHeaderCount : Z) (err : error) :
  validateItems items maxHeaderCount = Some err ->
  exists name e, err = wrapError ("invalid request '" +:+ name +:+ "': ") e.
Proof.
  unfold validateItems. induction items as [|x l IH]; [discriminate|].
  simpl. rewrite validateItem_leaves.
  destruct (firstError _ (leafRequests x)) as [e|] eqn:E.
  - intros [= <-]. now apply (firstError_shape maxHeaderCount (leafRequests x)).
  - exact IH.
Qed.

(** X23. With a MaxRequestSize that is not negative, UploadCollection
    never replies with the size error of the validator: the body is cut
    to MaxRequestSize bytes before it is validated, so the size test of
    ValidatePostmanCollection cannot fail there, and a longer body is
    handled exactly as its first MaxRequestSize bytes. *)
Theorem upload_never_reports_size (json : Json) (db : Database)
    (maxRequestSize maxHeaderCount : Z) (body : string) :
  (0 <= maxRequestSize)%Z ->
  snd (UploadCollection json db maxRequestSize maxHeaderCount (Ok body))
  <> ReplyError 400 "validation_error" (sizeMessage maxRequestSize)
  /\ UploadCollection json db maxRequestSize maxHeaderCount (Ok body)
     = UploadCollection json db maxRequestSize maxHeaderCount
         (Ok (Http.readLimited body maxRequestSize)).
Proof.
  intros Hmax. destruct (readLimited_spec body maxRequestSize) as [_ HL]. split.
  - unfold UploadCollection, ValidatePostmanCollection.
    assert ((maxRequestSize
             <? Z.of_nat (String.length (Http.readLimited body maxRequestSize)))%Z
            = false) as ->.
    { apply Z.ltb_ge. lia. }
    destruct (unmarshal json _) as [collection|e].
    2:{ simpl. unfold sizeMessage. intros [= E]. }
    destruct (isValidSchema _); simpl.
    2:{ unfold sizeMessage. intros [= E]. }
    destruct (length (Items collection) =? 0)%nat.
    { simpl. unfold sizeMessage. intros [= E]. }
    destruct (validateItems _ _) as [err|] eqn:EV.
    { destruct (validateItems_shape _ _ _ EV) as [name [e ->]].
      simpl. unfold sizeMessage. intros [= E]. }
    destruct (begin db); [discriminate|].
    destruct (insertCollection db _ _); [|discriminate].
    destruct (importItems _ _ _ _ _ _ _) as [rows [err|]]; [discriminate|].
    destruct (commit db rows); discriminate.
  - unfold UploadCollection.
    assert (Http.readLimited (Http.readLimited body maxRequestSize) maxRequestSize
            = Http.readLimited body maxRequestSize) as ->; [|reflexivity].
    unfold Http.readLimited at 1.
    assert ((Z.of_nat (String.length (Http.readLimited body maxRequestSize))
             <=? maxRequestSize)%Z = true) as ->; [|reflexivity].
    apply Z.leb_le. lia.
Qed.

End UploadProperties.

Lemma ValidatePostmanCollection_valid (unmarshal : string -> result Postman.PostmanCollection)
    (data : string) (maxRequestSize maxHeaderCount : Z)
    (collection : Postman.PostmanCollection) :
  PostmanValidator.ValidatePostmanCollection unmarshal data maxRequestSize maxHeaderCount
  = Ok collection ->
  List.Forall (fun leaf => PostmanValidator.validateRequest (snd leaf) maxHeaderCount = None)
              (flat_map Shapes.leafRequests (Postman.Items collection)).
Proof.
  unfold PostmanValidator.ValidatePostmanCollection.
  destruct (_ <? _)%Z; [discriminate|].
  destruct (unmarshal data) as [c|]; [|discriminate].
  destruct (negb _); [discriminate|].
  destruct (_ =? _)%nat; [discriminate|].
  destruct (PostmanValidator.validateItems _ _) eqn:EV; [discriminate|].
  intros [= <-]. now apply validateItems_none.
Qed.

(** ** What an upload stores *)
Section StoredRequests.
Import Postman PostmanValidator Collections Shapes.

Lemma requestRows_app (l1 l2 : Rows) :
  requestRows (l1 ++ l2) = requestRows l1 ++ requestRows l2.
Proof. unfold requestRows. now rewrite List.filter_app, map_app. Qed.

Lemma forEach_requests (db : Database) (marshal : list PostmanHeader -> result string)
    (collectionID parentID : Z) (items : list PostmanItem) :
  Forall (fun item => forall parentID i rows rows',
            importItem db marshal collectionID parentID i item rows = (rows', None) ->
            requestRows rows' = requestRows rows ++ map storedLeaf (leafRequests item))
         items ->
  forall i rows rows',
    forEach (importItem db marshal collectionID parentID) i items rows = (rows', None) ->
    requestRows rows' = requestRows rows ++ map storedLeaf (flat_map leafRequests items).
Proof.
  induction 1 as [|item items Hitem _ IH]; intros i rows rows' H.
  - injection H as <-. now rewrite app_nil_r.
  - simpl in H.
    destruct (importItem db marshal collectionID parentID i item rows)
      as [rows1 [err|]] eqn:E1; [discriminate|].
    rewrite (IH _ _ _ H), (Hitem _ _ _ _ E1). simpl.
    now rewrite map_app, app_assoc.
Qed.

Lemma importItem_requests (db : Database) (marshal : list PostmanHeader -> result string)
    (collectionID : Z) (item : PostmanItem) :
  forall parentID i rows rows',
    importItem db marshal collectionID parentID i item rows = (rows', None) ->
    requestRows rows' = requestRows rows ++ map storedLeaf (leafRequests item).
Proof.
  induction item as [name children request IH] using PostmanItem_nested_ind.
  intros parentID i rows rows' H. destruct children as [|c cs].
  - simpl in H |- *. destruct request as [req|].
    + destruct (marshal (Header req)) as [headersJSON|]; [|discriminate].
      destruct (insertItem db rows _) as [id|]; [|discriminate].
      injection H as <-. now rewrite requestRows_app.
    + injection H as <-. now rewrite app_nil_r.
  - change (importItem db marshal collectionID parentID i
              (mkPostmanItem name (c :: cs) request) rows)
      with (let stmt := mkInsert collectionID (nullInt parentID) name "folder" i
                          None None None None in
            match insertItem db rows stmt with
            | Err err => (rows, Some (wrapError "failed to insert folder: " err))
            | Ok folderID =>
                forEach (importItem db marshal collectionID folderID) 0 (c :: cs)
                        (rows ++ [(folderID, stmt)])
            end) in H.
    cbv zeta in H.
    destruct (insertItem db rows _) as [folderID|]; [|discriminate].
    change (leafRequests (mkPostmanItem name (c :: cs) request))
      with (flat_map leafRequests (c :: cs)).
    rewrite (forEach_requests db marshal collectionID folderID (c :: cs)
               ltac:(apply List.Forall_forall; intros x Hx;
                     rewrite List.Forall_forall in IH; now apply IH) _ _ _ H).
    rewrite requestRows_app. unfold requestRows at 2. simpl. now rewrite app_nil_r.
Qed.

(** X24. After an upload that replies 201, the request rows committed
    are, in order, the requests the validator looked at (those outside a
    folder's own request field), each stored with its name, its method as
    written and the text of its URL, and each of these requests passed
    validateRequest under the header limit of the upload. In particular a
    request kept on a folder is neither validated nor stored. *)
Theorem upload_stores_validated_requests (json : Json) (db : Database)
    (maxRequestSize maxHeaderCount : Z) (body : string) (rows : Rows) (collectionID : Z) :
  UploadCollection json db maxRequestSize maxHeaderCount (Ok body)
  = (rows, ReplyCreated collectionID) ->
  exists collection,
    ValidatePostmanCollection (unmarshal json) (Http.readLimited body maxRequestSize)
      maxRequestSize maxHeaderCount = Ok collection
    /\ requestRows rows = map storedLeaf (flat_map leafRequests (Items collection))
    /\ Forall (fun leaf => validateRequest (snd leaf) maxHeaderCount = None)
              (flat_map leafRequests (Items collection)).
Proof.
  intros H. unfold UploadCollection in H.
  destruct (ValidatePostmanCollection _ _ _ _) as [collection|] eqn:EV; [|discriminate].
  destruct (begin db); [discriminate|].
  destruct (insertCollection db _ _) as [cid|]; [|discriminate].
  destruct (importItems db (marshal json) cid 0 (Items collection) 0 [])
    as [rows' [err|]] eqn:EI; [discriminate|].
  destruct (commit db rows'); [discriminate|].
  injection H as <- <-. exists collection. split; [reflexivity|]. split.
  - unfold importItems in EI.
    apply (forEach_requests db (marshal json) cid 0 (Items collection)) in EI; [exact EI|].
    apply List.Forall_forall. intros item _. apply importItem_requests.
  - now apply ValidatePostmanCollection_valid in EV.
Qed.

End StoredRequests.

(** ** The further properties on concrete inputs *)
Section FurtherExamples.
Import Net Url Validator Http Spec Examples Samples.

Lemma bracketed_alias_never_matches_witness :
  Strs.ToLower (Hostname (mkURL "http" "" None "[::]:8080" "/" false "" "")) <> "[::]"
  /\ (isLocalhost (Hostname (mkURL "http" "" None "[::]:8080" "/" false "" "")) = true
      <-> Strs.ToLower (Hostname (mkURL "http" "" None "[::]:8080" "/" false "" ""))
          = "localhost"
          \/ Strs.ToLower (Hostname (mkURL "http" "" None "[::]:8080" "/" false "" ""))
             = "127.0.0.1"
          \/ Strs.ToLower (Hostname (mkURL "http" "" None "[::]:8080" "/" false "" ""))
             = "::1"
          \/ Strs.HasPrefix
               (Strs.ToLower (Hostname (mkURL "http" "" None "[::]:8080" "/" false "" "")))
               "127." = true
          \/ Strs.ToLower (Hostname (mkURL "http" "" None "[::]:8080" "/" false "" ""))
             = "0.0.0.0").
Proof.
  apply (bracketed_alias_never_matches "http://[::]:8080/"
           (mkURL "http" "" None "[::]:8080" "/" false "" "")).
  reflexivity.
Defined.

Lemma relaxing_flags_keeps_allowed_witness :
  ValidateExecutionURL example_resolver "http://example.com/" false false = None
  /\ ValidateExecutionURL example_resolver "http://example.com/" true true = None.
Proof.
  split; [vm_compute; reflexivity|].
  apply (relaxing_flags_keeps_allowed example_resolver "http://example.com/"
           false false true true).
  - vm_compute. reflexivity.
  - intros _. reflexivity.
  - intros _. reflexivity.
Defined.

Lemma verdict_depends_on_host_only_witness :
  ValidateExecutionURL_run example_resolver "http://example.com/a" false false
  = ValidateExecutionURL_run example_resolver
      "https://user@example.com:8443/b?x=1" false false.
Proof.
  eapply verdict_depends_on_host_only.
  - vm_compute. reflexivity.
  - vm_compute. reflexivity.
  - left. vm_compute. reflexivity.
  - right. vm_compute. reflexivity.
  - vm_compute. reflexivity.
Defined.

Lemma public_response_normalised_witness :
  exists sent response,
    Handlers.executeHTTPRequest (example_world one_page) two_bytes
      "GET" "http://example.com/" ∅ "" = (sent, Some (Ok response))
    /\ Models.RespBody response = "do"
    /\ exists pre last resp,
         sent = pre ++ [last]
         /\ transport one_page pre last = Ok resp
         /\ Models.Status response = StatusCode resp
         /\ String.prefix (Models.RespBody response) (RespBody resp) = true
         /\ Z.of_nat (String.length (Models.RespBody response))
            = Z.min (Z.of_nat (String.length (RespBody resp))) (Z.max 0 2).
Proof.
  eexists. eexists. split; [vm_compute; reflexivity|].
  split; [reflexivity|].
  apply (public_response_normalised (example_world one_page) two_bytes
           "GET" "http://example.com/" ∅ "").
  vm_compute. reflexivity.
Defined.

Lemma empty_url_override_masks_stored_url_witness :
  Handlers.prepare (example_world one_page) strict
    (Handlers.Row (item_of "GET" "http://example.com/")) (Some (Ok empty_url))
  = inl (Handlers.ReplyError 400 "invalid_request"
           "Request URL is missing. Provide URL in request body or ensure item has a URL.").
Proof.
  apply (empty_url_override_masks_stored_url (example_world one_page) strict
           (item_of "GET" "http://example.com/") empty_url "GET").
  - reflexivity.
  - reflexivity.
  - vm_compute. reflexivity.
Defined.

Lemma agent_reply_shape_witness :
  exists response,
    snd (Agent.executeHandler one_page (Ok agent_call) 0 7)
    = Some (Agent.ReplyOK response)
    /\ ((Agent.Error response = ""
         /\ exists pre last resp,
              fst (Agent.executeHandler one_page (Ok agent_call) 0 7) = pre ++ [last]
              /\ transport one_page pre last = Ok resp
              /\ Agent.Status response = StatusCode resp
              /\ Agent.StatusText response = Status resp)
        \/ (Agent.Status response = 0%Z
            /\ Agent.RespBody response = ""
            /\ exists err,
                 snd (Agent.executeHTTPRequest one_page agent_call 0 7) = Some (Err err)
                 /\ Agent.Error response = Errors.Error err
                 /\ Agent.Error response <> "")).
Proof.
  apply (agent_reply_shape one_page agent_call 0 7).
  - simpl. discriminate.
  - simpl. discriminate.
Defined.

Lemma execution_url_passes_upload_check_witness :
  ValidateExecutionURL example_resolver "https://example.com/items?page=2" false false = None
  /\ PostmanValidator.validateURL "https://example.com/items?page=2" = None.
Proof.
  split; [vm_compute; reflexivity|].
  apply (execution_url_passes_upload_check example_resolver
           "https://example.com/items?page=2" false false).
  vm_compute. reflexivity.
Defined.

Lemma isPrivateIP_v6_iff_witness :
  isPrivateIP [xfd;x12;x34;x56;x00;x00;x00;x00;x00;x00;x00;x00;x00;x00;x00;x01] = true
  /\ isPrivateIP [xfe;xc0;x00;x00;x00;x00;x00;x00;x00;x00;x00;x00;x00;x00;x00;x01] = false
  /\ (isPrivateIP [xfd;x12;x34;x56;x00;x00;x00;x00;x00;x00;x00;x00;x00;x00;x00;x01] = true
      <-> Shapes.v6_blocked
            [xfd;x12;x34;x56;x00;x00;x00;x00;x00;x00;x00;x00;x00;x00;x00;x01]).
Proof.
  split; [vm_compute; reflexivity|]. split; [vm_compute; reflexivity|].
  apply (isPrivateIP_v6_iff xfd x12 x34 x56 x00 x00 x00 x00 x00 x00 x00 x00 x00 x00 x00 x01).
  vm_compute. reflexivity.
Defined.

End FurtherExamples.

(** ** The settings, the update query and the batch update on concrete inputs *)
Section HandlerExamples.
Import Url Validator Spec Examples Samples Shapes.

Lemma flags_on_unless_set_otherwise_witness :
  exists c,
    Configuration.Load sample_library flags_env = Ok c
    /\ Configuration.AllowLocalhost c = false
    /\ Configuration.AllowPrivateIPs c = false
    /\ (Configuration.AllowLocalhost c = true
        <-> flags_env "ALLOW_LOCALHOST" = "" \/ flags_env "ALLOW_LOCALHOST" = "true")
    /\ (Configuration.AllowPrivateIPs c = true
        <-> flags_env "ALLOW_PRIVATE_IPS" = "" \/ flags_env "ALLOW_PRIVATE_IPS" = "true").
Proof.
  eexists. split; [vm_compute; reflexivity|].
  split; [reflexivity|]. split; [reflexivity|].
  apply (flags_on_unless_set_otherwise sample_library flags_env).
  vm_compute. reflexivity.
Defined.

Lemma default_settings_block_nothing_witness :
  exists c,
    Configuration.Load sample_library unset_env = Ok c
    /\ ValidateExecutionURL example_resolver "http://intranet.example/"
         (AllowLocalhost (Configuration.execution c))
         (AllowPrivateIPs (Configuration.execution c)) = None.
Proof.
  eexists. split; [vm_compute; reflexivity|].
  eapply (default_settings_block_nothing sample_library unset_env _ example_resolver
            "http://intranet.example/").
  - vm_compute. reflexivity.
  - reflexivity.
  - reflexivity.
  - vm_compute. reflexivity.
  - left. vm_compute. reflexivity.
  - vm_compute. discriminate.
  - vm_compute. reflexivity.
Defined.

Lemma update_query_shape_witness :
  Items.UpdateItem rename_services 1024 "7" (Ok "{}")
  = (Some ("UPDATE collection_items SET name = $1, url = $2, updated_at = NOW() WHERE id = $3",
           [Items.ArgString "renamed"; Items.ArgString "http://example.com/new";
            Items.ArgInt 7]),
     Items.ReplyOK 200 "Item updated successfully")
  /\ exists itemID req,
       Strconv.Atoi (Items.quote rename_services) "7" = Ok itemID
       /\ Items.unmarshal rename_services (Http.readLimited "{}" 1024) = Ok req
       /\ Items.selectType rename_services itemID = Items.TypeFound "request"
       /\ Store.UpdateItem_checkMethod (Items.Method req) = None
       /\ provided rename_services req <> []
       /\ "UPDATE collection_items SET name = $1, url = $2, updated_at = NOW() WHERE id = $3"
          = "UPDATE collection_items SET "
            +:+ String.concat ", " (numbered 1 (map fst (provided rename_services req))
                                    ++ ["updated_at = NOW()"])
            +:+ " WHERE id = $"
            +:+ Http.itoa (1 + Z.of_nat (length (provided rename_services req)))
       /\ [Items.ArgString "renamed"; Items.ArgString "http://example.com/new";
           Items.ArgInt 7]
          = map (fun f => Items.ArgString (snd f)) (provided rename_services req)
            ++ [Items.ArgInt itemID].
Proof.
  split; [vm_compute; reflexivity|].
  apply (update_query_shape rename_services 1024 "7" "{}" _ _
           (Items.ReplyOK 200 "Item updated successfully")).
  vm_compute. reflexivity.
Defined.

Lemma batch_update_merges_witness :
  exists written vars,
    Environments.BatchUpdateEnvironmentVariables sample_json (Ok new_b)
      [("b", "2")] (Environments.Found "stored") (fun _ => None)
    = (written, Environments.ReplyOK vars)
    /\ lookupVar vars "a" = Some "1"
    /\ lookupVar vars "b" = Some "2"
    /\ (forall k v, new_b !! k = Some v -> lookupVar vars k = Some v)
    /\ (forall k, new_b !! k = None
                  -> lookupVar vars k
                     = lookupVar match Environments.unmarshalVars sample_json "stored" with
                                 | Err _ => Some ∅
                                 | Ok decoded => decoded
                                 end k)
    /\ exists updatedVarsJSON,
         Environments.marshalVars sample_json vars = Ok updatedVarsJSON
         /\ written = Some updatedVarsJSON.
Proof.
  eexists. eexists. split; [vm_compute; reflexivity|].
  split; [vm_compute; reflexivity|]. split; [vm_compute; reflexivity|].
  apply (batch_update_merges sample_json new_b [("b", "2")] "stored" (fun _ => None)).
  - vm_compute. reflexivity.
  - vm_compute. reflexivity.
Defined.

Lemma batch_update_panics_witness :
  snd (Environments.BatchUpdateEnvironmentVariables sample_json (Ok new_b)
         [("b", "2")] (Environments.Found "null") (fun _ => None))
  = Environments.Panic
  /\ (snd (Environments.BatchUpdateEnvironmentVariables sample_json (Ok new_b)
            [("b", "2")] (Environments.Found "null") (fun _ => None))
      = Environments.Panic
      <-> Environments.unmarshalVars sample_json "null" = Ok None /\ new_b <> ∅).
Proof.
  split; [vm_compute; reflexivity|].
  apply (batch_update_panics sample_json new_b [("b", "2")] "null" (fun _ => None)).
  vm_compute. reflexivity.
Defined.


Lemma create_insert_satisfies_checks_witness :
  exists stmt,
    Items.CreateItem create_services "3" (Ok search_request)
    = (Some stmt, Items.Created 12 stmt)
    /\ Items.InsSortOrder stmt = 5%Z
    /\ Items.item_type_check (Items.InsItemType stmt) = true
    /\ Store.method_check (Items.InsMethod stmt) = true
    /\ (Items.InsItemType stmt = "folder" ->
        Items.InsMethod stmt = None /\ Items.InsURL stmt = None
        /\ Items.InsHeaders stmt = None /\ Items.InsBody stmt = None)
    /\ exists collectionID maxSort,
         Strconv.Atoi (Items.createQuote create_services) "3" = Ok collectionID
         /\ Items.InsCollectionID stmt = collectionID
         /\ Items.collectionExists create_services collectionID = Ok true
         /\ (forall parentID, Items.InsParentID stmt = Some parentID ->
               Items.parentOf create_services parentID = Ok (true, collectionID))
         /\ Items.maxSortOrder create_services collectionID (Items.InsParentID stmt)
            = Ok maxSort
         /\ Items.InsSortOrder stmt
            = match maxSort with Some m => (m + 1)%Z | None => 0%Z end.
Proof.
  eexists. split; [vm_compute; reflexivity|]. split; [reflexivity|].
  eapply (create_insert_satisfies_checks create_services "3" (Ok search_request)).
  vm_compute. reflexivity.
Defined.

End HandlerExamples.

(** ** The upload and the tree on a concrete collection *)
Section UploadExamples.
Import Collections Shapes Samples.

Lemma max_id_bounds (l : list Z) :
  (0 <= fold_right Z.max 0 l)%Z /\ forall id, In id l -> (id <= fold_right Z.max 0 l)%Z.
Proof.
  induction l as [|x l [IH0 IH]]; cbn [fold_right In].
  - split; [lia|intros id []].
  - split; [lia|]. intros id [->|H]; [lia|]. specialize (IH id H). lia.
Qed.

Lemma counting_db_fresh : fresh_ids counting_db.
Proof.
  intros rows stmt id. simpl.
  destruct (Store.method_check (Method stmt)); [|discriminate].
  intros [= <-]. unfold nextID.
  destruct (max_id_bounds (map fst rows)) as [H0 Hmax]. split; [lia|].
  intros H. apply list_elem_of_In in H. specialize (Hmax _ H). lia.
Qed.

Lemma counting_db_checks : enforces_check counting_db.
Proof. intros rows stmt H. simpl. rewrite H. eauto. Qed.

Lemma upload_then_tree_witness :
  exists rows,
    UploadCollection upload_json counting_db 4096 50 (Ok "demo") = (rows, ReplyCreated 1)
    /\ length rows = 3%nat
    /\ exists collection nodes,
         PostmanValidator.ValidatePostmanCollection (unmarshal upload_json)
           (Http.readLimited "demo" 4096) 4096 50 = Ok collection
         /\ Tree.buildTree 4 (map rowOf rows) = Some nodes
         /\ map outline nodes
            = flatMapIndexed (imported (marshal upload_json)) 0 (Postman.Items collection).
Proof.
  eexists. split; [vm_compute; reflexivity|]. split; [reflexivity|].
  apply (upload_then_tree upload_json counting_db 4096 50 "demo" _ 1 4 counting_db_fresh).
  - vm_compute. reflexivity.
  - simpl. lia.
Defined.

Lemma unchecked_case_fails_import_witness :
  PostmanValidator.ValidatePostmanCollection (unmarshal upload_json)
    (Http.readLimited "lowercase" 4096) 4096 50 = Ok lowercase_collection
  /\ snd (UploadCollection upload_json counting_db 4096 50 (Ok "lowercase"))
     = ReplyError 500 "import_error"
         "Failed to import items: failed to insert request: violates check constraint"
  /\ exists kind message,
       UploadCollection upload_json counting_db 4096 50 (Ok "lowercase")
       = ([], ReplyError 500 kind message).
Proof.
  split; [vm_compute; reflexivity|]. split; [vm_compute; reflexivity|].
  apply (unchecked_case_fails_import upload_json counting_db 4096 50 "lowercase"
           lowercase_collection counting_db_checks).
  - vm_compute. reflexivity.
  - apply Exists_exists. exists ("ping", Postman.mkPostmanRequest "get" [] None
                                   (Postman.URLString "http://example.com/ping")).
    split; [vm_compute; right; right; left; reflexivity|reflexivity].
Defined.

Lemma upload_never_reports_size_witness :
  snd (UploadCollection upload_json counting_db 4 50 (Ok "demo, and more"))
  = ReplyCreated 1
  /\ snd (UploadCollection upload_json counting_db 4 50 (Ok "demo, and more"))
     <> ReplyError 400 "validation_error" (sizeMessage 4)
  /\ UploadCollection upload_json counting_db 4 50 (Ok "demo, and more")
     = UploadCollection upload_json counting_db 4 50
         (Ok (Http.readLimited "demo, and more" 4)).
Proof.
  split; [vm_compute; reflexivity|].
  apply (upload_never_reports_size upload_json counting_db 4 50 "demo, and more").
  lia.
Defined.

Lemma upload_stores_validated_requests_witness :
  exists rows,
    UploadCollection upload_json counting_db 4096 50 (Ok "demo") = (rows, ReplyCreated 1)
    /\ requestRows rows
       = [ ("list", Some "GET", Some "http://example.com/users");
           ("create", Some "POST", Some "{{base}}/users") ]
    /\ exists collection,
         PostmanValidator.ValidatePostmanCollection (unmarshal upload_json)
           (Http.readLimited "demo" 4096) 4096 50 = Ok collection
         /\ requestRows rows
            = map storedLeaf (flat_map leafRequests (Postman.Items collection))
         /\ Forall (fun leaf => PostmanValidator.validateRequest (snd leaf) 50 = None)
                   (flat_map leafRequests (Postman.Items collection)).
Proof.
  eexists. split; [vm_compute; reflexivity|]. split; [reflexivity|].
  apply (upload_stores_validated_requests upload_json counting_db 4096 50 "demo" _ 1).
  vm_compute. reflexivity.
Defined.

End UploadExamples.
